(** * Inventory service: the Store (database.py) and the routes (app.py)

    A shallow embedding of the FastAPI inventory application.  The Pydantic
    schemas of models.py and the ORM classes of database.py are records, the
    SQLite file behind the engine is a pair of row lists, and every method of
    [Database] and every route handler of app.py is a function in a monad that
    threads the store and may raise a Python exception. *)

From Stdlib Require Import ZArith List String Bool Lia PrimFloat FloatAxioms SpecFloat FloatOps.
Import ListNotations.
Local Open Scope string_scope.
Local Open Scope list_scope.
Local Open Scope Z_scope.

(** ** models.py: the Pydantic schemas *)

(** [class ItemSchema(BaseModel)]: [id] is [Optional[int]], [price] carries
    [gt=0] and [stock] carries [ge=0]. *)
Module ItemSchema.
Record t : Type := mk
  { id : option Z;
    name : string;
    price : float;
    description : option string;
    stock : Z;
    category : option string }.

(** The two [Field] constraints of the schema: [gt=0] on the price and
    [ge=0] on the stock.  A payload reaches a route handler only when this
    holds. *)
Definition validate (p : t) : bool :=
  PrimFloat.ltb 0%float (price p) && (0 <=? stock p)%Z.
End ItemSchema.

(** [class UserSchema(BaseModel)]. *)
Module UserSchema.
Record t : Type := mk
  { email : string;
    password : string }.
End UserSchema.

(** ** database.py: the ORM classes *)

(** [class ItemModel(Base)], table [items]: a loaded or flushed row.  The
    class defines neither [__bool__] nor [__len__], so an instance is true
    in every test and [if not item] asks whether [item] is [None]; a Python
    variable that holds an instance or [None] is an [option] here. *)
Module ItemModel.
Record t : Type := mk
  { id : Z;
    name : string;
    price : float;
    description : option string;
    stock : Z;
    category : option string }.
End ItemModel.

(** [class UserModel(Base)], table [users]. *)
Module UserModel.
Record t : Type := mk
  { id : Z;
    email : string;
    hashed_password : string }.
End UserModel.

(** ** SQLite's integers *)

Module Sqlite.

(** An INTEGER of SQLite is a signed 64-bit value; Python's [int] and the
    [int] of a path parameter or a payload are unbounded. *)
Definition int64 (z : Z) : bool := (- 2 ^ 63 <=? z) && (z <=? 2 ^ 63 - 1).

(** The largest rowid a table can hold. *)
Definition max_rowid : Z := 2 ^ 63 - 1.

(** A row that table [items] can hold: [id] and [stock] are its two
    INTEGER columns. *)
Definition row_fits (r : ItemModel.t) : bool :=
  int64 (ItemModel.id r) && int64 (ItemModel.stock r).

End Sqlite.

(** ** Python exceptions and where they are raised *)

Inductive pyfile : Type := database_py | app_py | sqlalchemy_pkg | sqlite3_pkg.

(** A raise site: the file and the line of the [raise] statement (for the
    backend and the driver, line 0). *)
Definition loc : Type := (pyfile * nat)%type.

(** [OverflowError] is the builtin one: it is no [SQLAlchemyError], and
    SQLAlchemy, which wraps the driver's own errors only, lets it through
    as it is. *)
Inductive exn : Type :=
| HTTPException (status_code : Z) (detail : string)
| SQLAlchemyError (msg : string)
| OverflowError (msg : string).

Inductive result (A : Type) : Type :=
| Ok (a : A)
| Raise (at_ : loc) (e : exn).
Arguments Ok {A} a.
Arguments Raise {A} at_ e.

(** ** The store behind the engine *)

(** The SQLite file.  [item_rows] and [users] are the rows of the two
    tables in the order a full scan returns them.  [faults] is the backend's
    fault schedule: every statement that the database runs consumes its
    head, and [Some msg] makes that statement raise a [SQLAlchemyError]
    whose text is [msg]; an empty schedule is a healthy backend.  [salts] is
    the randomness [pwd_context.hash] draws from, [rowids] the values
    SQLite's generator gives when it has to pick a rowid at random. *)
Record world : Type := World
  { item_rows : list ItemModel.t;
    users : list UserModel.t;
    faults : list (option string);
    salts : list string;
    rowids : list Z }.

(** The rows of table [items]: what SQLite holds fits its INTEGER columns,
    so a row whose id or stock does not is no row of the file. *)
Definition items (w : world) : list ItemModel.t :=
  filter Sqlite.row_fits (item_rows w).

(** A store whose generator has not been asked yet. *)
Definition mkWorld (its : list ItemModel.t) (us : list UserModel.t)
  (fs : list (option string)) (ss : list string) : world :=
  World its us fs ss [].

Definition set_items (w : world) (l : list ItemModel.t) : world :=
  World l (users w) (faults w) (salts w) (rowids w).
Definition set_users (w : world) (l : list UserModel.t) : world :=
  World (item_rows w) l (faults w) (salts w) (rowids w).
Definition set_faults (w : world) (f : list (option string)) : world :=
  World (item_rows w) (users w) f (salts w) (rowids w).
Definition set_salts (w : world) (s : list string) : world :=
  World (item_rows w) (users w) (faults w) s (rowids w).
Definition set_rowids (w : world) (v : list Z) : world :=
  World (item_rows w) (users w) (faults w) (salts w) v.

(** ** The monad of the coroutines: state plus exceptions *)

Definition M (A : Type) : Type := world -> result A * world.

Definition ret {A} (a : A) : M A := fun w => (Ok a, w).

Definition bind {A B} (m : M A) (k : A -> M B) : M B :=
  fun w =>
    match m w with
    | (Ok a, w') => k a w'
    | (Raise l e, w') => (Raise l e, w')
    end.

Definition raise_at {A} (l : loc) (e : exn) : M A := fun w => (Raise l e, w).

Definition get_world : M world := fun w => (Ok w, w).
Definition put_world (w' : world) : M unit := fun _ => (Ok tt, w').

(** [try: m except SQLAlchemyError as e: h(e)]: an [HTTPException] or an
    [OverflowError] raised in the body is not caught. *)
Definition try_except_SQLAlchemyError {A} (m : M A) (h : string -> M A) : M A :=
  fun w =>
    match m w with
    | (Raise _ (SQLAlchemyError msg), w') => h msg w'
    | r => r
    end.

Declare Scope py_scope.
Delimit Scope py_scope with py.
Notation "x <- m ;; k" := (bind m (fun x => k))
  (at level 61, m at next level, right associativity) : py_scope.
Notation "m ;;; k" := (bind m (fun _ => k))
  (at level 61, right associativity) : py_scope.
Local Open Scope py_scope.

(** ** The backend: what SQLAlchemy, the sqlite3 driver and SQLite do for
    the calls of database.py *)

(** The database is taken at the level of its rows: [SELECT ... WHERE]
    followed by [first()] is a [find], [UPDATE ... WHERE] a [map],
    [DELETE ... WHERE] a [filter], and an [INSERT] puts the row at the place
    its rowid gives it.  A statement fails on a parameter that SQLite cannot
    hold, on a constraint of the two tables, or on a fault of the schedule.
    Every session of database.py flushes at most one object, so
    [session.add] or [session.delete] followed by [session.commit] is one
    statement here.  The text of an error that the backend makes up itself
    is the first line of the exception's [str]; the statement and the
    parameters that SQLAlchemy appends to it are left out.  The calls of one
    coroutine run without another request in between: what another request
    does between two [await]s is outside this model. *)
Module Backend.

(** One statement run by the database: it consumes the head of the fault
    schedule. *)
Definition dbapi : M unit :=
  fun w =>
    match faults w with
    | [] => (Ok tt, w)
    | None :: fs => (Ok tt, set_faults w fs)
    | Some msg :: fs =>
        (Raise (sqlalchemy_pkg, 0%nat) (SQLAlchemyError msg), set_faults w fs)
    end.

(** The driver binds an [int] parameter before the statement runs, and
    raises [OverflowError] for one beyond 64 bits. *)
Definition sqlite_int (z : Z) : M unit :=
  if Sqlite.int64 z then ret tt
  else raise_at (sqlite3_pkg, 0%nat)
         (OverflowError "Python int too large to convert to SQLite INTEGER").

(** A [float] parameter that is a NaN is bound as NULL. *)
Definition is_nan (x : float) : bool := negb (PrimFloat.eqb x x).

(** The rowid SQLite gives to an [INSERT] that names no primary key, while
    the largest rowid of the table is below [Sqlite.max_rowid]: one more
    than that largest rowid, and 1 on an empty table. *)
Definition next_rowid (ids : list Z) : Z :=
  match ids with
  | [] => 1
  | i :: rest => fold_right Z.max i rest + 1
  end.

(** Once the largest rowid is taken SQLite draws rowids at random, each
    between 1 and [2 ^ 62], until one is unused, and gives up after a
    hundred: [random_rowid ids 100 supply] is the rowid found and what is
    left of the supply. *)
Fixpoint random_rowid (ids : list Z) (tries : nat) (supply : list Z)
  : option (Z * list Z) :=
  match tries, supply with
  | S n, v :: rest =>
      let candidate := v mod 2 ^ 62 + 1 in
      if existsb (Z.eqb candidate) ids then random_rowid ids n rest
      else Some (candidate, rest)
  | _, _ => None
  end.

(** The rowid of an [INSERT] that names no primary key. *)
Definition assign_rowid (ids supply : list Z) : option (Z * list Z) :=
  if existsb (fun i => Sqlite.max_rowid <=? i) ids
  then random_rowid ids 100 supply
  else Some (next_rowid ids, supply).

Definition item_has_id (item_id : Z) (r : ItemModel.t) : bool :=
  ItemModel.id r =? item_id.

(** [(await session.execute(select(ItemModel).where(ItemModel.id == item_id)))
    .scalars().first()]. *)
Definition select_item_first (item_id : Z) : M (option ItemModel.t) :=
  sqlite_int item_id ;;;
  dbapi ;;;
  w <- get_world ;;
  ret (find (item_has_id item_id) (items w)).

(** [(await session.execute(select(ItemModel))).scalars().all()]. *)
Definition select_items_all : M (list ItemModel.t) :=
  dbapi ;;;
  w <- get_world ;;
  ret (items w).

(** The row of [ItemModel(...)] built from the keyword arguments [kw], once
    flushed under the primary key [i]. *)
Definition new_item (i : Z) (kw : ItemSchema.t) : ItemModel.t :=
  ItemModel.mk i (ItemSchema.name kw) (ItemSchema.price kw)
    (ItemSchema.description kw) (ItemSchema.stock kw) (ItemSchema.category kw).

(** The primary key of the [INSERT] while the table counts up: the one
    [kw] gives or, failing that, the next rowid. *)
Definition requested_id (kw : ItemSchema.t) (l : list ItemModel.t) : Z :=
  match ItemSchema.id kw with
  | Some i => i
  | None => next_rowid (map ItemModel.id l)
  end.

Definition inserted_item (kw : ItemSchema.t) (l : list ItemModel.t) : ItemModel.t :=
  new_item (requested_id kw l) kw.

(** The table with the row [r] added: a scan returns the rows by rowid, so
    [r] comes before the first row of a larger id. *)
Fixpoint insert_row (r : ItemModel.t) (l : list ItemModel.t) : list ItemModel.t :=
  match l with
  | [] => [r]
  | x :: rest =>
      if ItemModel.id r <? ItemModel.id x then r :: l
      else x :: insert_row r rest
  end.

Definition store_item (w : world) (r : ItemModel.t) : M ItemModel.t :=
  put_world (set_items w (insert_row r (items w))) ;;;
  ret r.

(** [session.add(db_item); await session.commit()] for a new object built
    from the keyword arguments [kw]: an [INSERT].  The id, when [kw] gives
    one, and the stock are bound as integers.  The column [price] is
    [nullable=False]; a primary key given in [kw] is the row's id and must
    be unused; without one SQLite assigns the rowid. *)
Definition insert_item (kw : ItemSchema.t) : M ItemModel.t :=
  match ItemSchema.id kw with
  | Some i => sqlite_int i
  | None => ret tt
  end ;;;
  sqlite_int (ItemSchema.stock kw) ;;;
  dbapi ;;;
  w <- get_world ;;
  if is_nan (ItemSchema.price kw) then
    raise_at (sqlalchemy_pkg, 0%nat)
      (SQLAlchemyError "(sqlite3.IntegrityError) NOT NULL constraint failed: items.price")
  else
    match ItemSchema.id kw with
    | Some i =>
        if existsb (item_has_id i) (items w) then
          raise_at (sqlalchemy_pkg, 0%nat)
            (SQLAlchemyError "(sqlite3.IntegrityError) UNIQUE constraint failed: items.id")
        else store_item w (new_item i kw)
    | None =>
        match assign_rowid (map ItemModel.id (items w)) (rowids w) with
        | Some (i, rest) => store_item (set_rowids w rest) (new_item i kw)
        | None =>
            raise_at (sqlalchemy_pkg, 0%nat)
              (SQLAlchemyError "(sqlite3.OperationalError) database or disk is full")
        end
    end.

(** [await session.refresh(db_item)]: reload the row by primary key. *)
Definition refresh_item (db_item : ItemModel.t) : M ItemModel.t :=
  r <- select_item_first (ItemModel.id db_item) ;;
  match r with
  | Some row => ret row
  | None =>
      raise_at (sqlalchemy_pkg, 0%nat)
        (SQLAlchemyError "Could not refresh instance")
  end.

Definition option_string_eqb (a b : option string) : bool :=
  match a, b with
  | Some x, Some y => String.eqb x y
  | None, None => true
  | _, _ => false
  end.

(** The ORM compares the value assigned to an attribute with the loaded
    one, by Python's [==], and counts the attribute as changed when they
    differ. *)
Definition name_changed (loaded item : ItemModel.t) : bool :=
  negb (String.eqb (ItemModel.name loaded) (ItemModel.name item)).
Definition price_changed (loaded item : ItemModel.t) : bool :=
  negb (PrimFloat.eqb (ItemModel.price loaded) (ItemModel.price item)).
Definition description_changed (loaded item : ItemModel.t) : bool :=
  negb (option_string_eqb (ItemModel.description loaded) (ItemModel.description item)).
Definition stock_changed (loaded item : ItemModel.t) : bool :=
  negb (ItemModel.stock loaded =? ItemModel.stock item).
Definition category_changed (loaded item : ItemModel.t) : bool :=
  negb (option_string_eqb (ItemModel.category loaded) (ItemModel.category item)).

Definition modified (loaded item : ItemModel.t) : bool :=
  name_changed loaded item || price_changed loaded item
  || description_changed loaded item || stock_changed loaded item
  || category_changed loaded item.

(** What [UPDATE items SET ...] makes of a row [r]: the [SET] clause names
    the changed attributes only. *)
Definition write_changes (loaded item r : ItemModel.t) : ItemModel.t :=
  ItemModel.mk (ItemModel.id r)
    (if name_changed loaded item then ItemModel.name item else ItemModel.name r)
    (if price_changed loaded item then ItemModel.price item else ItemModel.price r)
    (if description_changed loaded item then ItemModel.description item
     else ItemModel.description r)
    (if stock_changed loaded item then ItemModel.stock item else ItemModel.stock r)
    (if category_changed loaded item then ItemModel.category item
     else ItemModel.category r).

(** [UPDATE items SET ... WHERE id = loaded.id] on the rows of the
    table. *)
Definition update_rows (loaded item : ItemModel.t) (l : list ItemModel.t)
  : list ItemModel.t :=
  map (fun r => if item_has_id (ItemModel.id loaded) r
                then write_changes loaded item r else r) l.

(** [session.add(item); await session.commit()] for the object [loaded]
    whose attributes were assigned, giving [item].  When no attribute
    changed, the flush has nothing to write and the commit does not reach
    the database.  Otherwise it is one
    [UPDATE items SET ... WHERE id = loaded.id], which must match a row; a
    changed stock is bound as an integer, and [price] is
    [nullable=False]. *)
Definition update_item_row (loaded item : ItemModel.t) : M unit :=
  if modified loaded item then
    (if stock_changed loaded item then sqlite_int (ItemModel.stock item)
     else ret tt) ;;;
    dbapi ;;;
    w <- get_world ;;
    if is_nan (ItemModel.price item) then
      raise_at (sqlalchemy_pkg, 0%nat)
        (SQLAlchemyError "(sqlite3.IntegrityError) NOT NULL constraint failed: items.price")
    else if existsb (item_has_id (ItemModel.id loaded)) (items w) then
      put_world (set_items w (update_rows loaded item (items w)))
    else
      raise_at (sqlalchemy_pkg, 0%nat)
        (SQLAlchemyError "UPDATE statement on table 'items' expected to update 1 row(s); 0 were matched.")
  else ret tt.

(** [await session.delete(db_item); await session.commit()]:
    [DELETE FROM items WHERE id = db_item.id]. *)
Definition delete_item_row (db_item : ItemModel.t) : M unit :=
  dbapi ;;;
  w <- get_world ;;
  put_world
    (set_items w
       (filter (fun r => negb (item_has_id (ItemModel.id db_item) r)) (items w))).

Definition user_has_email (email : string) (u : UserModel.t) : bool :=
  String.eqb (UserModel.email u) email.

Definition user_has_id (user_id : Z) (u : UserModel.t) : bool :=
  UserModel.id u =? user_id.

(** [(await session.execute(select(UserModel).where(UserModel.email == email)))
    .scalars().first()]. *)
Definition select_user_by_email_first (email : string) : M (option UserModel.t) :=
  dbapi ;;;
  w <- get_world ;;
  ret (find (user_has_email email) (users w)).

(** The ids of table [users] are never the client's: each is the rowid
    SQLite assigned, counting up from 1, so an id that a row holds fits
    an INTEGER. *)
Definition user_id_fits (user_id : Z) (l : list UserModel.t) : bool :=
  Sqlite.int64 user_id || existsb (user_has_id user_id) l.

(** [(await session.execute(select(UserModel).where(UserModel.id == user_id)))
    .scalars().first()]. *)
Definition select_user_first (user_id : Z) : M (option UserModel.t) :=
  w0 <- get_world ;;
  (if user_id_fits user_id (users w0) then ret tt
   else sqlite_int user_id) ;;;
  dbapi ;;;
  w <- get_world ;;
  ret (find (user_has_id user_id) (users w)).

(** [session.add(db_user); await session.commit()] for a new user: an
    [INSERT] that names no primary key; the column [email] is
    [unique=True].  The rowids of this table are counted up from 1 and stay
    below [Sqlite.max_rowid]. *)
Definition insert_user (email hashed_password : string) : M UserModel.t :=
  dbapi ;;;
  w <- get_world ;;
  if existsb (user_has_email email) (users w) then
    raise_at (sqlalchemy_pkg, 0%nat)
      (SQLAlchemyError "(sqlite3.IntegrityError) UNIQUE constraint failed: users.email")
  else
    let db_user :=
      UserModel.mk (next_rowid (map UserModel.id (users w))) email hashed_password in
    put_world (set_users w (users w ++ [db_user])) ;;;
    ret db_user.

(** [await session.refresh(db_user)]. *)
Definition refresh_user (db_user : UserModel.t) : M UserModel.t :=
  r <- select_user_first (UserModel.id db_user) ;;
  match r with
  | Some row => ret row
  | None =>
      raise_at (sqlalchemy_pkg, 0%nat)
        (SQLAlchemyError "Could not refresh instance")
  end.

(** [async with self.engine.begin() as conn: body].  Leaving the block on
    an exception rolls the transaction back, which undoes the rows written
    in it.  No block of database.py gets that far: the driver runs
    [DROP TABLE] and [CREATE TABLE] outside the transaction, so what
    [drop_all] and [create_all] did stays, and [conn.execute] of a string
    raises before any statement is sent. *)
Definition engine_begin {A} (body : M A) : M A := body.

(** The tables of [Base.metadata], in the order of [sorted_tables]. *)
Inductive table : Type := items_table | users_table.
Definition sorted_tables : list table := [items_table; users_table].

Definition table_name (tb : table) : string :=
  match tb with
  | items_table => "items"
  | users_table => "users"
  end.

(** [await conn.execute(statement)] with [statement] a [str]: SQLAlchemy
    executes constructs such as [text(...)] only and raises
    [ObjectNotExecutableError], a [SQLAlchemyError], for a plain string. *)
Definition conn_execute (statement : string) : M unit :=
  raise_at (sqlalchemy_pkg, 0%nat)
    (SQLAlchemyError ("Not an executable object: '" ++ statement ++ "'")%string).

(** [for x in xs: body(x)]. *)
Fixpoint for_each {A} (xs : list A) (body : A -> M unit) : M unit :=
  match xs with
  | [] => ret tt
  | x :: rest => body x ;;; for_each rest body
  end.

(** [DROP TABLE]: the rows are gone at once.  Until [create_all] has run
    the table itself is missing, which the store does not record: it shows
    a dropped table as an empty one. *)
Definition drop_table (tb : table) : M unit :=
  dbapi ;;;
  w <- get_world ;;
  match tb with
  | items_table => put_world (set_items w [])
  | users_table => put_world (set_users w [])
  end.

(** [await conn.run_sync(Base.metadata.drop_all)]: one [DROP TABLE] per
    table, last table first. *)
Definition drop_all : M unit := for_each (rev sorted_tables) drop_table.

(** [CREATE TABLE] for a table that is missing, nothing for one that
    exists: no row changes. *)
Definition create_table (tb : table) : M unit := dbapi.

(** [await conn.run_sync(Base.metadata.create_all)]. *)
Definition create_all : M unit := for_each sorted_tables create_table.

End Backend.

(** ** Password hashing *)

(** [pwd_context = CryptContext(schemes=["bcrypt"], deprecated="auto")]: the
    hashing primitive is a library's; the development is parametric in it.
    [hash salt password] is the stored text for a salt, [verify plain hashed]
    the check of [pwd_context.verify]. *)
Class CryptContext : Type :=
  { hash : string -> string -> string;
    verify : string -> string -> bool }.

(** [pwd_context.hash(password)]: a salt is drawn (the empty one when the
    supply is exhausted), then the hash computed. *)
Definition pwd_context_hash `{CryptContext} (password : string) : M string :=
  fun w =>
    (Ok (hash (hd EmptyString (salts w)) password),
     set_salts w (tl (salts w))).

(** ** database.py: [class Database] *)

Module Database.

(** [Database.create_item] (database.py 62-75). *)
Definition create_item (item : ItemSchema.t) : M ItemModel.t :=
  try_except_SQLAlchemyError
    (db_item <- Backend.insert_item item ;;
     Backend.refresh_item db_item)
    (fun e =>
       (* await session.rollback() *)
       raise_at (database_py, 73%nat)
         (HTTPException 500 ("Error creating item: " ++ e)%string)).

(** [Database.get_item] (database.py 77-84).  The Python value returned
    is the variable [item], which the callers test for [None]. *)
Definition get_item (item_id : Z) : M (option ItemModel.t) :=
  item <- Backend.select_item_first item_id ;;
  match item with
  | None => raise_at (database_py, 83%nat) (HTTPException 404 "Item not found")
  | Some _ => ret item
  end.

(** [Database.get_all_items] (database.py 86-95). *)
Definition get_all_items : M (list ItemModel.t) :=
  try_except_SQLAlchemyError
    Backend.select_items_all
    (fun e =>
       raise_at (database_py, 93%nat)
         (HTTPException 500 ("Database error: " ++ e)%string)).

(** [Database.get_item_by_id] (database.py 114-118): [None] when no row
    matches. *)
Definition get_item_by_id (item_id : Z) : M (option ItemModel.t) :=
  Backend.select_item_first item_id.

(** The five assignments [item.name = item_data.name] ...
    [item.category = item_data.category] of [update_item]; [item.id] is not
    assigned. *)
Definition assign_fields (item : ItemModel.t) (item_data : ItemSchema.t)
  : ItemModel.t :=
  ItemModel.mk (ItemModel.id item)
    (ItemSchema.name item_data) (ItemSchema.price item_data)
    (ItemSchema.description item_data) (ItemSchema.stock item_data)
    (ItemSchema.category item_data).

(** [Database.update_item] (database.py 97-112).  The object returned is
    the loaded one with the payload's values assigned. *)
Definition update_item (item_id : Z) (item_data : ItemSchema.t)
  : M (option ItemModel.t) :=
  item <- get_item_by_id item_id ;;
  match item with
  | None => raise_at (database_py, 101%nat) (HTTPException 404 "Item not found")
  | Some item0 =>
      let item1 := assign_fields item0 item_data in
      (* session.add(item); await session.commit() *)
      Backend.update_item_row item0 item1 ;;;
      ret (Some item1)
  end.

(** [Database.delete_item] (database.py 120-128). *)
Definition delete_item (item_id : Z) : M (option ItemModel.t) :=
  db_item <- get_item item_id ;;
  match db_item with
  | Some it =>
      Backend.delete_item_row it ;;;
      ret db_item
  | None => raise_at (database_py, 128%nat) (HTTPException 404 "Item not found")
  end.

(** [Database.get_user] (database.py 148-155). *)
Definition get_user (user_id : Z) : M (option UserModel.t) :=
  user <- Backend.select_user_first user_id ;;
  match user with
  | None => raise_at (database_py, 154%nat) (HTTPException 404 "User not found")
  | Some _ => ret user
  end.

(** [Database.get_user_by_email] (database.py 157-162). *)
Definition get_user_by_email (email : string) : M (option UserModel.t) :=
  Backend.select_user_by_email_first email.

(** [Database.verify_password] (database.py 164-166). *)
Definition verify_password `{CryptContext} (plain_password hashed_password : string)
  : M bool :=
  ret (verify plain_password hashed_password).

(** [Database.create_user] (database.py 130-146). *)
Definition create_user `{CryptContext} (user : UserSchema.t) : M UserModel.t :=
  try_except_SQLAlchemyError
    (existing_user <- get_user_by_email (UserSchema.email user) ;;
     match existing_user with
     | Some _ =>
         raise_at (database_py, 136%nat)
           (HTTPException 400 "Email already registered")
     | None =>
         hashed <- pwd_context_hash (UserSchema.password user) ;;
         db_user <- Backend.insert_user (UserSchema.email user) hashed ;;
         Backend.refresh_user db_user
     end)
    (fun e =>
       (* print(...); await session.rollback() *)
       raise_at (database_py, 146%nat)
         (HTTPException 500 "Could not create user")).

(** [Database.init_db] (database.py 43-46). *)
Definition init_db : M unit :=
  Backend.engine_begin Backend.create_all.

(** [Database.clear_data] (database.py 48-54): the three [conn.execute]
    calls are given strings. *)
Definition clear_data : M unit :=
  Backend.engine_begin
    (Backend.conn_execute "PRAGMA foreign_keys = OFF;" ;;;
     Backend.for_each (rev Backend.sorted_tables)
       (fun table =>
          Backend.conn_execute
            ("DELETE FROM " ++ Backend.table_name table ++ ";")%string) ;;;
     Backend.conn_execute "PRAGMA foreign_keys = ON;").

(** [Database.reset_database] (database.py 56-60). *)
Definition reset_database : M unit :=
  Backend.engine_begin
    (Backend.drop_all ;;;
     Backend.create_all).

End Database.

(** ** What FastAPI does with a handler's return value *)

Module Fastapi.

(** The values an attribute dictionary of this application holds: JSON
    scalars, and the ORM's [InstanceState], which is no JSON value. *)
Inductive json : Type :=
| JNull
| JInt (z : Z)
| JFloat (f : float)
| JStr (s : string)
| InstanceState.

Definition keys (d : list (string * json)) : list string := map fst d.

(** [vars(db_user)] of an ORM object whose attributes are loaded: the
    instrumentation entry and one entry per column. *)
Definition vars_UserModel (u : UserModel.t) : list (string * json) :=
  [ ("_sa_instance_state", InstanceState);
    ("id", JInt (UserModel.id u));
    ("email", JStr (UserModel.email u));
    ("hashed_password", JStr (UserModel.hashed_password u)) ].

(** [jsonable_encoder] on the attribute dictionary of an ORM object, for a
    route that declares no [response_model]: every entry is kept but the
    ones whose key starts with [_sa]. *)
Definition jsonable_encoder (d : list (string * json)) : list (string * json) :=
  filter (fun kv => negb (String.prefix "_sa" (fst kv))) d.

(** [Response(status_code=...)]. *)
Record Response : Type := mkResponse { status_code : Z }.

(** The status line of the reply: the route's success code, the code of an
    [HTTPException], and 500 for any other exception that leaves the
    handler. *)
Definition http_status {A} (success : Z) (r : result A) : Z :=
  match r with
  | Ok _ => success
  | Raise _ (HTTPException code _) => code
  | Raise _ (SQLAlchemyError _) => 500
  | Raise _ (OverflowError _) => 500
  end.

End Fastapi.
(** ** app.py: the route handlers *)

Module App.

(** [POST /register/] (app.py 46-56). *)
Definition register `{CryptContext} (user : UserSchema.t) : M UserModel.t :=
  (* print("User email"+user.email) *)
  existing_user <- Database.get_user_by_email (UserSchema.email user) ;;
  match existing_user with
  | Some _ =>
      raise_at (app_py, 52%nat) (HTTPException 400 "Email already registered")
  | None =>
      db_user <- Database.create_user user ;;
      ret db_user
  end.

(** The body FastAPI sends for the object [register] returns; the route
    declares no [response_model]. *)
Definition register_response_body (db_user : UserModel.t)
  : list (string * Fastapi.json) :=
  Fastapi.jsonable_encoder (Fastapi.vars_UserModel db_user).

(** [POST /token] (app.py 60-70); the returned dictionary as its items. *)
Definition login `{CryptContext} (form_data : UserSchema.t)
  : M (list (string * string)) :=
  user <- Database.get_user_by_email (UserSchema.email form_data) ;;
  match user with
  | None => raise_at (app_py, 66%nat) (HTTPException 404 "User not found")
  | Some u =>
      ok <- Database.verify_password (UserSchema.password form_data)
              (UserModel.hashed_password u) ;;
      if negb ok then
        raise_at (app_py, 69%nat) (HTTPException 401 "Incorrect password")
      else
        ret [("access_token", UserModel.email u); ("token_type", "bearer")]
  end.

(** [POST /items/] (app.py 73-75). *)
Definition create_item (item : ItemSchema.t) : M ItemModel.t :=
  Database.create_item item.

(** [GET /items/{item_id}] (app.py 78-83). *)
Definition get_item (item_id : Z) : M ItemModel.t :=
  item <- Database.get_item item_id ;;
  match item with
  | None => raise_at (app_py, 82%nat) (HTTPException 404 "Item not found")
  | Some it => ret it
  end.

(** [GET /items/] (app.py 86-88). *)
Definition get_all_items : M (list ItemModel.t) :=
  Database.get_all_items.

(** [PUT /items/{item_id}] (app.py 91-96). *)
Definition update_item (item_id : Z) (item : ItemSchema.t) : M ItemModel.t :=
  updated_item <- Database.update_item item_id item ;;
  match updated_item with
  | None => raise_at (app_py, 95%nat) (HTTPException 404 "Item not found")
  | Some it => ret it
  end.

(** [DELETE /items/{item_id}] (app.py 99-104). *)
Definition delete_item (item_id : Z) : M Fastapi.Response :=
  deleted_item <- Database.delete_item item_id ;;
  match deleted_item with
  | None => raise_at (app_py, 103%nat) (HTTPException 404 "Item not found")
  | Some _ => ret (Fastapi.mkResponse 204)
  end.

(** [POST /reset-database/] (app.py 112-115). *)
Definition reset_database : M (list (string * string)) :=
  Database.reset_database ;;;
  ret [("detail", "Database reset successfully")].

(** [GET /] (app.py 41-43). *)
Definition read_root : list (string * string) :=
  [("message", "Welcome to the Web Development Basics API using FastAPI!")].

(** [GET /favicon.ico] (app.py 107-109). *)
Definition favicon : Fastapi.Response := Fastapi.mkResponse 204.

(** The startup and shutdown hooks (app.py 25-32). *)
Definition startup : M unit := Database.init_db.
Definition shutdown : M unit := Database.clear_data.

End App.

(** ** Sequences of Store calls *)

Module Store.

(** One call of a method of [Database]. *)
Inductive call : Type :=
| init_db
| clear_data
| reset_database
| create_item (item : ItemSchema.t)
| get_item (item_id : Z)
| get_all_items
| update_item (item_id : Z) (item_data : ItemSchema.t)
| delete_item (item_id : Z)
| create_user (user : UserSchema.t)
| get_user (user_id : Z)
| get_user_by_email (email : string).

Definition discard {A} (m : M A) : M unit := _ <- m ;; ret tt.

(** The call performed; its value is dropped, its effect on the store and
    its exception are kept. *)
Definition perform `{CryptContext} (c : call) : M unit :=
  match c with
  | init_db => Database.init_db
  | clear_data => Database.clear_data
  | reset_database => Database.reset_database
  | create_item item => discard (Database.create_item item)
  | get_item item_id => discard (Database.get_item item_id)
  | get_all_items => discard Database.get_all_items
  | update_item item_id item_data => discard (Database.update_item item_id item_data)
  | delete_item item_id => discard (Database.delete_item item_id)
  | create_user user => discard (Database.create_user user)
  | get_user user_id => discard (Database.get_user user_id)
  | get_user_by_email email => discard (Database.get_user_by_email email)
  end.

(** The calls of a history, one after the other; a call that raises ends
    its own request only. *)
Fixpoint run `{CryptContext} (cs : list call) (w : world) : world :=
  match cs with
  | [] => w
  | c :: rest => run rest (snd (perform c w))
  end.

(** The payload of a call went through [ItemSchema]'s validation, as every
    payload a route hands to the Store has. *)
Definition validated (c : call) : bool :=
  match c with
  | create_item item => ItemSchema.validate item
  | update_item _ item_data => ItemSchema.validate item_data
  | _ => true
  end.

(** [price > 0] and [stock >= 0] on a persisted row. *)
Definition item_ok (r : ItemModel.t) : bool :=
  PrimFloat.ltb 0%float (ItemModel.price r) && (0 <=? ItemModel.stock r)%Z.

(** The invariant of the item table. *)
Definition items_ok (l : list ItemModel.t) : Prop :=
  Forall (fun r => item_ok r = true) l.

End Store.


(** ** Specifications of coroutines *)

(** [hoare P m Q E]: from a store satisfying [P], [m] either returns [a] in
    a store satisfying [Q a], or raises [e] at [l] in a store satisfying
    [E l e]. *)
Definition hoare {A} (P : world -> Prop) (m : M A)
  (Q : A -> world -> Prop) (E : loc -> exn -> world -> Prop) : Prop :=
  forall w, P w ->
    match m w with
    | (Ok a, w') => Q a w'
    | (Raise l e, w') => E l e w'
    end.

(** [m] keeps the property [I] of the item table, however it ends. *)
Definition keeps {A} (I : list ItemModel.t -> Prop) (m : M A) : Prop :=
  hoare (fun w => I (items w)) m
        (fun _ w => I (items w)) (fun _ _ w => I (items w)).

(** The file and line a result was raised at, if it was raised. *)
Definition raised_at {A} (r : result A) : option loc :=
  match r with
  | Ok _ => None
  | Raise l _ => Some l
  end.

(** [db_user] holds what a registration of [user] stores when the salt
    supply is [s0]: the request's email and the hash of its password. *)
Definition created_from `{CryptContext} (user : UserSchema.t) (s0 : list string)
  (db_user : UserModel.t) : Prop :=
  UserModel.email db_user = UserSchema.email user
  /\ UserModel.hashed_password db_user
     = hash (hd EmptyString s0) (UserSchema.password user).

(** [l] is neither of the two raise statements that sit under a test of
    [get_item]'s result: the last line of [Database.delete_item] and the one
    in the GET route. *)
Definition not_guarded (l : loc) : Prop :=
  l <> (database_py, 128%nat) /\ l <> (app_py, 82%nat).

(** ** Properties of the two tables *)

(** [m] keeps the property [I] of the item and user tables, however it
    ends. *)
Definition keeps_tables {A} (I : list ItemModel.t -> list UserModel.t -> Prop)
  (m : M A) : Prop :=
  hoare (fun w => I (items w) (users w)) m
        (fun _ w => I (items w) (users w))
        (fun _ _ w => I (items w) (users w)).

(** What a property of the tables has to survive for every method of
    [Database] to keep it: the six ways a statement of database.py changes
    a table. *)
Record table_invariant (I : list ItemModel.t -> list UserModel.t -> Prop) : Prop :=
  { inv_insert_item :
      forall l u r, I l u ->
        ~ In (ItemModel.id r) (map ItemModel.id l) ->
        I (Backend.insert_row r l) u;
    inv_update_item :
      forall l u loaded item, I l u ->
        I (Backend.update_rows loaded item l) u;
    inv_delete_item :
      forall l u k, I l u ->
        I (filter (fun r => negb (Backend.item_has_id k r)) l) u;
    inv_insert_user :
      forall l u email hashed, I l u ->
        ~ In email (map UserModel.email u) ->
        I l (u ++ [UserModel.mk (Backend.next_rowid (map UserModel.id u))
                     email hashed]);
    inv_clear_items : forall l u, I l u -> I [] u;
    inv_clear_users : forall l u, I l u -> I l [] }.

(** No two rows of [items] share an id; no two rows of [users] share an id
    or an email. *)
Definition keys_unique (l : list ItemModel.t) (u : list UserModel.t) : Prop :=
  NoDup (map ItemModel.id l)
  /\ NoDup (map UserModel.id u)
  /\ NoDup (map UserModel.email u).

(** The row [r] holds the five fields of the payload [p]. *)
Definition same_fields (p : ItemSchema.t) (r : ItemModel.t) : Prop :=
  ItemModel.name r = ItemSchema.name p
  /\ ItemModel.price r = ItemSchema.price p
  /\ ItemModel.description r = ItemSchema.description p
  /\ ItemModel.stock r = ItemSchema.stock p
  /\ ItemModel.category r = ItemSchema.category p.

(** The exception is an [HTTPException]. *)
Definition is_http (e : exn) : Prop :=
  match e with
  | HTTPException _ _ => True
  | SQLAlchemyError _ => False
  | OverflowError _ => False
  end.

(** The two tables of the store are [l0] and [u0]. *)
Definition tables_are (l0 : list ItemModel.t) (u0 : list UserModel.t)
  (w : world) : Prop :=
  items w = l0 /\ users w = u0.

(** The exception [e] raised at [l] is the backend's own. *)
Definition raw_fault (l : loc) (e : exn) : Prop :=
  l = (sqlalchemy_pkg, 0%nat) /\ exists msg, e = SQLAlchemyError msg.

(** The exception [e] raised at [l] is the driver's [OverflowError]. *)
Definition overflow_error (l : loc) (e : exn) : Prop :=
  l = (sqlite3_pkg, 0%nat)
  /\ e = OverflowError "Python int too large to convert to SQLite INTEGER".

(** The integers of the payload, its stock and its id if it has one, fit
    SQLite's INTEGER. *)
Definition payload_fits (p : ItemSchema.t) : bool :=
  match ItemSchema.id p with
  | Some i => Sqlite.int64 i
  | None => true
  end && Sqlite.int64 (ItemSchema.stock p).

(** Every rowid of the table is below the largest one: the next
    [INSERT] without a primary key counts up. *)
Definition counts_up (l : list ItemModel.t) : Prop :=
  forall i, In i (map ItemModel.id l) -> i < Sqlite.max_rowid.

(** [r] is a row that an [INSERT] of the payload [p] adds to the table
    [l]: the payload's fields, with a price that is no NaN, under a key that
    no row of [l] has and that SQLite can hold; the key is the payload's if
    it has one, and the next rowid if it has none and the table counts
    up. *)
Definition inserted_from (p : ItemSchema.t) (l : list ItemModel.t)
  (r : ItemModel.t) : Prop :=
  r = Backend.new_item (ItemModel.id r) p
  /\ ~ In (ItemModel.id r) (map ItemModel.id l)
  /\ Sqlite.row_fits r = true
  /\ Backend.is_nan (ItemSchema.price p) = false
  /\ (forall i, ItemSchema.id p = Some i -> ItemModel.id r = i)
  /\ (ItemSchema.id p = None -> counts_up l ->
      ItemModel.id r = Backend.next_rowid (map ItemModel.id l)).

(** The table after an [update_item] that loaded [item0] and assigned the
    payload [p]. *)
Definition updated_table (item0 : ItemModel.t) (p : ItemSchema.t)
  (l : list ItemModel.t) : list ItemModel.t :=
  if Backend.modified item0 (Database.assign_fields item0 p)
  then Backend.update_rows item0 (Database.assign_fields item0 p) l
  else l.

(** The table can take [n] more rows that count up: no rowid gets as far
    as the largest one. *)
Definition room_for (n : nat) (l : list ItemModel.t) : Prop :=
  Z.of_nat n < Sqlite.max_rowid
  /\ forall i, In i (map ItemModel.id l) -> i + Z.of_nat n < Sqlite.max_rowid.

(** A payload that [create_item] stores under the next rowid: it carries
    no id, satisfies the schema and its stock fits 64 bits. *)
Definition plain_payload (p : ItemSchema.t) : Prop :=
  ItemSchema.id p = None
  /\ ItemSchema.validate p = true
  /\ Sqlite.int64 (ItemSchema.stock p) = true.

(** A statement failed: the tables are still [l0] and [u0] and the
    exception is the backend's. *)
Definition statement_failed (l0 : list ItemModel.t) (u0 : list UserModel.t)
  (l : loc) (e : exn) (w : world) : Prop :=
  tables_are l0 u0 w /\ raw_fault l e.

(** A statement with an integer parameter failed: the tables are still
    [l0] and [u0], and the exception is the backend's or, only when
    [fits] is false, the driver's [OverflowError]. *)
Definition statement_refused (l0 : list ItemModel.t) (u0 : list UserModel.t)
  (fits : bool) (l : loc) (e : exn) (w : world) : Prop :=
  tables_are l0 u0 w
  /\ (raw_fault l e \/ (overflow_error l e /\ fits = false)).

(** The user table after a registration of [email] that raised: as it was,
    [u0], or with a row of that email, which no row had, appended. *)
Definition maybe_stored (u0 : list UserModel.t) (email : string)
  (u : list UserModel.t) : Prop :=
  u = u0
  \/ (~ In email (map UserModel.email u0)
      /\ exists r, UserModel.email r = email /\ u = u0 ++ [r]).

(** ** Concrete runs *)

Module Runs.

Definition empty_world : world := mkWorld [] [] [] [].

(** The example price 999.99 of [ItemSchema], as the binary64 value Python
    reads. *)
Definition price_999_99 : float := 0x1.f3feb851eb852p+9%float.

Definition laptop : ItemSchema.t :=
  ItemSchema.mk None "Laptop" price_999_99 None 10 (Some "Electronics").

Definition laptop_row (i : Z) : ItemModel.t :=
  ItemModel.mk i "Laptop" price_999_99 None 10 (Some "Electronics").

(** A second payload and its row. *)
Definition desktop : ItemSchema.t :=
  ItemSchema.mk None "Desktop" 2.5%float (Some "tower") 3 None.

Definition desktop_row (i : Z) : ItemModel.t :=
  ItemModel.mk i "Desktop" 2.5%float (Some "tower") 3 None.

(** A stand-in for bcrypt, for runs only. *)
Definition toy_context : CryptContext :=
  {| hash := fun salt password => ("$2b$" ++ salt ++ "$" ++ String.string_of_list_ascii (rev (String.list_ascii_of_string password)))%string;
     verify := fun plain hashed =>
       String.eqb (String.string_of_list_ascii (rev (String.list_ascii_of_string plain)))
         (String.substring (String.length hashed - String.length plain)
            (String.length plain) hashed) |}.

End Runs.

Example create_laptop_on_empty :
  Database.create_item Runs.laptop Runs.empty_world
  = (Ok (Runs.laptop_row 1), mkWorld [Runs.laptop_row 1] [] [] []).
Proof. reflexivity. Qed.

Example laptop_is_valid : ItemSchema.validate Runs.laptop = true.
Proof. reflexivity. Qed.

(** ** Facts about the store *)

Lemma users_set_items w l : users (set_items w l) = users w.
Proof. reflexivity. Qed.
Lemma faults_set_items w l : faults (set_items w l) = faults w.
Proof. reflexivity. Qed.
Lemma items_set_users w l : items (set_users w l) = items w.
Proof. reflexivity. Qed.
Lemma users_set_users w l : users (set_users w l) = l.
Proof. reflexivity. Qed.
Lemma faults_set_users w l : faults (set_users w l) = faults w.
Proof. reflexivity. Qed.
Lemma items_set_faults w f : items (set_faults w f) = items w.
Proof. reflexivity. Qed.
Lemma users_set_faults w f : users (set_faults w f) = users w.
Proof. reflexivity. Qed.
Lemma faults_set_faults w f : faults (set_faults w f) = f.
Proof. reflexivity. Qed.
Lemma items_set_salts w s : items (set_salts w s) = items w.
Proof. reflexivity. Qed.
Lemma users_set_salts w s : users (set_salts w s) = users w.
Proof. reflexivity. Qed.
Lemma faults_set_salts w s : faults (set_salts w s) = faults w.
Proof. reflexivity. Qed.
Lemma items_set_rowids w v : items (set_rowids w v) = items w.
Proof. reflexivity. Qed.
Lemma users_set_rowids w v : users (set_rowids w v) = users w.
Proof. reflexivity. Qed.
Lemma faults_set_rowids w v : faults (set_rowids w v) = faults w.
Proof. reflexivity. Qed.

(** Every row of the item table fits SQLite's INTEGER columns. *)
Lemma items_fit (w : world) :
  Forall (fun r => Sqlite.row_fits r = true) (items w).
Proof.
  unfold items. apply Forall_forall. intros r Hr.
  apply filter_In in Hr. now destruct Hr.
Qed.

Lemma rows_that_fit_stay (l : list ItemModel.t) :
  Forall (fun r => Sqlite.row_fits r = true) l -> filter Sqlite.row_fits l = l.
Proof.
  induction 1 as [|r l Hr Hl IH]; simpl; [reflexivity|].
  now rewrite Hr, IH.
Qed.

(** Writing a table whose rows fit makes it the item table. *)
Lemma items_set_items (w : world) (l : list ItemModel.t) :
  Forall (fun r => Sqlite.row_fits r = true) l -> items (set_items w l) = l.
Proof. intros Hl. unfold items, set_items. simpl. now apply rows_that_fit_stay. Qed.

Lemma items_set_items_nil (w : world) : items (set_items w []) = [].
Proof. reflexivity. Qed.

(** Writing the item table back changes nothing but the rows SQLite could
    not hold. *)
Lemma set_items_tables (w : world) :
  items (set_items w (items w)) = items w.
Proof. apply items_set_items, items_fit. Qed.

Lemma int64_bounds (z : Z) :
  Sqlite.int64 z = true <-> - 2 ^ 63 <= z <= 2 ^ 63 - 1.
Proof.
  unfold Sqlite.int64. rewrite andb_true_iff, Z.leb_le, Z.leb_le. tauto.
Qed.

Lemma row_fits_id (r : ItemModel.t) :
  Sqlite.row_fits r = true -> Sqlite.int64 (ItemModel.id r) = true.
Proof. unfold Sqlite.row_fits. intros H. now apply andb_true_iff in H. Qed.

(** The id of a persisted item fits 64 bits. *)
Lemma persisted_id_fits (w : world) (k : Z) :
  In k (map ItemModel.id (items w)) -> Sqlite.int64 k = true.
Proof.
  intros Hin. apply in_map_iff in Hin. destruct Hin as (r & <- & Hr).
  pose proof (items_fit w) as Hfit. rewrite Forall_forall in Hfit.
  apply row_fits_id. now apply Hfit.
Qed.

Lemma persisted_id_le_max (w : world) (k : Z) :
  In k (map ItemModel.id (items w)) -> k <= Sqlite.max_rowid.
Proof.
  intros Hin. apply persisted_id_fits, int64_bounds in Hin.
  unfold Sqlite.max_rowid. lia.
Qed.

(** ** Facts about floats *)

(** Python's [==] on a positive float is equality of the values. *)
Lemma float_eqb_positive (x y : float) :
  PrimFloat.eqb x y = true -> PrimFloat.ltb 0%float y = true -> x = y.
Proof.
  rewrite FloatAxioms.eqb_spec, ltb_spec. intros He Hl.
  apply Prim2SF_inj.
  change (Prim2SF 0%float) with (S754_zero false) in Hl.
  unfold SFeqb, SFltb in *.
  destruct (Prim2SF x) as [[|]|[|]| |[|] mx ex],
           (Prim2SF y) as [[|]|[|]| |[|] my ey];
    simpl in *; try discriminate; try reflexivity.
  destruct (ex ?= ey)%Z eqn:E; try discriminate.
  apply Z.compare_eq in E. subst ey.
  destruct (Pos.compare_cont Eq mx my) eqn:F; try discriminate.
  apply Pos.compare_eq in F. now subst.
Qed.

(** A positive float is no NaN. *)
Lemma positive_not_nan (x : float) :
  PrimFloat.ltb 0%float x = true -> Backend.is_nan x = false.
Proof.
  unfold Backend.is_nan. rewrite FloatAxioms.eqb_spec, ltb_spec.
  change (Prim2SF 0%float) with (S754_zero false).
  unfold SFeqb, SFltb.
  destruct (Prim2SF x) as [[|]|[|]| |[|] mx ex]; simpl;
    try discriminate; try reflexivity.
  intros _. rewrite Z.compare_refl. now rewrite Pos.compare_cont_refl.
Qed.

Lemma validate_price (p : ItemSchema.t) :
  ItemSchema.validate p = true -> PrimFloat.ltb 0%float (ItemSchema.price p) = true.
Proof. unfold ItemSchema.validate. intros H. now apply andb_true_iff in H. Qed.

Lemma validate_stock (p : ItemSchema.t) :
  ItemSchema.validate p = true -> 0 <= ItemSchema.stock p.
Proof.
  unfold ItemSchema.validate. intros H. apply andb_true_iff in H.
  now apply Z.leb_le.
Qed.

Lemma validate_not_nan (p : ItemSchema.t) :
  ItemSchema.validate p = true -> Backend.is_nan (ItemSchema.price p) = false.
Proof. intros H. now apply positive_not_nan, validate_price. Qed.

(** ** Facts about the backend *)

Section BackendFacts.

Import Backend.

Lemma item_has_id_true (k : Z) (r : ItemModel.t) :
  item_has_id k r = true <-> ItemModel.id r = k.
Proof. unfold item_has_id. apply Z.eqb_eq. Qed.

Lemma item_has_id_false (k : Z) (r : ItemModel.t) :
  item_has_id k r = false <-> ItemModel.id r <> k.
Proof. unfold item_has_id. apply Z.eqb_neq. Qed.

(** No row of the table has the id [k]. *)
Lemma existsb_item_absent (k : Z) (l : list ItemModel.t) :
  existsb (item_has_id k) l = false <-> ~ In k (map ItemModel.id l).
Proof.
  induction l as [|r l IH]; simpl.
  - split; [intros _ [] | reflexivity].
  - rewrite orb_false_iff, IH, item_has_id_false. tauto.
Qed.

Lemma existsb_item_present (k : Z) (l : list ItemModel.t) :
  existsb (item_has_id k) l = true <-> In k (map ItemModel.id l).
Proof.
  induction l as [|r l IH]; simpl.
  - split; [discriminate | intros []].
  - rewrite orb_true_iff, IH, item_has_id_true. tauto.
Qed.

Lemma find_item_absent (k : Z) (l : list ItemModel.t) :
  ~ In k (map ItemModel.id l) -> find (item_has_id k) l = None.
Proof.
  induction l as [|r l IH]; simpl; intros Hn; [reflexivity|].
  destruct (item_has_id k r) eqn:E.
  - apply item_has_id_true in E. tauto.
  - apply IH. tauto.
Qed.

Lemma find_item_present (k : Z) (l : list ItemModel.t) :
  In k (map ItemModel.id l) ->
  exists r, find (item_has_id k) l = Some r /\ In r l /\ ItemModel.id r = k.
Proof.
  induction l as [|r l IH]; simpl; intros Hin; [contradiction|].
  destruct (item_has_id k r) eqn:E.
  - exists r. apply item_has_id_true in E. auto.
  - apply item_has_id_false in E.
    destruct Hin as [Hin|Hin]; [contradiction|].
    destruct (IH Hin) as (r' & Hf & Hr & Hk). exists r'. auto.
Qed.

Lemma find_item_id (k : Z) (l : list ItemModel.t) (r : ItemModel.t) :
  find (item_has_id k) l = Some r -> ItemModel.id r = k /\ In r l.
Proof.
  intros Hf. apply find_some in Hf. destruct Hf as [Hin Hk].
  apply item_has_id_true in Hk. auto.
Qed.

Lemma find_item_none (k : Z) (l : list ItemModel.t) :
  find (item_has_id k) l = None -> ~ In k (map ItemModel.id l).
Proof.
  intros Hf Hin. apply find_item_present in Hin.
  destruct Hin as (r & Hr & _). congruence.
Qed.

(** *** The place of an inserted row *)

Lemma in_insert_row (r x : ItemModel.t) (l : list ItemModel.t) :
  In x (insert_row r l) <-> x = r \/ In x l.
Proof.
  induction l as [|y l IH]; simpl.
  - intuition congruence.
  - destruct (ItemModel.id r <? ItemModel.id y); simpl.
    + intuition congruence.
    + rewrite IH. intuition congruence.
Qed.

Lemma ids_insert_row (r : ItemModel.t) (k : Z) (l : list ItemModel.t) :
  In k (map ItemModel.id (insert_row r l))
  <-> k = ItemModel.id r \/ In k (map ItemModel.id l).
Proof.
  rewrite !in_map_iff. split.
  - intros (x & Hk & Hx). apply in_insert_row in Hx.
    destruct Hx as [->|Hx]; [now left | right; eauto].
  - intros [->|(x & Hk & Hx)].
    + exists r. split; [reflexivity|]. apply in_insert_row. now left.
    + exists x. split; [exact Hk|]. apply in_insert_row. now right.
Qed.

(** The row put in by an [INSERT] is the one a lookup of its id finds. *)
Lemma find_item_inserted (l : list ItemModel.t) (r : ItemModel.t) :
  ~ In (ItemModel.id r) (map ItemModel.id l) ->
  find (item_has_id (ItemModel.id r)) (insert_row r l) = Some r.
Proof.
  induction l as [|x l IH]; simpl; intros Hn.
  - unfold item_has_id. now rewrite Z.eqb_refl.
  - destruct (ItemModel.id r <? ItemModel.id x); simpl.
    + unfold item_has_id at 1. now rewrite Z.eqb_refl.
    + destruct (item_has_id (ItemModel.id r) x) eqn:E.
      * apply item_has_id_true in E. tauto.
      * apply IH. tauto.
Qed.

(** A lookup of another id is not affected by the [INSERT]. *)
Lemma find_other_inserted (j : Z) (l : list ItemModel.t) (r : ItemModel.t) :
  j <> ItemModel.id r ->
  find (item_has_id j) (insert_row r l) = find (item_has_id j) l.
Proof.
  intros Hj.
  assert (Hr : item_has_id j r = false) by (apply item_has_id_false; congruence).
  induction l as [|x l IH]; simpl.
  - now rewrite Hr.
  - destruct (ItemModel.id r <? ItemModel.id x); simpl.
    + now rewrite Hr.
    + now rewrite IH.
Qed.

Lemma insert_row_all (P : ItemModel.t -> Prop) (r : ItemModel.t)
  (l : list ItemModel.t) :
  Forall P l -> P r -> Forall P (insert_row r l).
Proof.
  intros Hl Hr. apply Forall_forall. intros x Hx.
  apply in_insert_row in Hx. destruct Hx as [->|Hx]; [exact Hr|].
  rewrite Forall_forall in Hl. now apply Hl.
Qed.

(** A row whose id is above every id of the table goes last. *)
Lemma insert_row_last (r : ItemModel.t) (l : list ItemModel.t) :
  (forall i, In i (map ItemModel.id l) -> i < ItemModel.id r) ->
  insert_row r l = l ++ [r].
Proof.
  induction l as [|x l IH]; simpl; intros Hlt; [reflexivity|].
  assert (Hx : ItemModel.id x < ItemModel.id r) by (apply Hlt; now left).
  assert (Hb : (ItemModel.id r <? ItemModel.id x) = false)
    by (apply Z.ltb_ge; lia).
  rewrite Hb, IH; [reflexivity|]. intros i Hi. apply Hlt. now right.
Qed.

Lemma ids_distinct_after_insert (r : ItemModel.t) (l : list ItemModel.t) :
  NoDup (map ItemModel.id l) ->
  ~ In (ItemModel.id r) (map ItemModel.id l) ->
  NoDup (map ItemModel.id (insert_row r l)).
Proof.
  induction l as [|x l IH]; simpl; intros Hnd Hn.
  - constructor; [intros [] | constructor].
  - destruct (ItemModel.id r <? ItemModel.id x); simpl.
    + constructor; [exact Hn | exact Hnd].
    + inversion Hnd as [|? ? Hx Hl]; subst. constructor.
      * rewrite ids_insert_row. intros [Heq|Hin]; [|contradiction].
        apply Hn. now left.
      * apply IH; [exact Hl|]. tauto.
Qed.

(** After [DELETE ... WHERE id = k] no row has the id [k]. *)
Lemma deleted_item_absent (k : Z) (l : list ItemModel.t) :
  ~ In k (map ItemModel.id (filter (fun r => negb (item_has_id k r)) l)).
Proof.
  intros Hin. apply in_map_iff in Hin. destruct Hin as (r & Hk & Hr).
  apply filter_In in Hr. destruct Hr as [_ Hr].
  apply negb_true_iff, item_has_id_false in Hr. contradiction.
Qed.

Lemma rows_fit_after_delete (keep : ItemModel.t -> bool) (l : list ItemModel.t) :
  Forall (fun r => Sqlite.row_fits r = true) l ->
  Forall (fun r => Sqlite.row_fits r = true) (filter keep l).
Proof.
  rewrite !Forall_forall. intros Hl r Hr. apply filter_In in Hr. now apply Hl.
Qed.

(** *** Rowids *)

Lemma fold_max_ge_init (i : Z) (l : list Z) : i <= fold_right Z.max i l.
Proof. induction l as [|x l IH]; simpl; lia. Qed.

Lemma fold_max_ge_member (i x : Z) (l : list Z) :
  In x l -> x <= fold_right Z.max i l.
Proof.
  induction l as [|y l IH]; simpl; [contradiction|].
  intros [->|Hin]; [lia | specialize (IH Hin); lia].
Qed.

Lemma fold_max_member (i : Z) (l : list Z) :
  fold_right Z.max i l = i \/ In (fold_right Z.max i l) l.
Proof.
  induction l as [|y l IH]; simpl; [now left|].
  destruct (Z.max_spec y (fold_right Z.max i l)) as [[_ ->]|[_ ->]].
  - destruct IH as [IH|IH]; [now left | now right; right].
  - right. now left.
Qed.

(** Every rowid of the table is below the next one. *)
Lemma next_rowid_above (ids : list Z) (x : Z) :
  In x ids -> x < next_rowid ids.
Proof.
  destruct ids as [|i rest]; simpl; [contradiction|].
  intros [->|Hin].
  - pose proof (fold_max_ge_init x rest). lia.
  - pose proof (fold_max_ge_member i x rest Hin). lia.
Qed.

Lemma next_rowid_fresh (ids : list Z) : ~ In (next_rowid ids) ids.
Proof. intros Hin. apply next_rowid_above in Hin. lia. Qed.

(** The next rowid is 1 or the successor of a rowid of the table. *)
Lemma next_rowid_is_successor (ids : list Z) :
  next_rowid ids = 1 \/ exists i, In i ids /\ next_rowid ids = i + 1.
Proof.
  destruct ids as [|i rest]; simpl; [now left|]. right.
  destruct (fold_max_member i rest) as [->|Hin]; eauto.
Qed.

(** While the rowids are 64-bit values below the largest one, so is the
    next. *)
Lemma next_rowid_fits (ids : list Z) :
  (forall i, In i ids -> Sqlite.int64 i = true) ->
  (forall i, In i ids -> i < Sqlite.max_rowid) ->
  Sqlite.int64 (next_rowid ids) = true.
Proof.
  intros Hfit Hlt. apply int64_bounds.
  destruct (next_rowid_is_successor ids) as [->|(i & Hi & ->)]; [lia|].
  specialize (Hfit i Hi). apply int64_bounds in Hfit.
  specialize (Hlt i Hi). unfold Sqlite.max_rowid in Hlt. lia.
Qed.

Lemma existsb_eqb_absent (k : Z) (ids : list Z) :
  existsb (Z.eqb k) ids = false <-> ~ In k ids.
Proof.
  induction ids as [|i ids IH]; simpl.
  - split; [intros _ [] | reflexivity].
  - rewrite orb_false_iff, IH, Z.eqb_neq. intuition congruence.
Qed.

(** A rowid drawn at random is an unused one between 1 and [2 ^ 62]. *)
Lemma random_rowid_spec (ids : list Z) (tries : nat) (supply rest : list Z)
  (i : Z) :
  random_rowid ids tries supply = Some (i, rest) ->
  ~ In i ids /\ 1 <= i <= 2 ^ 62.
Proof.
  revert supply. induction tries as [|n IH]; intros supply H;
    [discriminate H|].
  destruct supply as [|v supply]; [discriminate H|].
  cbn [random_rowid] in H. cbv zeta in H.
  destruct (existsb (Z.eqb (v mod 2 ^ 62 + 1)) ids) eqn:E.
  - now apply (IH supply).
  - injection H as <- _. split.
    + now apply existsb_eqb_absent.
    + pose proof (Z.mod_pos_bound v (2 ^ 62)). lia.
Qed.

Lemma counting_up (ids : list Z) :
  existsb (fun i => Sqlite.max_rowid <=? i) ids = false
  <-> (forall i, In i ids -> i < Sqlite.max_rowid).
Proof.
  induction ids as [|x ids IH]; simpl.
  - split; [intros _ i [] | reflexivity].
  - rewrite orb_false_iff, IH, Z.leb_gt. split.
    + intros [Hx Hl] i [<-|Hi]; auto.
    + intros H. split; [apply H; now left|]. intros i Hi. apply H. now right.
Qed.

(** The rowid SQLite assigns is unused and fits; it is the next rowid
    while the table counts up. *)
Lemma assign_rowid_spec (ids supply rest : list Z) (i : Z) :
  (forall k, In k ids -> Sqlite.int64 k = true) ->
  assign_rowid ids supply = Some (i, rest) ->
  ~ In i ids /\ Sqlite.int64 i = true
  /\ ((forall k, In k ids -> k < Sqlite.max_rowid) -> i = next_rowid ids).
Proof.
  intros Hfit. unfold assign_rowid.
  destruct (existsb (fun k => Sqlite.max_rowid <=? k) ids) eqn:E.
  - intros H. apply random_rowid_spec in H. destruct H as [Hfresh Hr].
    split; [exact Hfresh|]. split; [apply int64_bounds; lia|].
    intros Hup. pose proof (proj2 (counting_up ids) Hup) as Hup'. congruence.
  - intros H. injection H as <- _.
    pose proof (proj1 (counting_up ids) E) as Hup.
    split; [apply next_rowid_fresh|].
    split; [now apply next_rowid_fits|]. reflexivity.
Qed.

Lemma assign_rowid_counting (ids supply : list Z) :
  (forall k, In k ids -> k < Sqlite.max_rowid) ->
  assign_rowid ids supply = Some (next_rowid ids, supply).
Proof.
  intros Hup. unfold assign_rowid.
  now rewrite (proj2 (counting_up ids) Hup).
Qed.

(** *** Round trips *)

(** A statement on a healthy backend runs and leaves the store alone. *)
Lemma dbapi_healthy (w : world) : faults w = [] -> dbapi w = (Ok tt, w).
Proof. unfold dbapi. intros ->. reflexivity. Qed.

(** A round trip never touches the tables, the salts or the rowid
    supply. *)
Lemma dbapi_tables (w : world) :
  items (snd (dbapi w)) = items w /\ users (snd (dbapi w)) = users w
  /\ salts (snd (dbapi w)) = salts w.
Proof. unfold dbapi. destruct (faults w) as [|[msg|] fs]; simpl; auto. Qed.

Lemma sqlite_int_fits (z : Z) (w : world) :
  Sqlite.int64 z = true -> sqlite_int z w = (Ok tt, w).
Proof. unfold sqlite_int. now intros ->. Qed.

Lemma sqlite_int_overflow (z : Z) (w : world) :
  Sqlite.int64 z = false ->
  sqlite_int z w
  = (Raise (sqlite3_pkg, 0%nat)
       (OverflowError "Python int too large to convert to SQLite INTEGER"), w).
Proof. unfold sqlite_int. now intros ->. Qed.

End BackendFacts.

(** ** Rules for specifications *)

Section HoareRules.

Lemma hoare_ret {A} (a : A) (Q : A -> world -> Prop) E :
  hoare (Q a) (ret a) Q E.
Proof. intros w Hw. exact Hw. Qed.

Lemma hoare_raise {A} l e (Q : A -> world -> Prop) (E : loc -> exn -> world -> Prop) :
  hoare (E l e) (raise_at l e) Q E.
Proof. intros w Hw. exact Hw. Qed.

Lemma hoare_bind {A B} (P : world -> Prop) (m : M A) (R : A -> world -> Prop)
  (k : A -> M B) (Q : B -> world -> Prop) E :
  hoare P m R E ->
  (forall a, hoare (R a) (k a) Q E) ->
  hoare P (bind m k) Q E.
Proof.
  intros Hm Hk w Hw. unfold bind. specialize (Hm w Hw).
  destruct (m w) as [[a|l e] w1]; [|exact Hm].
  apply (Hk a w1 Hm).
Qed.

(** [try ... except SQLAlchemyError]: the handler runs on a
    [SQLAlchemyError]; any other exception leaves the block as it is. *)
Lemma hoare_try {A} (P : world -> Prop) (m : M A) (h : string -> M A)
  (Q : A -> world -> Prop) (E' E : loc -> exn -> world -> Prop) :
  hoare P m Q E' ->
  (forall l c d w, E' l (HTTPException c d) w -> E l (HTTPException c d) w) ->
  (forall l msg w, E' l (OverflowError msg) w -> E l (OverflowError msg) w) ->
  (forall l msg, hoare (E' l (SQLAlchemyError msg)) (h msg) Q E) ->
  hoare P (try_except_SQLAlchemyError m h) Q E.
Proof.
  intros Hm Hhttp Hover Hh w Hw. unfold try_except_SQLAlchemyError.
  specialize (Hm w Hw).
  destruct (m w) as [[a|l [c d|msg|msg]] w1].
  - exact Hm.
  - now apply Hhttp.
  - apply (Hh l msg w1 Hm).
  - now apply Hover.
Qed.

Lemma hoare_consequence {A} (P P' : world -> Prop) (m : M A)
  (Q Q' : A -> world -> Prop) (E E' : loc -> exn -> world -> Prop) :
  hoare P' m Q' E' ->
  (forall w, P w -> P' w) ->
  (forall a w, Q' a w -> Q a w) ->
  (forall l e w, E' l e w -> E l e w) ->
  hoare P m Q E.
Proof.
  intros Hm HP HQ HE w Hw. specialize (Hm w (HP w Hw)).
  destruct (m w) as [[a|l e] w1]; auto.
Qed.

(** The driver's check of an integer parameter: it changes nothing, and
    what follows it runs only when the integer fits. *)
Lemma hoare_sqlite_int {A} (z : Z) (P : world -> Prop) (k : M A)
  (Q : A -> world -> Prop) (E : loc -> exn -> world -> Prop) :
  (Sqlite.int64 z = true -> hoare P k Q E) ->
  (forall w, P w -> Sqlite.int64 z = false ->
     E (sqlite3_pkg, 0%nat)
       (OverflowError "Python int too large to convert to SQLite INTEGER") w) ->
  hoare P (bind (Backend.sqlite_int z) (fun _ => k)) Q E.
Proof.
  intros Hk Hover w Hw. unfold bind, Backend.sqlite_int.
  destruct (Sqlite.int64 z) eqn:Ez.
  - apply (Hk eq_refl w Hw).
  - now apply Hover.
Qed.

Variable I : list ItemModel.t -> Prop.

Lemma keeps_ret {A} (a : A) : keeps I (ret a).
Proof. intros w Hw. exact Hw. Qed.

Lemma keeps_raise {A} l e : keeps I (@raise_at A l e).
Proof. intros w Hw. exact Hw. Qed.

Lemma keeps_bind {A B} (m : M A) (k : A -> M B) :
  keeps I m -> (forall a, keeps I (k a)) -> keeps I (bind m k).
Proof.
  intros Hm Hk. unfold keeps in *.
  eapply hoare_bind; [exact Hm | exact Hk].
Qed.

Lemma keeps_try {A} (m : M A) (h : string -> M A) :
  keeps I m -> (forall msg, keeps I (h msg)) ->
  keeps I (try_except_SQLAlchemyError m h).
Proof.
  intros Hm Hh. unfold keeps in *.
  eapply hoare_try; [exact Hm | | | ].
  - auto.
  - auto.
  - intros l msg. apply Hh.
Qed.

Lemma keeps_dbapi : keeps I Backend.dbapi.
Proof.
  intros w Hw. pose proof (dbapi_tables w) as [Hi _].
  destruct (Backend.dbapi w) as [[[]|l e] w1]; simpl in Hi; now rewrite Hi.
Qed.

Lemma keeps_sqlite_int (z : Z) : keeps I (Backend.sqlite_int z).
Proof.
  intros w Hw. unfold Backend.sqlite_int.
  destruct (Sqlite.int64 z); exact Hw.
Qed.

(** A statement that reads the store after a round trip and decides on
    what it read. *)
Lemma keeps_dbapi_then {A} (k : world -> M A) :
  (forall w, I (items w) ->
     match k w w with
     | (_, w') => I (items w')
     end) ->
  keeps I (bind Backend.dbapi (fun _ => bind get_world k)).
Proof.
  intros Hk. apply keeps_bind; [apply keeps_dbapi|]. intros _ w Hw.
  unfold bind, get_world. specialize (Hk w Hw).
  destruct (k w w) as [[a|l e] w1]; exact Hk.
Qed.

Lemma keeps_engine_begin {A} (body : M A) :
  keeps I body -> keeps I (Backend.engine_begin body).
Proof. intros Hb. exact Hb. Qed.

Lemma keeps_for_each {A} (xs : list A) (body : A -> M unit) :
  (forall x, keeps I (body x)) -> keeps I (Backend.for_each xs body).
Proof.
  intros Hb. induction xs as [|x xs IH]; simpl.
  - apply keeps_ret.
  - apply keeps_bind; [apply Hb | intros _; exact IH].
Qed.

Lemma keeps_discard {A} (m : M A) : keeps I m -> keeps I (Store.discard m).
Proof.
  intros Hm. unfold Store.discard.
  apply keeps_bind; [exact Hm | intros a; apply keeps_ret].
Qed.

End HoareRules.

(** ** Running the coroutines on a healthy backend *)

Lemma bind_ok {A B} (m : M A) (k : A -> M B) (w0 w1 : world) (a : A) :
  m w0 = (Ok a, w1) -> bind m k w0 = k a w1.
Proof. unfold bind. now intros ->. Qed.

Lemma bind_raise {A B} (m : M A) (k : A -> M B) (w0 w1 : world) l e :
  m w0 = (Raise l e, w1) -> bind m k w0 = (Raise l e, w1).
Proof. unfold bind. now intros ->. Qed.

Arguments bind_ok {A B m} k {w0 w1 a} _.
Arguments bind_raise {A B m} k {w0 w1 l e} _.

Lemma try_except_ok {A} (m : M A) (h : string -> M A) (w0 w1 : world) (a : A) :
  m w0 = (Ok a, w1) -> try_except_SQLAlchemyError m h w0 = (Ok a, w1).
Proof. unfold try_except_SQLAlchemyError. now intros ->. Qed.

Lemma try_except_caught {A} (m : M A) (h : string -> M A) (w0 w1 : world) l msg :
  m w0 = (Raise l (SQLAlchemyError msg), w1) ->
  try_except_SQLAlchemyError m h w0 = h msg w1.
Proof. unfold try_except_SQLAlchemyError. now intros ->. Qed.

Lemma try_except_http {A} (m : M A) (h : string -> M A) (w0 w1 : world) l c d :
  m w0 = (Raise l (HTTPException c d), w1) ->
  try_except_SQLAlchemyError m h w0 = (Raise l (HTTPException c d), w1).
Proof. unfold try_except_SQLAlchemyError. now intros ->. Qed.

Lemma try_except_overflow {A} (m : M A) (h : string -> M A) (w0 w1 : world) l msg :
  m w0 = (Raise l (OverflowError msg), w1) ->
  try_except_SQLAlchemyError m h w0 = (Raise l (OverflowError msg), w1).
Proof. unfold try_except_SQLAlchemyError. now intros ->. Qed.

Arguments try_except_ok {A m} h {w0 w1 a} _.
Arguments try_except_caught {A m} h {w0 w1 l msg} _.
Arguments try_except_http {A m} h {w0 w1 l c d} _.
Arguments try_except_overflow {A m} h {w0 w1 l msg} _.

Lemma payload_fits_stock (kw : ItemSchema.t) :
  payload_fits kw = true -> Sqlite.int64 (ItemSchema.stock kw) = true.
Proof. unfold payload_fits. intros H. now apply andb_true_iff in H. Qed.

Lemma payload_fits_id (kw : ItemSchema.t) (i : Z) :
  payload_fits kw = true -> ItemSchema.id kw = Some i -> Sqlite.int64 i = true.
Proof.
  unfold payload_fits. intros H Hi. rewrite Hi in H.
  now apply andb_true_iff in H.
Qed.

(** The row of a payload that fits, under a key that fits, is one SQLite
    holds. *)
Lemma new_item_fits (i : Z) (kw : ItemSchema.t) :
  Sqlite.int64 i = true -> Sqlite.int64 (ItemSchema.stock kw) = true ->
  Sqlite.row_fits (Backend.new_item i kw) = true.
Proof. intros Hi Hs. unfold Sqlite.row_fits. simpl. now rewrite Hi, Hs. Qed.

(** The key of the [INSERT] fits, for a payload that fits and a table that
    counts up. *)
Lemma requested_id_fits (w : world) (kw : ItemSchema.t) :
  payload_fits kw = true ->
  (ItemSchema.id kw = None -> counts_up (items w)) ->
  Sqlite.int64 (Backend.requested_id kw (items w)) = true.
Proof.
  intros Hfit Hup. unfold Backend.requested_id.
  destruct (ItemSchema.id kw) as [i|] eqn:E.
  - now apply (payload_fits_id kw).
  - apply next_rowid_fits; [apply persisted_id_fits | now apply Hup].
Qed.

Lemma items_after_insert (w : world) (r : ItemModel.t) :
  Sqlite.row_fits r = true ->
  items (set_items w (Backend.insert_row r (items w)))
  = Backend.insert_row r (items w).
Proof.
  intros Hr. apply items_set_items.
  apply insert_row_all; [apply items_fit | exact Hr].
Qed.

Section Healthy.

Import Backend.

Variable w : world.
Hypothesis healthy : faults w = [].

Lemma select_item_first_healthy (item_id : Z) :
  Sqlite.int64 item_id = true ->
  select_item_first item_id w = (Ok (find (item_has_id item_id) (items w)), w).
Proof.
  intros Hfit. unfold select_item_first.
  rewrite (bind_ok _ (sqlite_int_fits item_id w Hfit)).
  rewrite (bind_ok _ (dbapi_healthy w healthy)). reflexivity.
Qed.

Lemma select_items_all_healthy : select_items_all w = (Ok (items w), w).
Proof.
  unfold select_items_all.
  rewrite (bind_ok _ (dbapi_healthy w healthy)). reflexivity.
Qed.

Lemma insert_item_healthy (kw : ItemSchema.t) :
  payload_fits kw = true ->
  is_nan (ItemSchema.price kw) = false ->
  (ItemSchema.id kw = None -> counts_up (items w)) ->
  ~ In (requested_id kw (items w)) (map ItemModel.id (items w)) ->
  insert_item kw w
  = (Ok (inserted_item kw (items w)),
     set_items w (insert_row (inserted_item kw (items w)) (items w))).
Proof.
  intros Hfit Hnan Hup Hfresh. unfold insert_item.
  assert (Hid : (match ItemSchema.id kw with
                 | Some i => sqlite_int i
                 | None => ret tt
                 end) w = (Ok tt, w)).
  { destruct (ItemSchema.id kw) as [i|] eqn:E; [|reflexivity].
    apply sqlite_int_fits. now apply (payload_fits_id kw). }
  rewrite (bind_ok _ Hid).
  rewrite (bind_ok _ (sqlite_int_fits _ w (payload_fits_stock kw Hfit))).
  rewrite (bind_ok _ (dbapi_healthy w healthy)).
  unfold bind at 1, get_world. rewrite Hnan.
  unfold inserted_item, requested_id in *.
  destruct (ItemSchema.id kw) as [i|] eqn:E.
  - apply existsb_item_absent in Hfresh. rewrite Hfresh. reflexivity.
  - rewrite (assign_rowid_counting _ (rowids w) (Hup eq_refl)). reflexivity.
Qed.

Lemma insert_item_duplicate (kw : ItemSchema.t) (i : Z) :
  ItemSchema.id kw = Some i ->
  In i (map ItemModel.id (items w)) ->
  Sqlite.int64 (ItemSchema.stock kw) = true ->
  is_nan (ItemSchema.price kw) = false ->
  insert_item kw w
  = (Raise (sqlalchemy_pkg, 0%nat)
       (SQLAlchemyError "(sqlite3.IntegrityError) UNIQUE constraint failed: items.id"),
     w).
Proof.
  intros Hi Hdup Hs Hnan. unfold insert_item. rewrite Hi.
  rewrite (bind_ok _ (sqlite_int_fits i w (persisted_id_fits w i Hdup))).
  rewrite (bind_ok _ (sqlite_int_fits _ w Hs)).
  rewrite (bind_ok _ (dbapi_healthy w healthy)).
  unfold bind at 1, get_world. rewrite Hnan.
  apply existsb_item_present in Hdup. rewrite Hdup. reflexivity.
Qed.

Lemma delete_item_row_healthy (db_item : ItemModel.t) :
  delete_item_row db_item w
  = (Ok tt,
     set_items w
       (filter (fun r => negb (item_has_id (ItemModel.id db_item) r)) (items w))).
Proof.
  unfold delete_item_row.
  rewrite (bind_ok _ (dbapi_healthy w healthy)). reflexivity.
Qed.

(** [Database.get_item] on a healthy backend, for an id that fits. *)
Lemma get_item_healthy (item_id : Z) :
  Sqlite.int64 item_id = true ->
  Database.get_item item_id w
  = match find (item_has_id item_id) (items w) with
    | Some it => (Ok (Some it), w)
    | None =>
        (Raise (database_py, 83%nat) (HTTPException 404 "Item not found"), w)
    end.
Proof.
  intros Hfit. unfold Database.get_item.
  rewrite (bind_ok _ (select_item_first_healthy item_id Hfit)).
  now destruct (find (item_has_id item_id) (items w)).
Qed.

End Healthy.

(** A lookup of an id beyond 64 bits ends in the driver, whatever the
    store and the faults. *)
Lemma select_item_first_overflow (w : world) (item_id : Z) :
  Sqlite.int64 item_id = false ->
  Backend.select_item_first item_id w
  = (Raise (sqlite3_pkg, 0%nat)
       (OverflowError "Python int too large to convert to SQLite INTEGER"), w).
Proof.
  intros Hbig. unfold Backend.select_item_first.
  now rewrite (bind_raise _ (sqlite_int_overflow item_id w Hbig)).
Qed.

(** ** Items: create, read, update, delete *)

(** [Database.create_item] on a healthy backend, for a payload that fits
    and whose key is unused: the flushed row is put into the table and
    returned. *)
Lemma create_item_healthy (w : world) (item : ItemSchema.t) :
  faults w = [] ->
  payload_fits item = true ->
  Backend.is_nan (ItemSchema.price item) = false ->
  (ItemSchema.id item = None -> counts_up (items w)) ->
  ~ In (Backend.requested_id item (items w)) (map ItemModel.id (items w)) ->
  Database.create_item item w
  = (Ok (Backend.inserted_item item (items w)),
     set_items w
       (Backend.insert_row (Backend.inserted_item item (items w)) (items w))).
Proof.
  intros Hf Hfit Hnan Hup Hfresh. unfold Database.create_item.
  apply try_except_ok.
  rewrite (bind_ok _ (insert_item_healthy w Hf item Hfit Hnan Hup Hfresh)).
  unfold Backend.refresh_item.
  pose proof (requested_id_fits w item Hfit Hup) as Hkey.
  rewrite (bind_ok _ (select_item_first_healthy (set_items w _) Hf _ Hkey)).
  rewrite items_after_insert
    by (apply new_item_fits; [exact Hkey | now apply payload_fits_stock]).
  change (Backend.requested_id item (items w))
    with (ItemModel.id (Backend.inserted_item item (items w))) in Hfresh |- *.
  now rewrite (find_item_inserted _ _ Hfresh).
Qed.

(** [Database.create_item] on a healthy backend, when the payload names the
    id of a persisted row: the [IntegrityError] becomes a 500 and nothing is
    written. *)
Lemma create_item_duplicate (w : world) (item : ItemSchema.t) (i : Z) :
  faults w = [] ->
  ItemSchema.id item = Some i ->
  In i (map ItemModel.id (items w)) ->
  Sqlite.int64 (ItemSchema.stock item) = true ->
  Backend.is_nan (ItemSchema.price item) = false ->
  Database.create_item item w
  = (Raise (database_py, 73%nat)
       (HTTPException 500
          "Error creating item: (sqlite3.IntegrityError) UNIQUE constraint failed: items.id"),
     w).
Proof.
  intros Hf Hi Hdup Hs Hnan. unfold Database.create_item.
  rewrite (try_except_caught _
             (bind_raise _ (insert_item_duplicate w Hf item i Hi Hdup Hs Hnan))).
  reflexivity.
Qed.

(** The requested id is unused when the payload carries no id, or an id no
    persisted row has. *)
Lemma requested_id_fresh (item : ItemSchema.t) (l : list ItemModel.t) :
  (forall i, ItemSchema.id item = Some i -> ~ In i (map ItemModel.id l)) ->
  ~ In (Backend.requested_id item l) (map ItemModel.id l).
Proof.
  intros Hid. unfold Backend.requested_id.
  destruct (ItemSchema.id item) as [i|].
  - now apply Hid.
  - apply next_rowid_fresh.
Qed.




(** *** What an [UPDATE] does to the rows *)

Section UpdateFacts.

Import Backend.

Lemma option_string_eqb_eq (a b : option string) :
  option_string_eqb a b = true <-> a = b.
Proof.
  destruct a as [x|], b as [y|]; simpl; try (split; [discriminate|discriminate]).
  - rewrite String.eqb_eq. split; [now intros -> | now intros [= ->]].
  - tauto.
Qed.

Lemma ids_update_rows (loaded item : ItemModel.t) (l : list ItemModel.t) :
  map ItemModel.id (update_rows loaded item l) = map ItemModel.id l.
Proof.
  unfold update_rows. rewrite map_map. apply map_ext. intros r.
  now destruct (item_has_id (ItemModel.id loaded) r).
Qed.

(** After the [UPDATE] a lookup of the id finds the first row of that id,
    with the changes written. *)
Lemma find_item_updated (loaded item : ItemModel.t) (l : list ItemModel.t) :
  find (item_has_id (ItemModel.id loaded)) (update_rows loaded item l)
  = option_map (write_changes loaded item)
      (find (item_has_id (ItemModel.id loaded)) l).
Proof.
  unfold update_rows. induction l as [|x l IH]; simpl; [reflexivity|].
  destruct (item_has_id (ItemModel.id loaded) x) eqn:E.
  - assert (Hw : item_has_id (ItemModel.id loaded) (write_changes loaded item x)
                 = true) by exact E.
    now rewrite Hw.
  - now rewrite E.
Qed.

(** A lookup of another id is not affected by the [UPDATE]. *)
Lemma find_other_updated (j : Z) (loaded item : ItemModel.t)
  (l : list ItemModel.t) :
  j <> ItemModel.id loaded ->
  find (item_has_id j) (update_rows loaded item l) = find (item_has_id j) l.
Proof.
  intros Hj. unfold update_rows. induction l as [|x l IH]; simpl; [reflexivity|].
  destruct (item_has_id (ItemModel.id loaded) x) eqn:E.
  - apply item_has_id_true in E.
    assert (Hx : item_has_id j x = false)
      by (apply item_has_id_false; congruence).
    assert (Hw : item_has_id j (write_changes loaded item x) = false) by exact Hx.
    now rewrite Hw, Hx.
  - now rewrite IH.
Qed.

Lemma rows_fit_after_update (loaded item : ItemModel.t) (l : list ItemModel.t) :
  (stock_changed loaded item = true -> Sqlite.int64 (ItemModel.stock item) = true) ->
  Forall (fun r => Sqlite.row_fits r = true) l ->
  Forall (fun r => Sqlite.row_fits r = true) (update_rows loaded item l).
Proof.
  intros Hs Hl. unfold update_rows. apply Forall_map.
  eapply Forall_impl; [|exact Hl]. intros r Hr. simpl.
  destruct (item_has_id (ItemModel.id loaded) r); [|exact Hr].
  unfold Sqlite.row_fits in *. apply andb_true_iff in Hr. destruct Hr as [Hi Hk].
  unfold write_changes. simpl. rewrite Hi. simpl.
  destruct (stock_changed loaded item); [now apply Hs | exact Hk].
Qed.

(** Written onto the loaded row itself, the changes give the object the
    assignments made, provided an unchanged price is the same price. *)
Lemma write_changes_loaded (loaded item : ItemModel.t) :
  ItemModel.id item = ItemModel.id loaded ->
  (price_changed loaded item = false -> ItemModel.price loaded = ItemModel.price item) ->
  write_changes loaded item loaded = item.
Proof.
  intros Hid Hp. destruct loaded as [i0 n0 p0 d0 s0 c0], item as [i1 n1 p1 d1 s1 c1].
  simpl in Hid. subst i1.
  unfold write_changes, name_changed, price_changed, description_changed,
    stock_changed, category_changed in *. simpl in *.
  f_equal.
  - destruct (String.eqb n0 n1) eqn:E; simpl; [|reflexivity].
    now apply String.eqb_eq.
  - destruct (PrimFloat.eqb p0 p1) eqn:E; simpl; [|reflexivity].
    now apply Hp.
  - destruct (option_string_eqb d0 d1) eqn:E; simpl; [|reflexivity].
    now apply option_string_eqb_eq.
  - destruct (s0 =? s1) eqn:E; simpl; [|reflexivity].
    now apply Z.eqb_eq.
  - destruct (option_string_eqb c0 c1) eqn:E; simpl; [|reflexivity].
    now apply option_string_eqb_eq.
Qed.

(** When no attribute changed, the object is the loaded row, provided an
    unchanged price is the same price. *)
Lemma unmodified_same (loaded item : ItemModel.t) :
  ItemModel.id item = ItemModel.id loaded ->
  (price_changed loaded item = false -> ItemModel.price loaded = ItemModel.price item) ->
  modified loaded item = false ->
  loaded = item.
Proof.
  intros Hid Hp Hm. unfold modified in Hm.
  repeat (apply orb_false_iff in Hm; destruct Hm as [Hm ?]).
  transitivity (write_changes loaded item loaded);
    [|now apply write_changes_loaded].
  unfold write_changes.
  repeat match goal with
         | H : ?c = false |- context [if ?c then _ else _] => rewrite H
         end.
  now destruct loaded.
Qed.

(** Once the changes are written, assigning the same values again changes
    nothing. *)
Lemma write_changes_settles (loaded item : ItemModel.t) :
  is_nan (ItemModel.price item) = false ->
  modified (write_changes loaded item loaded) item = false.
Proof.
  intros Hnan. unfold is_nan in Hnan. apply negb_false_iff in Hnan.
  destruct loaded as [i0 n0 p0 d0 s0 c0], item as [i1 n1 p1 d1 s1 c1].
  unfold modified, write_changes, name_changed, price_changed,
    description_changed, stock_changed, category_changed in *. simpl in *.
  assert (Hn : String.eqb (if negb (String.eqb n0 n1) then n1 else n0) n1 = true).
  { destruct (String.eqb n0 n1) eqn:E; simpl; [exact E | apply String.eqb_refl]. }
  assert (Hp : PrimFloat.eqb (if negb (PrimFloat.eqb p0 p1) then p1 else p0) p1 = true).
  { destruct (PrimFloat.eqb p0 p1) eqn:E; simpl; [exact E | exact Hnan]. }
  assert (Hd : option_string_eqb
                 (if negb (option_string_eqb d0 d1) then d1 else d0) d1 = true).
  { destruct (option_string_eqb d0 d1) eqn:E; simpl;
      [exact E | now apply option_string_eqb_eq]. }
  assert (Hs : ((if negb (s0 =? s1) then s1 else s0) =? s1) = true).
  { destruct (s0 =? s1) eqn:E; simpl; [exact E | apply Z.eqb_refl]. }
  assert (Hc : option_string_eqb
                 (if negb (option_string_eqb c0 c1) then c1 else c0) c1 = true).
  { destruct (option_string_eqb c0 c1) eqn:E; simpl;
      [exact E | now apply option_string_eqb_eq]. }
  now rewrite Hn, Hp, Hd, Hs, Hc.
Qed.

End UpdateFacts.

(** [Database.update_item] on a healthy backend, for an id that fits. *)
Lemma update_item_healthy (w : world) (item_id : Z) (item_data : ItemSchema.t) :
  faults w = [] ->
  Sqlite.int64 item_id = true ->
  Database.update_item item_id item_data w
  = match find (Backend.item_has_id item_id) (items w) with
    | None =>
        (Raise (database_py, 101%nat) (HTTPException 404 "Item not found"), w)
    | Some item0 =>
        let item1 := Database.assign_fields item0 item_data in
        if Backend.modified item0 item1 then
          if Backend.stock_changed item0 item1
             && negb (Sqlite.int64 (ItemModel.stock item1))
          then
            (Raise (sqlite3_pkg, 0%nat)
               (OverflowError "Python int too large to convert to SQLite INTEGER"),
             w)
          else if Backend.is_nan (ItemModel.price item1) then
            (Raise (sqlalchemy_pkg, 0%nat)
               (SQLAlchemyError
                  "(sqlite3.IntegrityError) NOT NULL constraint failed: items.price"),
             w)
          else
            (Ok (Some item1),
             set_items w (Backend.update_rows item0 item1 (items w)))
        else (Ok (Some item1), w)
    end.
Proof.
  intros Hf Hfit. unfold Database.update_item, Database.get_item_by_id.
  rewrite (bind_ok _ (select_item_first_healthy w Hf item_id Hfit)).
  destruct (find (Backend.item_has_id item_id) (items w)) as [item0|] eqn:E;
    [|reflexivity].
  apply find_item_id in E. destruct E as [Hid Hin]. cbv zeta.
  set (item1 := Database.assign_fields item0 item_data).
  unfold Backend.update_item_row.
  destruct (Backend.modified item0 item1); [|reflexivity].
  assert (Hpresent : existsb (Backend.item_has_id (ItemModel.id item0)) (items w)
                     = true).
  { apply existsb_item_present. now apply in_map. }
  destruct (Backend.stock_changed item0 item1).
  - destruct (Sqlite.int64 (ItemModel.stock item1)) eqn:Es; simpl.
    + unfold bind at 1.
      rewrite (bind_ok _ (sqlite_int_fits _ w Es)).
      rewrite (bind_ok _ (dbapi_healthy w Hf)).
      unfold bind, get_world.
      change (ItemModel.price item1) with (ItemSchema.price item_data).
      destruct (Backend.is_nan (ItemSchema.price item_data)); [reflexivity|].
      now rewrite Hpresent.
    + unfold bind at 1.
      now rewrite (bind_raise _ (sqlite_int_overflow _ w Es)).
  - simpl. unfold bind at 1. unfold bind at 1. unfold ret at 1.
    rewrite (bind_ok _ (dbapi_healthy w Hf)).
    unfold bind, get_world.
    change (ItemModel.price item1) with (ItemSchema.price item_data).
    destruct (Backend.is_nan (ItemSchema.price item_data)); [reflexivity|].
    now rewrite Hpresent.
Qed.

(** [update_item] and [delete_item] of an id beyond 64 bits end in the
    driver, whatever the store and the faults. *)
Lemma update_item_overflow (w : world) (item_id : Z) (item_data : ItemSchema.t) :
  Sqlite.int64 item_id = false ->
  Database.update_item item_id item_data w
  = (Raise (sqlite3_pkg, 0%nat)
       (OverflowError "Python int too large to convert to SQLite INTEGER"), w).
Proof.
  intros Hbig. unfold Database.update_item, Database.get_item_by_id.
  now rewrite (bind_raise _ (select_item_first_overflow w item_id Hbig)).
Qed.

Lemma get_item_overflow (w : world) (item_id : Z) :
  Sqlite.int64 item_id = false ->
  Database.get_item item_id w
  = (Raise (sqlite3_pkg, 0%nat)
       (OverflowError "Python int too large to convert to SQLite INTEGER"), w).
Proof.
  intros Hbig. unfold Database.get_item.
  now rewrite (bind_raise _ (select_item_first_overflow w item_id Hbig)).
Qed.

Lemma delete_item_overflow (w : world) (item_id : Z) :
  Sqlite.int64 item_id = false ->
  Database.delete_item item_id w
  = (Raise (sqlite3_pkg, 0%nat)
       (OverflowError "Python int too large to convert to SQLite INTEGER"), w).
Proof.
  intros Hbig. unfold Database.delete_item.
  now rewrite (bind_raise _ (get_item_overflow w item_id Hbig)).
Qed.

(** [Database.delete_item] on a healthy backend, for an id that fits. *)
Lemma delete_item_healthy (w : world) (item_id : Z) :
  faults w = [] ->
  Sqlite.int64 item_id = true ->
  Database.delete_item item_id w
  = match find (Backend.item_has_id item_id) (items w) with
    | None =>
        (Raise (database_py, 83%nat) (HTTPException 404 "Item not found"), w)
    | Some it =>
        (Ok (Some it),
         set_items w
           (filter (fun r => negb (Backend.item_has_id item_id r)) (items w)))
    end.
Proof.
  intros Hf Hfit. unfold Database.delete_item. unfold bind at 1.
  rewrite get_item_healthy by assumption.
  destruct (find (Backend.item_has_id item_id) (items w)) as [it|] eqn:E.
  - apply find_item_id in E. destruct E as [Hid _].
    rewrite (bind_ok _ (delete_item_row_healthy w Hf it)). now rewrite Hid.
  - reflexivity.
Qed.

Lemma items_after_delete (w : world) (keep : ItemModel.t -> bool) :
  items (set_items w (filter keep (items w))) = filter keep (items w).
Proof. apply items_set_items, rows_fit_after_delete, items_fit. Qed.

(** A second [delete_item] of the same id on a healthy backend. *)
Lemma delete_item_twice (w : world) (item_id : Z) :
  faults w = [] ->
  Sqlite.int64 item_id = true ->
  let w1 := snd (Database.delete_item item_id w) in
  faults w1 = []
  /\ Database.delete_item item_id w1
     = (Raise (database_py, 83%nat) (HTTPException 404 "Item not found"), w1).
Proof.
  intros Hf Hfit. cbv zeta. rewrite (delete_item_healthy w item_id Hf Hfit).
  destruct (find (Backend.item_has_id item_id) (items w)) as [it|] eqn:E;
    cbn [snd].
  - split; [exact Hf|].
    rewrite delete_item_healthy by assumption.
    rewrite items_after_delete.
    now rewrite (find_item_absent _ _ (deleted_item_absent item_id (items w))).
  - split; [exact Hf|].
    rewrite delete_item_healthy by assumption. now rewrite E.
Qed.

(** The route handlers pass the Store's exceptions on. *)
Lemma app_update_item_raise (w w' : world) item_id item l e :
  Database.update_item item_id item w = (Raise l e, w') ->
  App.update_item item_id item w = (Raise l e, w').
Proof. intros H. unfold App.update_item. now rewrite (bind_raise _ H). Qed.

Lemma app_delete_item_raise (w w' : world) item_id l e :
  Database.delete_item item_id w = (Raise l e, w') ->
  App.delete_item item_id w = (Raise l e, w').
Proof. intros H. unfold App.delete_item. now rewrite (bind_raise _ H). Qed.

(** C2 (as amended).  On a healthy backend, for every id within the signed
    64-bit range that no persisted row has, [update_item] raises the 404
    "Item not found" and so does [delete_item], in the Store and through
    the PUT and DELETE routes, leaving the store as it was; and whatever the
    first [delete_item] of such an id did, a second [delete_item] of the
    same id raises the 404. *)
Theorem missing_item_not_found (w : world) (item_id : Z) (item_data : ItemSchema.t) :
  faults w = [] ->
  Sqlite.int64 item_id = true ->
  (~ In item_id (map ItemModel.id (items w)) ->
   Database.update_item item_id item_data w
   = (Raise (database_py, 101%nat) (HTTPException 404 "Item not found"), w)
   /\ Database.delete_item item_id w
      = (Raise (database_py, 83%nat) (HTTPException 404 "Item not found"), w)
   /\ App.update_item item_id item_data w
      = (Raise (database_py, 101%nat) (HTTPException 404 "Item not found"), w)
   /\ App.delete_item item_id w
      = (Raise (database_py, 83%nat) (HTTPException 404 "Item not found"), w)
   /\ Fastapi.http_status 200 (fst (App.update_item item_id item_data w)) = 404
   /\ Fastapi.http_status 204 (fst (App.delete_item item_id w)) = 404)
  /\ (let w1 := snd (Database.delete_item item_id w) in
      Database.delete_item item_id w1
      = (Raise (database_py, 83%nat) (HTTPException 404 "Item not found"), w1))
  /\ (let w1 := snd (App.delete_item item_id w) in
      App.delete_item item_id w1
      = (Raise (database_py, 83%nat) (HTTPException 404 "Item not found"), w1)).
Proof.
  intros Hf Hfit. split; [intros Habs | split].
  - pose proof (find_item_absent _ _ Habs) as Hnone.
    assert (Hu : Database.update_item item_id item_data w
                 = (Raise (database_py, 101%nat)
                      (HTTPException 404 "Item not found"), w)).
    { rewrite update_item_healthy by assumption. now rewrite Hnone. }
    assert (Hd : Database.delete_item item_id w
                 = (Raise (database_py, 83%nat)
                      (HTTPException 404 "Item not found"), w)).
    { rewrite delete_item_healthy by assumption. now rewrite Hnone. }
    rewrite (app_update_item_raise _ _ _ _ _ _ Hu), (app_delete_item_raise _ _ _ _ _ Hd), Hu, Hd.
    repeat split.
  - apply (delete_item_twice w item_id Hf Hfit).
  - assert (Hsnd : snd (App.delete_item item_id w)
                   = snd (Database.delete_item item_id w)).
    { unfold App.delete_item, bind.
      now destruct (Database.delete_item item_id w) as [[[it|]|l e] w1]. }
    cbv zeta. rewrite Hsnd.
    apply app_delete_item_raise. apply (delete_item_twice w item_id Hf Hfit).
Qed.

Lemma missing_item_not_found_witness :
  Database.update_item 7 Runs.laptop (mkWorld [Runs.laptop_row 1] [] [] [])
  = (Raise (database_py, 101%nat) (HTTPException 404 "Item not found"),
     mkWorld [Runs.laptop_row 1] [] [] [])
  /\ Database.delete_item 1 (snd (Database.delete_item 1 (mkWorld [Runs.laptop_row 1] [] [] [])))
     = (Raise (database_py, 83%nat) (HTTPException 404 "Item not found"),
        snd (Database.delete_item 1 (mkWorld [Runs.laptop_row 1] [] [] []))).
Proof.
  pose proof (missing_item_not_found (mkWorld [Runs.laptop_row 1] [] [] []) 7
                Runs.laptop eq_refl eq_refl) as [H7 _].
  pose proof (missing_item_not_found (mkWorld [Runs.laptop_row 1] [] [] []) 1
                Runs.laptop eq_refl eq_refl) as [_ [H1 _]].
  split.
  - apply H7. simpl. intros [H|[]]. discriminate H.
  - exact H1.
Defined.

(** Against C2 as stated: no row has the id [2 ^ 63], on the empty store
    or any other, yet [update_item] and [delete_item] of it end in the
    driver's [OverflowError], which the routes answer with a 500, not with
    the 404. *)
Lemma missing_item_beyond_int64 :
  let huge := 9223372036854775808 in
  let overflow :=
    OverflowError "Python int too large to convert to SQLite INTEGER" in
  items Runs.empty_world = []
  /\ Database.update_item huge Runs.laptop Runs.empty_world
     = (Raise (sqlite3_pkg, 0%nat) overflow, Runs.empty_world)
  /\ Database.delete_item huge Runs.empty_world
     = (Raise (sqlite3_pkg, 0%nat) overflow, Runs.empty_world)
  /\ Fastapi.http_status 200
       (fst (App.update_item huge Runs.laptop Runs.empty_world)) = 500
  /\ Fastapi.http_status 204 (fst (App.delete_item huge Runs.empty_world)) = 500.
Proof. cbv zeta. repeat split. Qed.

(** What [update_item] does for a persisted id and a valid payload whose
    stock fits. *)
Lemma update_item_persisted (w : world) (item_id : Z) (item_data : ItemSchema.t) :
  faults w = [] ->
  In item_id (map ItemModel.id (items w)) ->
  ItemSchema.validate item_data = true ->
  Sqlite.int64 (ItemSchema.stock item_data) = true ->
  let updated :=
    ItemModel.mk item_id (ItemSchema.name item_data) (ItemSchema.price item_data)
      (ItemSchema.description item_data) (ItemSchema.stock item_data)
      (ItemSchema.category item_data) in
  exists w' : world,
    Database.update_item item_id item_data w = (Ok (Some updated), w')
    /\ faults w' = []
    /\ users w' = users w
    /\ find (Backend.item_has_id item_id) (items w') = Some updated
    /\ map ItemModel.id (items w') = map ItemModel.id (items w)
    /\ (forall j, j <> item_id ->
          find (Backend.item_has_id j) (items w')
          = find (Backend.item_has_id j) (items w)).
Proof.
  intros Hf Hin Hv Hs updated.
  pose proof (persisted_id_fits w item_id Hin) as Hfit.
  destruct (find_item_present _ _ Hin) as (item0 & Hfind & _ & Hid).
  rewrite (update_item_healthy w item_id item_data Hf Hfit), Hfind. cbv zeta.
  assert (H1 : Database.assign_fields item0 item_data = updated).
  { unfold Database.assign_fields, updated. now rewrite Hid. }
  rewrite H1.
  assert (Hid1 : ItemModel.id updated = ItemModel.id item0) by (now rewrite Hid).
  assert (Hp : Backend.price_changed item0 updated = false ->
               ItemModel.price item0 = ItemModel.price updated).
  { unfold Backend.price_changed. intros H. apply negb_false_iff in H.
    apply (float_eqb_positive _ _ H). now apply validate_price. }
  destruct (Backend.modified item0 updated) eqn:Em.
  - assert (Hstock : Sqlite.int64 (ItemModel.stock updated) = true) by exact Hs.
    rewrite Hstock, andb_false_r.
    assert (Hnan : Backend.is_nan (ItemModel.price updated) = false)
      by (now apply validate_not_nan).
    rewrite Hnan.
    exists (set_items w (Backend.update_rows item0 updated (items w))).
    assert (Hitems :
      items (set_items w (Backend.update_rows item0 updated (items w)))
      = Backend.update_rows item0 updated (items w)).
    { apply items_set_items, rows_fit_after_update; [auto | apply items_fit]. }
    rewrite Hitems.
    split; [reflexivity|]. split; [exact Hf|]. split; [reflexivity|].
    split; [|split].
    + rewrite <- Hid, find_item_updated, Hid, Hfind. simpl.
      now rewrite (write_changes_loaded item0 updated Hid1 Hp).
    + apply ids_update_rows.
    + intros j Hj. apply find_other_updated. congruence.
  - exists w.
    rewrite <- (unmodified_same item0 updated Hid1 Hp Em).
    split; [reflexivity|]. split; [exact Hf|]. split; [reflexivity|].
    split; [exact Hfind|]. split; [reflexivity|]. reflexivity.
Qed.




(** ** Users: registration and login *)

Section UserFacts.

Import Backend.

Lemma user_has_email_true (e : string) (u : UserModel.t) :
  user_has_email e u = true <-> UserModel.email u = e.
Proof. unfold user_has_email. apply String.eqb_eq. Qed.

Lemma user_has_email_false (e : string) (u : UserModel.t) :
  user_has_email e u = false <-> UserModel.email u <> e.
Proof. unfold user_has_email. apply String.eqb_neq. Qed.

Lemma existsb_user_absent (e : string) (l : list UserModel.t) :
  existsb (user_has_email e) l = false <-> ~ In e (map UserModel.email l).
Proof.
  induction l as [|u l IH]; simpl.
  - split; [intros _ [] | reflexivity].
  - rewrite orb_false_iff, IH, user_has_email_false. tauto.
Qed.

Lemma find_user_absent (e : string) (l : list UserModel.t) :
  ~ In e (map UserModel.email l) -> find (user_has_email e) l = None.
Proof.
  induction l as [|u l IH]; simpl; intros Hn; [reflexivity|].
  destruct (user_has_email e u) eqn:E.
  - apply user_has_email_true in E. tauto.
  - apply IH. tauto.
Qed.

Lemma find_user_present (e : string) (l : list UserModel.t) :
  In e (map UserModel.email l) ->
  exists u, find (user_has_email e) l = Some u /\ In u l /\ UserModel.email u = e.
Proof.
  induction l as [|u l IH]; simpl; intros Hin; [contradiction|].
  destruct (user_has_email e u) eqn:E.
  - exists u. apply user_has_email_true in E. auto.
  - apply user_has_email_false in E.
    destruct Hin as [Hin|Hin]; [contradiction|].
    destruct (IH Hin) as (u' & Hf & Hu & He). exists u'. auto.
Qed.

(** The row an [INSERT] appends under a fresh rowid is the one a lookup of
    that rowid finds. *)
Lemma find_user_appended (l : list UserModel.t) (u : UserModel.t) :
  ~ In (UserModel.id u) (map UserModel.id l) ->
  find (user_has_id (UserModel.id u)) (l ++ [u]) = Some u.
Proof.
  induction l as [|x l IH]; simpl; intros Hn.
  - unfold user_has_id. now rewrite Z.eqb_refl.
  - destruct (user_has_id (UserModel.id u) x) eqn:E.
    + unfold user_has_id in E. apply Z.eqb_eq in E. tauto.
    + apply IH. tauto.
Qed.

(** An id that a row of the table holds is one the driver accepts. *)
Lemma user_id_fits_found (k : Z) (l : list UserModel.t) (u : UserModel.t) :
  find (user_has_id k) l = Some u -> user_id_fits k l = true.
Proof.
  intros Hfind. unfold user_id_fits. apply orb_true_iff. right.
  apply existsb_exists. exists u. apply find_some in Hfind. tauto.
Qed.

(** With an id that fits, the lookup is the statement alone. *)
Lemma select_user_first_run (w : world) (user_id : Z) :
  user_id_fits user_id (users w) = true ->
  select_user_first user_id w
  = bind dbapi
      (fun _ => bind get_world
         (fun w1 => ret (find (user_has_id user_id) (users w1)))) w.
Proof.
  intros Hfit. unfold select_user_first.
  unfold bind at 1, get_world. unfold bind at 1. now rewrite Hfit.
Qed.

Variable w : world.
Hypothesis healthy : faults w = [].

Lemma get_user_by_email_healthy (email : string) :
  Database.get_user_by_email email w
  = (Ok (find (user_has_email email) (users w)), w).
Proof.
  unfold Database.get_user_by_email, select_user_by_email_first.
  rewrite (bind_ok _ (dbapi_healthy w healthy)). reflexivity.
Qed.

Lemma insert_user_healthy (email hashed : string) :
  ~ In email (map UserModel.email (users w)) ->
  insert_user email hashed w
  = (Ok (UserModel.mk (next_rowid (map UserModel.id (users w))) email hashed),
     set_users w
       (users w ++ [UserModel.mk (next_rowid (map UserModel.id (users w))) email hashed])).
Proof.
  intros Habs. unfold insert_user.
  rewrite (bind_ok _ (dbapi_healthy w healthy)).
  unfold bind at 1, get_world.
  apply existsb_user_absent in Habs. rewrite Habs. reflexivity.
Qed.

Lemma select_user_first_healthy (user_id : Z) :
  user_id_fits user_id (users w) = true ->
  select_user_first user_id w
  = (Ok (find (user_has_id user_id) (users w)), w).
Proof.
  intros Hfit. rewrite (select_user_first_run w user_id Hfit).
  rewrite (bind_ok _ (dbapi_healthy w healthy)). reflexivity.
Qed.

Lemma refresh_user_healthy (db_user : UserModel.t) :
  find (user_has_id (UserModel.id db_user)) (users w) = Some db_user ->
  refresh_user db_user w = (Ok db_user, w).
Proof.
  intros Hfind. unfold refresh_user.
  rewrite (bind_ok _ (select_user_first_healthy _ (user_id_fits_found _ _ _ Hfind))).
  now rewrite Hfind.
Qed.

End UserFacts.

Section Registration.

Context `{pwd_context : CryptContext}.

(** [Database.create_user] on a healthy backend, for an email no user has:
    a salt is consumed and the new row, holding the hash, is appended under
    the next rowid and returned. *)
Lemma create_user_healthy (w : world) (user : UserSchema.t) :
  faults w = [] ->
  ~ In (UserSchema.email user) (map UserModel.email (users w)) ->
  let db_user :=
    UserModel.mk (Backend.next_rowid (map UserModel.id (users w)))
      (UserSchema.email user)
      (hash (hd EmptyString (salts w)) (UserSchema.password user)) in
  Database.create_user user w
  = (Ok db_user,
     set_users (set_salts w (tl (salts w))) (users w ++ [db_user])).
Proof.
  intros Hf Habs db_user. unfold Database.create_user.
  apply try_except_ok.
  rewrite (bind_ok _ (get_user_by_email_healthy w Hf _)).
  rewrite (find_user_absent _ _ Habs).
  unfold bind at 1, pwd_context_hash.
  rewrite (bind_ok _ (insert_user_healthy (set_salts w (tl (salts w))) Hf _ _ Habs)).
  apply refresh_user_healthy; [exact Hf|].
  unfold set_users, set_salts; cbn [users].
  apply (find_user_appended (users w) db_user).
  apply next_rowid_fresh.
Qed.

(** [Database.create_user] on a healthy backend, for an email a user has. *)
Lemma create_user_taken (w : world) (user : UserSchema.t) :
  faults w = [] ->
  In (UserSchema.email user) (map UserModel.email (users w)) ->
  Database.create_user user w
  = (Raise (database_py, 136%nat) (HTTPException 400 "Email already registered"), w).
Proof.
  intros Hf Hin. unfold Database.create_user.
  apply try_except_http.
  rewrite (bind_ok _ (get_user_by_email_healthy w Hf _)).
  destruct (find_user_present _ _ Hin) as (u & -> & _). reflexivity.
Qed.

(** [register] on a healthy backend, for an email a user has. *)
Lemma register_taken (w : world) (user : UserSchema.t) :
  faults w = [] ->
  In (UserSchema.email user) (map UserModel.email (users w)) ->
  App.register user w
  = (Raise (app_py, 52%nat) (HTTPException 400 "Email already registered"), w).
Proof.
  intros Hf Hin. unfold App.register.
  rewrite (bind_ok _ (get_user_by_email_healthy w Hf _)).
  destruct (find_user_present _ _ Hin) as (u & -> & _). reflexivity.
Qed.

(** [register] on a healthy backend, for an email no user has. *)
Lemma register_healthy (w : world) (user : UserSchema.t) :
  faults w = [] ->
  ~ In (UserSchema.email user) (map UserModel.email (users w)) ->
  let db_user :=
    UserModel.mk (Backend.next_rowid (map UserModel.id (users w)))
      (UserSchema.email user)
      (hash (hd EmptyString (salts w)) (UserSchema.password user)) in
  App.register user w
  = (Ok db_user,
     set_users (set_salts w (tl (salts w))) (users w ++ [db_user])).
Proof.
  intros Hf Habs db_user. unfold App.register.
  rewrite (bind_ok _ (get_user_by_email_healthy w Hf _)).
  rewrite (find_user_absent _ _ Habs).
  rewrite (bind_ok _ (create_user_healthy w user Hf Habs)). reflexivity.
Qed.

(** C3.  On a healthy backend, registering a user whose email a persisted
    user already has raises the 400 "Email already registered", from the
    route and from the Store's [create_user] alike, and leaves the store,
    the user table included, as it was; and whatever a first registration
    of an email did, a second registration with the same email raises that
    400. *)
Theorem register_taken_email_conflict (w : world) (user : UserSchema.t) :
  faults w = [] ->
  (In (UserSchema.email user) (map UserModel.email (users w)) ->
   App.register user w
   = (Raise (app_py, 52%nat) (HTTPException 400 "Email already registered"), w)
   /\ Database.create_user user w
      = (Raise (database_py, 136%nat) (HTTPException 400 "Email already registered"), w)
   /\ Fastapi.http_status 200 (fst (App.register user w)) = 400
   /\ users (snd (App.register user w)) = users w)
  /\ (forall again : UserSchema.t,
      UserSchema.email again = UserSchema.email user ->
      let w1 := snd (App.register user w) in
      App.register again w1
      = (Raise (app_py, 52%nat) (HTTPException 400 "Email already registered"), w1)).
Proof.
  intros Hf. split.
  - intros Hin. rewrite (register_taken w user Hf Hin).
    rewrite (create_user_taken w user Hf Hin). repeat split.
  - intros again Heq w1. subst w1.
    destruct (in_dec string_dec (UserSchema.email user)
                (map UserModel.email (users w))) as [Hin|Habs].
    + rewrite (register_taken w user Hf Hin). cbn [snd].
      apply register_taken; [exact Hf | now rewrite Heq].
    + rewrite (register_healthy w user Hf Habs). cbn [snd].
      apply register_taken; [exact Hf|].
      rewrite users_set_users, map_app, Heq. apply in_or_app. right.
      simpl. now left.
Qed.

(** C4.  On a healthy backend, a login whose email no user has raises the
    404 "User not found"; when a user has the email, [get_user_by_email]
    finds a row [u] with that email, and the login raises the 401
    "Incorrect password" when the password does not verify against the
    hash stored in [u], and returns the dictionary with [access_token] the
    email of [u] and [token_type] "bearer" when it does.  The store is
    unchanged in every case. *)
Theorem login_outcomes (w : world) (form_data : UserSchema.t) :
  faults w = [] ->
  (~ In (UserSchema.email form_data) (map UserModel.email (users w)) ->
   App.login form_data w
   = (Raise (app_py, 66%nat) (HTTPException 404 "User not found"), w))
  /\ (In (UserSchema.email form_data) (map UserModel.email (users w)) ->
      exists u : UserModel.t,
        Database.get_user_by_email (UserSchema.email form_data) w = (Ok (Some u), w)
        /\ In u (users w)
        /\ UserModel.email u = UserSchema.email form_data
        /\ (verify (UserSchema.password form_data) (UserModel.hashed_password u) = false ->
            App.login form_data w
            = (Raise (app_py, 69%nat) (HTTPException 401 "Incorrect password"), w))
        /\ (verify (UserSchema.password form_data) (UserModel.hashed_password u) = true ->
            App.login form_data w
            = (Ok [("access_token", UserModel.email u);
                   ("token_type", "bearer")], w))).
Proof.
  intros Hf. split.
  - intros Habs. unfold App.login.
    rewrite (bind_ok _ (get_user_by_email_healthy w Hf _)).
    now rewrite (find_user_absent _ _ Habs).
  - intros Hin. destruct (find_user_present _ _ Hin) as (u & Hfind & Hu & He).
    exists u. rewrite (get_user_by_email_healthy w Hf). rewrite Hfind.
    split; [reflexivity|]. split; [exact Hu|]. split; [exact He|].
    unfold App.login.
    rewrite (bind_ok _ (get_user_by_email_healthy w Hf _)). rewrite Hfind.
    unfold Database.verify_password, bind, ret.
    split; intros ->; reflexivity.
Qed.

End Registration.

Lemma register_taken_email_conflict_witness :
  let w := mkWorld [] [UserModel.mk 1 "a@b.com" "$2b$$x"] [] [] in
  let user := UserSchema.mk "a@b.com" "x" in
  @App.register Runs.toy_context user w
  = (Raise (app_py, 52%nat) (HTTPException 400 "Email already registered"), w)
  /\ users (snd (@App.register Runs.toy_context user w)) = users w.
Proof.
  cbv zeta.
  destruct (@register_taken_email_conflict Runs.toy_context
              (mkWorld [] [UserModel.mk 1 "a@b.com" "$2b$$x"] [] [])
              (UserSchema.mk "a@b.com" "x") eq_refl) as [H _].
  destruct H as (Hr & _ & _ & Hu).
  - simpl. left. reflexivity.
  - split; [exact Hr | exact Hu].
Defined.

Lemma login_outcomes_witness :
  let w := mkWorld [] [UserModel.mk 1 "a@b.com" "$2b$$x"] [] [] in
  @App.login Runs.toy_context (UserSchema.mk "nobody@b.com" "x") w
  = (Raise (app_py, 66%nat) (HTTPException 404 "User not found"), w)
  /\ @App.login Runs.toy_context (UserSchema.mk "a@b.com" "y") w
     = (Raise (app_py, 69%nat) (HTTPException 401 "Incorrect password"), w)
  /\ @App.login Runs.toy_context (UserSchema.mk "a@b.com" "x") w
     = (Ok [("access_token", "a@b.com"); ("token_type", "bearer")], w).
Proof.
  cbv zeta.
  set (w := mkWorld [] [UserModel.mk 1 "a@b.com" "$2b$$x"] [] []).
  split; [|split].
  - apply (@login_outcomes Runs.toy_context w (UserSchema.mk "nobody@b.com" "x") eq_refl).
    simpl. intros [H|[]]. discriminate H.
  - destruct (@login_outcomes Runs.toy_context w (UserSchema.mk "a@b.com" "y") eq_refl)
      as [_ H].
    destruct H as (u & Hget & _ & _ & Hbad & _); [simpl; now left|].
    injection Hget as <-. apply Hbad. reflexivity.
  - destruct (@login_outcomes Runs.toy_context w (UserSchema.mk "a@b.com" "x") eq_refl)
      as [_ H].
    destruct H as (u & Hget & _ & _ & _ & Hgood); [simpl; now left|].
    injection Hget as <-. apply Hgood. reflexivity.
Defined.

(** *** What a registration that succeeds returns, whatever the faults *)

Section RegistrationSpec.

Context `{pwd_context : CryptContext}.

Variable user : UserSchema.t.
Variable s0 : list string.

Lemma get_user_by_email_salts (email : string) :
  hoare (fun w => salts w = s0) (Database.get_user_by_email email)
        (fun _ w => salts w = s0) (fun _ _ _ => True).
Proof.
  intros w Hw.
  unfold Database.get_user_by_email, Backend.select_user_by_email_first,
    Backend.dbapi, bind, get_world, ret.
  destruct (faults w) as [|[msg|] fs]; simpl; auto.
Qed.

Lemma pwd_context_hash_spec (password : string) :
  hoare (fun w => salts w = s0) (pwd_context_hash password)
        (fun hashed _ => hashed = hash (hd EmptyString s0) password)
        (fun _ _ _ => True).
Proof. intros w Hw. simpl. now rewrite Hw. Qed.

Lemma insert_user_spec (email hashed : string) :
  hoare (fun _ => True) (Backend.insert_user email hashed)
        (fun db_user w =>
           UserModel.email db_user = email
           /\ UserModel.hashed_password db_user = hashed
           /\ exists old, users w = old ++ [db_user]
                          /\ ~ In (UserModel.id db_user) (map UserModel.id old))
        (fun _ _ _ => True).
Proof.
  intros w _. unfold Backend.insert_user, bind, get_world, put_world, ret, raise_at.
  destruct (Backend.dbapi w) as [[[]|l e] w1]; [|exact I].
  destruct (existsb (Backend.user_has_email email) (users w1)); [exact I|].
  simpl. repeat split. exists (users w1). split; [reflexivity|].
  apply next_rowid_fresh.
Qed.

Lemma refresh_user_spec (db_user : UserModel.t) :
  hoare (fun w => exists old, users w = old ++ [db_user]
                              /\ ~ In (UserModel.id db_user) (map UserModel.id old))
        (Backend.refresh_user db_user)
        (fun row w => row = db_user /\ In db_user (users w))
        (fun _ _ _ => True).
Proof.
  intros w (old & Hu & Hfresh).
  assert (Hfit : Backend.user_id_fits (UserModel.id db_user) (users w) = true).
  { apply (user_id_fits_found _ _ db_user). rewrite Hu.
    now apply find_user_appended. }
  unfold Backend.refresh_user. unfold bind at 1.
  rewrite (select_user_first_run w _ Hfit).
  unfold bind, get_world, ret, raise_at.
  pose proof (dbapi_tables w) as (_ & Hu1 & _).
  destruct (Backend.dbapi w) as [[[]|l e] w1]; [|exact I].
  simpl in Hu1. rewrite Hu1, Hu, (find_user_appended old db_user Hfresh).
  split; [reflexivity|]. rewrite Hu1, Hu. apply in_or_app. right. now left.
Qed.

Lemma create_user_spec :
  hoare (fun w => salts w = s0) (Database.create_user user)
        (fun db_user w => created_from user s0 db_user /\ In db_user (users w))
        (fun _ _ _ => True).
Proof.
  unfold Database.create_user.
  eapply hoare_try with (E' := fun _ _ _ => True); [|auto|auto|].
  - eapply hoare_bind; [apply get_user_by_email_salts|].
    intros [u|]; [intros w _; exact I|].
    eapply hoare_bind; [apply pwd_context_hash_spec|]. intros hashed.
    eapply hoare_bind with
      (R := fun db_user w =>
              created_from user s0 db_user
              /\ exists old, users w = old ++ [db_user]
                   /\ ~ In (UserModel.id db_user) (map UserModel.id old)).
    + intros w ->. pose proof (insert_user_spec (UserSchema.email user)
                                 (hash (hd EmptyString s0) (UserSchema.password user))
                                 w I) as H.
      destruct (Backend.insert_user _ _ w) as [[db_user|l e] w1]; [|exact I].
      destruct H as (He & Hh & Hold). repeat split; assumption.
    + intros db_user w [Hc Hold].
      pose proof (refresh_user_spec db_user w Hold) as H.
      destruct (Backend.refresh_user db_user w) as [[row|l e] w1]; [|exact I].
      destruct H as [-> Hin]. split; assumption.
  - intros l msg w _. exact I.
Qed.

Lemma register_spec :
  hoare (fun w => salts w = s0) (App.register user)
        (fun db_user w => created_from user s0 db_user /\ In db_user (users w))
        (fun _ _ _ => True).
Proof.
  unfold App.register.
  eapply hoare_bind; [apply get_user_by_email_salts|].
  intros [u|]; [intros w _; exact I|].
  eapply hoare_bind; [apply create_user_spec|].
  intros db_user w H. exact H.
Qed.

End RegistrationSpec.

(** C6 (as amended).  For every registration that succeeds, whatever the
    backend's faults, the object returned is a row of the user table with
    the request's email and, as [hashed_password], the hash of the
    request's password under the drawn salt; the response body made from it
    has exactly the fields [id], [email] and [hashed_password], the last one
    holding that stored hash, and no field named [password].  On a healthy
    backend a registration with an email no user has does succeed. *)
Theorem register_response_body_fields
  `{pwd_context : CryptContext} (w : world) (user : UserSchema.t) :
  (forall (db_user : UserModel.t) (w' : world),
     App.register user w = (Ok db_user, w') ->
     In db_user (users w')
     /\ UserModel.email db_user = UserSchema.email user
     /\ UserModel.hashed_password db_user
        = hash (hd EmptyString (salts w)) (UserSchema.password user)
     /\ App.register_response_body db_user
        = [ ("id", Fastapi.JInt (UserModel.id db_user));
            ("email", Fastapi.JStr (UserSchema.email user));
            ("hashed_password",
             Fastapi.JStr (hash (hd EmptyString (salts w)) (UserSchema.password user))) ]
     /\ ~ In "password" (Fastapi.keys (App.register_response_body db_user)))
  /\ (faults w = [] ->
      ~ In (UserSchema.email user) (map UserModel.email (users w)) ->
      exists (db_user : UserModel.t) (w' : world),
        App.register user w = (Ok db_user, w')).
Proof.
  split.
  - intros db_user w' Hr.
    pose proof (register_spec user (salts w) w eq_refl) as H.
    rewrite Hr in H. destruct H as [[He Hh] Hin].
    split; [exact Hin|]. split; [exact He|]. split; [exact Hh|].
    split.
    + unfold App.register_response_body. simpl. now rewrite He, Hh.
    + simpl. intros [H|[H|[H|[]]]]; discriminate H.
  - intros Hf Habs. eexists. eexists. apply (register_healthy w user Hf Habs).
Qed.

Lemma register_response_body_fields_witness :
  exists db_user : UserModel.t,
    fst (@App.register Runs.toy_context (UserSchema.mk "a@b.com" "x") Runs.empty_world)
    = Ok db_user
    /\ Fastapi.keys (App.register_response_body db_user)
       = ["id"; "email"; "hashed_password"].
Proof.
  destruct (@register_response_body_fields Runs.toy_context Runs.empty_world
              (UserSchema.mk "a@b.com" "x")) as [Hbody Hsucc].
  destruct (Hsucc eq_refl) as (db_user & w' & Hr).
  - simpl. intros [].
  - destruct (Hbody db_user w' Hr) as (_ & _ & _ & Hb & _).
    exists db_user. rewrite Hr, Hb. split; reflexivity.
Defined.

(** Against C6 as stated: the body of a successful registration
    holds the field [hashed_password] with the stored hash. *)
Lemma register_response_exposes_hash :
  let user := UserSchema.mk "a@b.com" "x" in
  let db_user := UserModel.mk 1 "a@b.com" "$2b$$x" in
  @App.register Runs.toy_context user Runs.empty_world
  = (Ok db_user, mkWorld [] [db_user] [] [])
  /\ App.register_response_body db_user
     = [ ("id", Fastapi.JInt 1);
         ("email", Fastapi.JStr "a@b.com");
         ("hashed_password", Fastapi.JStr "$2b$$x") ]
  /\ In "hashed_password" (Fastapi.keys (App.register_response_body db_user)).
Proof.
  cbv zeta. split; [reflexivity|]. split; [reflexivity|].
  simpl. right. right. left. reflexivity.
Qed.

(** ** The invariant of the item table *)

Section ItemsInvariant.

Import Backend.

Lemma new_item_ok (i : Z) (kw : ItemSchema.t) :
  Store.item_ok (new_item i kw) = ItemSchema.validate kw.
Proof. reflexivity. Qed.

Lemma assign_fields_ok (item : ItemModel.t) (item_data : ItemSchema.t) :
  Store.item_ok (Database.assign_fields item item_data)
  = ItemSchema.validate item_data.
Proof. reflexivity. Qed.

Lemma write_changes_ok (loaded item r : ItemModel.t) :
  Store.item_ok item = true -> Store.item_ok r = true ->
  Store.item_ok (write_changes loaded item r) = true.
Proof.
  unfold Store.item_ok, write_changes. simpl. intros Hi Hr.
  apply andb_true_iff in Hi. apply andb_true_iff in Hr.
  destruct Hi as [Hip His], Hr as [Hrp Hrs].
  apply andb_true_iff. split.
  - now destruct (price_changed loaded item).
  - now destruct (stock_changed loaded item).
Qed.

(** The rows that pass for the item table keep the invariant of the rows
    written. *)
Lemma items_ok_written (w : world) (l : list ItemModel.t) :
  Store.items_ok l -> Store.items_ok (items (set_items w l)).
Proof.
  unfold Store.items_ok, items, set_items. simpl.
  rewrite !Forall_forall. intros Hl r Hr. apply filter_In in Hr. now apply Hl.
Qed.

Lemma keeps_get_world_then {A} (I : list ItemModel.t -> Prop) (k : world -> M A) :
  (forall w0, keeps I (k w0)) -> keeps I (bind get_world k).
Proof. intros Hk w Hw. unfold bind, get_world. apply (Hk w w Hw). Qed.

Lemma keeps_select_item_first (item_id : Z) : keeps Store.items_ok (select_item_first item_id).
Proof.
  apply keeps_bind; [apply keeps_sqlite_int|]. intros _.
  apply keeps_dbapi_then. intros w Hw. exact Hw.
Qed.

Lemma keeps_select_items_all : keeps Store.items_ok select_items_all.
Proof. apply keeps_dbapi_then. intros w Hw. exact Hw. Qed.

Lemma keeps_select_user_first (user_id : Z) : keeps Store.items_ok (select_user_first user_id).
Proof.
  apply keeps_get_world_then. intros w0.
  apply keeps_bind.
  - destruct (user_id_fits user_id (users w0));
      [apply keeps_ret | apply keeps_sqlite_int].
  - intros _. apply keeps_dbapi_then. intros w Hw. exact Hw.
Qed.

Lemma keeps_select_user_by_email_first (email : string) :
  keeps Store.items_ok (select_user_by_email_first email).
Proof. apply keeps_dbapi_then. intros w Hw. exact Hw. Qed.

Lemma keeps_store_item (w : world) (r : ItemModel.t) :
  Store.item_ok r = true ->
  Store.items_ok (items w) ->
  match store_item w r w with
  | (_, w') => Store.items_ok (items w')
  end.
Proof.
  intros Hr Hw. unfold store_item, bind, put_world, ret.
  apply items_ok_written. apply insert_row_all; assumption.
Qed.

Lemma keeps_insert_item (kw : ItemSchema.t) :
  ItemSchema.validate kw = true -> keeps Store.items_ok (insert_item kw).
Proof.
  intros Hv. unfold insert_item.
  apply keeps_bind.
  { destruct (ItemSchema.id kw); [apply keeps_sqlite_int | apply keeps_ret]. }
  intros _. apply keeps_bind; [apply keeps_sqlite_int|]. intros _.
  apply keeps_dbapi_then. intros w Hw.
  destruct (is_nan (ItemSchema.price kw)); [exact Hw|].
  destruct (ItemSchema.id kw) as [i|].
  - destruct (existsb (item_has_id i) (items w)); [exact Hw|].
    apply keeps_store_item; [now rewrite new_item_ok | exact Hw].
  - destruct (assign_rowid (map ItemModel.id (items w)) (rowids w))
      as [[i rest]|]; [|exact Hw].
    apply (keeps_store_item (set_rowids w rest));
      [now rewrite new_item_ok | exact Hw].
Qed.

Lemma keeps_refresh_item (db_item : ItemModel.t) : keeps Store.items_ok (refresh_item db_item).
Proof.
  apply keeps_bind; [apply keeps_select_item_first|].
  intros [row|]; [apply keeps_ret | apply keeps_raise].
Qed.

Lemma keeps_update_item_row (loaded item : ItemModel.t) :
  Store.item_ok item = true -> keeps Store.items_ok (update_item_row loaded item).
Proof.
  intros Hv. unfold update_item_row.
  destruct (modified loaded item); [|apply keeps_ret].
  apply keeps_bind.
  { destruct (stock_changed loaded item); [apply keeps_sqlite_int | apply keeps_ret]. }
  intros _. apply keeps_dbapi_then. intros w Hw.
  destruct (is_nan (ItemModel.price item)); [exact Hw|].
  destruct (existsb (item_has_id (ItemModel.id loaded)) (items w)); [|exact Hw].
  simpl. apply items_ok_written. unfold update_rows. apply Forall_map.
  unfold Store.items_ok in Hw.
  eapply Forall_impl; [|exact Hw]. intros r Hr. simpl.
  destruct (item_has_id (ItemModel.id loaded) r); [|exact Hr].
  now apply write_changes_ok.
Qed.

Lemma keeps_delete_item_row (db_item : ItemModel.t) :
  keeps Store.items_ok (delete_item_row db_item).
Proof.
  apply keeps_dbapi_then. intros w Hw. simpl. apply items_ok_written.
  unfold Store.items_ok in *. rewrite Forall_forall in *. intros r Hr.
  apply filter_In in Hr. now apply Hw.
Qed.

Lemma keeps_insert_user (email hashed : string) : keeps Store.items_ok (insert_user email hashed).
Proof.
  apply keeps_dbapi_then. intros w Hw.
  destruct (existsb (user_has_email email) (users w)); exact Hw.
Qed.

Lemma keeps_refresh_user (db_user : UserModel.t) : keeps Store.items_ok (refresh_user db_user).
Proof.
  apply keeps_bind; [apply keeps_select_user_first|].
  intros [row|]; [apply keeps_ret | apply keeps_raise].
Qed.

Lemma keeps_drop_table (tb : table) : keeps Store.items_ok (drop_table tb).
Proof.
  apply keeps_dbapi_then. intros w Hw.
  destruct tb; simpl; [constructor | exact Hw].
Qed.

Lemma keeps_drop_all : keeps Store.items_ok drop_all.
Proof. apply keeps_for_each. apply keeps_drop_table. Qed.

Lemma keeps_create_all : keeps Store.items_ok create_all.
Proof. apply keeps_for_each. intros tb. apply keeps_dbapi. Qed.

Lemma keeps_create_item (item : ItemSchema.t) :
  ItemSchema.validate item = true -> keeps Store.items_ok (Database.create_item item).
Proof.
  intros Hv. apply keeps_try.
  - apply keeps_bind; [now apply keeps_insert_item|].
    intros db_item. apply keeps_refresh_item.
  - intros msg. apply keeps_raise.
Qed.

Lemma keeps_get_item (item_id : Z) : keeps Store.items_ok (Database.get_item item_id).
Proof.
  apply keeps_bind; [apply keeps_select_item_first|].
  intros [it|]; [apply keeps_ret | apply keeps_raise].
Qed.

Lemma keeps_get_all_items : keeps Store.items_ok Database.get_all_items.
Proof.
  apply keeps_try; [apply keeps_select_items_all|].
  intros msg. apply keeps_raise.
Qed.

Lemma keeps_update_item (item_id : Z) (item_data : ItemSchema.t) :
  ItemSchema.validate item_data = true ->
  keeps Store.items_ok (Database.update_item item_id item_data).
Proof.
  intros Hv. apply keeps_bind; [apply keeps_select_item_first|].
  intros [item0|]; [|apply keeps_raise]. cbv zeta.
  apply keeps_bind.
  - apply keeps_update_item_row. exact Hv.
  - intros _. apply keeps_ret.
Qed.

Lemma keeps_delete_item (item_id : Z) : keeps Store.items_ok (Database.delete_item item_id).
Proof.
  apply keeps_bind; [apply keeps_get_item|].
  intros [it|]; [|apply keeps_raise].
  apply keeps_bind; [apply keeps_delete_item_row | intros _; apply keeps_ret].
Qed.

Lemma keeps_get_user (user_id : Z) : keeps Store.items_ok (Database.get_user user_id).
Proof.
  apply keeps_bind; [apply keeps_select_user_first|].
  intros [u|]; [apply keeps_ret | apply keeps_raise].
Qed.

Context `{pwd_context : CryptContext}.

Lemma keeps_pwd_context_hash (password : string) :
  keeps Store.items_ok (pwd_context_hash password).
Proof. intros w Hw. exact Hw. Qed.

Lemma keeps_create_user (user : UserSchema.t) :
  keeps Store.items_ok (Database.create_user user).
Proof.
  apply keeps_try; [|intros msg; apply keeps_raise].
  apply keeps_bind; [apply keeps_select_user_by_email_first|].
  intros [u|]; [apply keeps_raise|].
  apply keeps_bind; [apply keeps_pwd_context_hash|]. intros hashed.
  apply keeps_bind; [apply keeps_insert_user|]. intros db_user.
  apply keeps_refresh_user.
Qed.

Lemma keeps_init_db : keeps Store.items_ok Database.init_db.
Proof. apply keeps_engine_begin. apply keeps_create_all. Qed.

Lemma keeps_clear_data : keeps Store.items_ok Database.clear_data.
Proof.
  apply keeps_engine_begin.
  apply keeps_bind; [apply keeps_raise|]. intros _.
  apply keeps_bind; [|intros _; apply keeps_raise].
  apply keeps_for_each. intros tb. apply keeps_raise.
Qed.

Lemma keeps_reset_database : keeps Store.items_ok Database.reset_database.
Proof.
  apply keeps_engine_begin.
  apply keeps_bind; [apply keeps_drop_all | intros _; apply keeps_create_all].
Qed.

(** Every call of the Store whose payload is validated keeps the invariant,
    whatever the backend's faults. *)
Lemma keeps_perform (c : Store.call) :
  Store.validated c = true -> keeps Store.items_ok (Store.perform c).
Proof.
  destruct c; simpl; intros Hv;
    try apply keeps_discard;
    auto using keeps_init_db, keeps_clear_data, keeps_reset_database,
      keeps_create_item, keeps_get_item, keeps_get_all_items,
      keeps_update_item, keeps_delete_item, keeps_create_user,
      keeps_get_user, keeps_select_user_by_email_first.
Qed.

Lemma perform_items_ok (c : Store.call) (w : world) :
  Store.validated c = true ->
  Store.items_ok (items w) -> Store.items_ok (items (snd (Store.perform c w))).
Proof.
  intros Hv Hw. pose proof (keeps_perform c Hv w Hw) as H.
  destruct (Store.perform c w) as [[a|l e] w1]; exact H.
Qed.

End ItemsInvariant.

(** C9.  Every call of the Store with a schema-validated payload preserves
    the invariant that every persisted item has [price > 0] and
    [stock >= 0], whether the call returns or raises and whatever the
    backend's faults; so the invariant holds after every sequence of such
    calls, [create_item] and [update_item] among them, from a store where
    it holds, and in particular from the empty store. *)
Theorem validated_calls_keep_invariant
  `{pwd_context : CryptContext} (cs : list Store.call) (w : world) :
  forallb Store.validated cs = true ->
  (Store.items_ok (items w) -> Store.items_ok (items (Store.run cs w)))
  /\ (items w = [] ->
      forall r, In r (items (Store.run cs w)) ->
        PrimFloat.ltb 0%float (ItemModel.price r) = true /\ 0 <= ItemModel.stock r).
Proof.
  intros Hv.
  assert (Hrun : Store.items_ok (items w) -> Store.items_ok (items (Store.run cs w))).
  { revert w. induction cs as [|c cs IH]; intros w Hw; [exact Hw|].
    simpl in Hv. apply andb_true_iff in Hv. destruct Hv as [Hc Hcs].
    simpl. apply (IH Hcs). now apply perform_items_ok. }
  split; [exact Hrun|].
  intros Hempty r Hr.
  assert (Hok : Store.items_ok (items (Store.run cs w))).
  { apply Hrun. rewrite Hempty. constructor. }
  unfold Store.items_ok in Hok. rewrite Forall_forall in Hok.
  specialize (Hok r Hr). unfold Store.item_ok in Hok.
  apply andb_true_iff in Hok. destruct Hok as [Hp Hs].
  split; [exact Hp | now apply Z.leb_le].
Qed.

Lemma validated_calls_keep_invariant_witness :
  Store.items_ok
    (items
       (@Store.run Runs.toy_context
          [ Store.create_item Runs.laptop;
            Store.update_item 1 (ItemSchema.mk (Some 5) "Desktop" 2.5%float None 0 None);
            Store.create_item (ItemSchema.mk (Some 1) "Mouse" 1%float None 3 None);
            Store.delete_item 4;
            Store.create_item Runs.laptop ]
          (mkWorld [] [] [None; None; None; Some "database is locked"] []))).
Proof.
  apply (@validated_calls_keep_invariant Runs.toy_context
           [ Store.create_item Runs.laptop;
             Store.update_item 1 (ItemSchema.mk (Some 5) "Desktop" 2.5%float None 0 None);
             Store.create_item (ItemSchema.mk (Some 1) "Mouse" 1%float None 3 None);
             Store.delete_item 4;
             Store.create_item Runs.laptop ]
           (mkWorld [] [] [None; None; None; Some "database is locked"] [])
           eq_refl).
  constructor.
Defined.

(** ** The [None] checks after [get_item] *)

Section DeadChecks.

Lemma select_item_first_sites (item_id : Z) :
  hoare (fun _ => True) (Backend.select_item_first item_id)
        (fun _ _ => True) (fun l _ _ => not_guarded l).
Proof.
  intros w _.
  unfold Backend.select_item_first, Backend.sqlite_int, Backend.dbapi, bind,
    get_world, ret, raise_at.
  destruct (Sqlite.int64 item_id); [|split; discriminate].
  destruct (faults w) as [|[msg|] fs]; simpl; try exact I.
  split; discriminate.
Qed.

Lemma delete_item_row_sites (db_item : ItemModel.t) :
  hoare (fun _ => True) (Backend.delete_item_row db_item)
        (fun _ _ => True) (fun l _ _ => not_guarded l).
Proof.
  intros w _. unfold Backend.delete_item_row, Backend.dbapi, bind, get_world, put_world.
  destruct (faults w) as [|[msg|] fs]; simpl; try exact I.
  split; discriminate.
Qed.

(** Whatever the backend does, [get_item] returns an object, never [None],
    and raises at neither guarded statement. *)
Lemma get_item_spec (item_id : Z) :
  hoare (fun _ => True) (Database.get_item item_id)
        (fun item _ => item <> None) (fun l _ _ => not_guarded l).
Proof.
  unfold Database.get_item.
  eapply hoare_bind; [apply select_item_first_sites|].
  intros [it|].
  - intros w _. simpl. discriminate.
  - intros w _. simpl. split; discriminate.
Qed.

Lemma delete_item_spec (item_id : Z) :
  hoare (fun _ => True) (Database.delete_item item_id)
        (fun _ _ => True) (fun l _ _ => not_guarded l).
Proof.
  unfold Database.delete_item.
  eapply hoare_bind; [apply get_item_spec|].
  intros [it|].
  - intros w _. pose proof (delete_item_row_sites it w I) as H.
    unfold bind.
    destruct (Backend.delete_item_row it w) as [[[]|l e] w1];
      [exact I | exact H].
  - intros w Hnone. now contradiction Hnone.
Qed.

Lemma app_get_item_spec (item_id : Z) :
  hoare (fun _ => True) (App.get_item item_id)
        (fun _ _ => True) (fun l _ _ => not_guarded l).
Proof.
  unfold App.get_item.
  eapply hoare_bind; [apply get_item_spec|].
  intros [it|].
  - intros w _. exact I.
  - intros w Hnone. now contradiction Hnone.
Qed.

(** C10 (as amended).  [get_item] never returns [None], whatever the
    backend does; on a healthy backend it returns a persisted item of the
    given id, or raises the 404 of database.py line 83 for an id within the
    signed 64-bit range, or ends in the driver's [OverflowError] for an id
    beyond it.  The raise that ends [delete_item] (database.py line 128)
    and the raise under the [None] check of the GET route (app.py line 82)
    are never executed, for any id and any store. *)
Theorem get_item_never_none (w : world) (item_id : Z) :
  fst (Database.get_item item_id w) <> Ok None
  /\ (faults w = [] ->
      (exists it : ItemModel.t,
         In it (items w) /\ ItemModel.id it = item_id
         /\ Database.get_item item_id w = (Ok (Some it), w))
      \/ (Sqlite.int64 item_id = true
          /\ Database.get_item item_id w
             = (Raise (database_py, 83%nat) (HTTPException 404 "Item not found"), w))
      \/ (Sqlite.int64 item_id = false
          /\ Database.get_item item_id w
             = (Raise (sqlite3_pkg, 0%nat)
                  (OverflowError "Python int too large to convert to SQLite INTEGER"),
                w)))
  /\ raised_at (fst (Database.delete_item item_id w)) <> Some (database_py, 128%nat)
  /\ raised_at (fst (App.get_item item_id w)) <> Some (app_py, 82%nat).
Proof.
  split; [|split; [|split]].
  - pose proof (get_item_spec item_id w I) as H.
    destruct (Database.get_item item_id w) as [[item|l e] w1]; simpl.
    + intros Heq. injection Heq as ->. now apply H.
    + discriminate.
  - intros Hf. destruct (Sqlite.int64 item_id) eqn:Efit.
    + rewrite (get_item_healthy w Hf item_id Efit).
      destruct (find (Backend.item_has_id item_id) (items w)) as [it|] eqn:E.
      * left. exists it. apply find_item_id in E. destruct E as [Hid Hin]. auto.
      * right. left. split; reflexivity.
    + right. right. split; [reflexivity|]. now apply get_item_overflow.
  - pose proof (delete_item_spec item_id w I) as H.
    destruct (Database.delete_item item_id w) as [[item|l e] w1]; simpl.
    + discriminate.
    + intros Heq. injection Heq as ->. now destruct H as [H _].
  - pose proof (app_get_item_spec item_id w I) as H.
    destruct (App.get_item item_id w) as [[item|l e] w1]; simpl.
    + discriminate.
    + intros Heq. injection Heq as ->. now destruct H as [_ H].
Qed.

End DeadChecks.

Lemma get_item_never_none_witness :
  (exists it : ItemModel.t,
     Database.get_item 1 (mkWorld [Runs.laptop_row 1] [] [] [])
     = (Ok (Some it), mkWorld [Runs.laptop_row 1] [] [] []))
  /\ Database.get_item 2 (mkWorld [Runs.laptop_row 1] [] [] [])
     = (Raise (database_py, 83%nat) (HTTPException 404 "Item not found"),
        mkWorld [Runs.laptop_row 1] [] [] []).
Proof.
  split.
  - destruct (get_item_never_none (mkWorld [Runs.laptop_row 1] [] [] []) 1)
      as (_ & H & _).
    destruct (H eq_refl) as [(it & _ & _ & Hit)|[[_ Hraise]|[Hbig _]]].
    + exists it. exact Hit.
    + discriminate Hraise.
    + discriminate Hbig.
  - destruct (get_item_never_none (mkWorld [Runs.laptop_row 1] [] [] []) 2)
      as (_ & H & _).
    destruct (H eq_refl) as [(it & _ & _ & Hit)|[[_ Hraise]|[Hbig _]]].
    + discriminate Hit.
    + exact Hraise.
    + discriminate Hbig.
Defined.

(** Against C10 as stated: for the id [2 ^ 63], [get_item] neither returns
    an item nor raises the 404; it ends in the driver's [OverflowError],
    which the GET route answers with a 500. *)
Lemma get_item_beyond_int64 :
  let huge := 9223372036854775808 in
  Database.get_item huge Runs.empty_world
  = (Raise (sqlite3_pkg, 0%nat)
       (OverflowError "Python int too large to convert to SQLite INTEGER"),
     Runs.empty_world)
  /\ Fastapi.http_status 200 (fst (App.get_item huge Runs.empty_world)) = 500.
Proof. cbv zeta. split; reflexivity. Qed.

(** ** Backend faults *)

(** C8 does not hold of the code.  With item 1 persisted and a backend
    whose second statement fails (the [UPDATE] of an update that changes the
    row, the [DELETE] of a delete), [update_item] and [delete_item] end with
    the backend's own [SQLAlchemyError], not with an [HTTPException], and so
    does [get_item] when its lookup fails; [clear_data] ends with
    SQLAlchemy's [ObjectNotExecutableError] on a healthy backend already;
    and an id beyond 64 bits ends [get_item] with the driver's
    [OverflowError].  On the same faults [create_item] and [get_all_items]
    do turn the error into a 500. *)
Theorem update_item_propagates_backend_error :
  let locked := "(sqlite3.OperationalError) database is locked" in
  let w := mkWorld [Runs.laptop_row 1] [] [None; Some locked] [] in
  let w' := mkWorld [Runs.laptop_row 1] [] [] [] in
  Database.update_item 1 Runs.desktop w
  = (Raise (sqlalchemy_pkg, 0%nat) (SQLAlchemyError locked), w')
  /\ Fastapi.http_status 200 (fst (App.update_item 1 Runs.desktop w)) = 500
  /\ Database.delete_item 1 w
     = (Raise (sqlalchemy_pkg, 0%nat) (SQLAlchemyError locked), w')
  /\ Database.get_item 1 (mkWorld [Runs.laptop_row 1] [] [Some locked] [])
     = (Raise (sqlalchemy_pkg, 0%nat) (SQLAlchemyError locked), w')
  /\ Database.clear_data w'
     = (Raise (sqlalchemy_pkg, 0%nat)
          (SQLAlchemyError "Not an executable object: 'PRAGMA foreign_keys = OFF;'"),
        w')
  /\ Database.get_item 9223372036854775808 w'
     = (Raise (sqlite3_pkg, 0%nat)
          (OverflowError "Python int too large to convert to SQLite INTEGER"), w')
  /\ Database.create_item Runs.laptop w
     = (Raise (database_py, 73%nat)
          (HTTPException 500
             "Error creating item: (sqlite3.OperationalError) database is locked"),
        mkWorld [Runs.laptop_row 1; Runs.laptop_row 2] [] [] [])
  /\ Database.get_all_items (mkWorld [Runs.laptop_row 1] [] [Some locked] [])
     = (Raise (database_py, 93%nat)
          (HTTPException 500
             "Database error: (sqlite3.OperationalError) database is locked"),
        w').
Proof. cbv zeta. repeat split. Qed.

(** ** Properties of the tables that every call keeps *)

Section TableRules.

Variable I : list ItemModel.t -> list UserModel.t -> Prop.

Lemma kt_ret {A} (a : A) : keeps_tables I (ret a).
Proof. intros w Hw. exact Hw. Qed.

Lemma kt_raise {A} l e : keeps_tables I (@raise_at A l e).
Proof. intros w Hw. exact Hw. Qed.

Lemma kt_bind {A B} (m : M A) (k : A -> M B) :
  keeps_tables I m -> (forall a, keeps_tables I (k a)) ->
  keeps_tables I (bind m k).
Proof.
  intros Hm Hk. unfold keeps_tables in *.
  eapply hoare_bind; [exact Hm | exact Hk].
Qed.

Lemma kt_try {A} (m : M A) (h : string -> M A) :
  keeps_tables I m -> (forall msg, keeps_tables I (h msg)) ->
  keeps_tables I (try_except_SQLAlchemyError m h).
Proof.
  intros Hm Hh. unfold keeps_tables in *.
  eapply hoare_try; [exact Hm | | | ].
  - auto.
  - auto.
  - intros l msg. apply Hh.
Qed.

Lemma kt_dbapi : keeps_tables I Backend.dbapi.
Proof.
  intros w Hw. pose proof (dbapi_tables w) as (Hi & Hu & _).
  destruct (Backend.dbapi w) as [[[]|l e] w1]; simpl in Hi, Hu;
    now rewrite Hi, Hu.
Qed.

(** The driver's check of an integer parameter: what follows it may rely
    on the integer fitting. *)
Lemma kt_sqlite_int {A} (z : Z) (k : M A) :
  (Sqlite.int64 z = true -> keeps_tables I k) ->
  keeps_tables I (bind (Backend.sqlite_int z) (fun _ => k)).
Proof.
  intros Hk. unfold keeps_tables. apply hoare_sqlite_int.
  - exact Hk.
  - intros w Hw _. exact Hw.
Qed.

Lemma kt_get_world_then {A} (k : world -> M A) :
  (forall w0, keeps_tables I (k w0)) -> keeps_tables I (bind get_world k).
Proof. intros Hk w Hw. unfold bind, get_world. apply (Hk w w Hw). Qed.

(** A statement that reads the store after a round trip and decides on
    what it read. *)
Lemma kt_dbapi_then {A} (k : world -> M A) :
  (forall w, I (items w) (users w) ->
     match k w w with
     | (_, w') => I (items w') (users w')
     end) ->
  keeps_tables I (bind Backend.dbapi (fun _ => bind get_world k)).
Proof.
  intros Hk. apply kt_bind; [apply kt_dbapi|]. intros _ w Hw.
  unfold bind, get_world. specialize (Hk w Hw).
  destruct (k w w) as [[a|l e] w1]; exact Hk.
Qed.

Lemma kt_engine_begin {A} (body : M A) :
  keeps_tables I body -> keeps_tables I (Backend.engine_begin body).
Proof. intros Hb. exact Hb. Qed.

Lemma kt_for_each {A} (xs : list A) (body : A -> M unit) :
  (forall x, keeps_tables I (body x)) ->
  keeps_tables I (Backend.for_each xs body).
Proof.
  intros Hb. induction xs as [|x xs IH]; simpl.
  - apply kt_ret.
  - apply kt_bind; [apply Hb | intros _; exact IH].
Qed.

Lemma kt_discard {A} (m : M A) :
  keeps_tables I m -> keeps_tables I (Store.discard m).
Proof.
  intros Hm. unfold Store.discard.
  apply kt_bind; [exact Hm | intros a; apply kt_ret].
Qed.

(** *** The statements that only read *)

Lemma kt_select_item_first (item_id : Z) :
  keeps_tables I (Backend.select_item_first item_id).
Proof.
  apply kt_sqlite_int. intros _.
  apply kt_dbapi_then. intros w Hw. exact Hw.
Qed.

Lemma kt_select_items_all : keeps_tables I Backend.select_items_all.
Proof. apply kt_dbapi_then. intros w Hw. exact Hw. Qed.

Lemma kt_select_user_first (user_id : Z) :
  keeps_tables I (Backend.select_user_first user_id).
Proof.
  apply kt_get_world_then. intros w0. apply kt_bind.
  - destruct (Backend.user_id_fits user_id (users w0)); [apply kt_ret|].
    intros w Hw. unfold Backend.sqlite_int.
    destruct (Sqlite.int64 user_id); exact Hw.
  - intros _. apply kt_dbapi_then. intros w Hw. exact Hw.
Qed.

Lemma kt_select_user_by_email_first (email : string) :
  keeps_tables I (Backend.select_user_by_email_first email).
Proof. apply kt_dbapi_then. intros w Hw. exact Hw. Qed.

Lemma kt_refresh_item (db_item : ItemModel.t) :
  keeps_tables I (Backend.refresh_item db_item).
Proof.
  apply kt_bind; [apply kt_select_item_first|].
  intros [row|]; [apply kt_ret | apply kt_raise].
Qed.

Lemma kt_refresh_user (db_user : UserModel.t) :
  keeps_tables I (Backend.refresh_user db_user).
Proof.
  apply kt_bind; [apply kt_select_user_first|].
  intros [row|]; [apply kt_ret | apply kt_raise].
Qed.

Lemma kt_get_item (item_id : Z) : keeps_tables I (Database.get_item item_id).
Proof.
  apply kt_bind; [apply kt_select_item_first|].
  intros [it|]; [apply kt_ret | apply kt_raise].
Qed.

Lemma kt_get_item_by_id (item_id : Z) :
  keeps_tables I (Database.get_item_by_id item_id).
Proof. apply kt_select_item_first. Qed.

Lemma kt_get_all_items : keeps_tables I Database.get_all_items.
Proof.
  apply kt_try; [apply kt_select_items_all|].
  intros msg. apply kt_raise.
Qed.

Lemma kt_get_user (user_id : Z) : keeps_tables I (Database.get_user user_id).
Proof.
  apply kt_bind; [apply kt_select_user_first|].
  intros [u|]; [apply kt_ret | apply kt_raise].
Qed.

Lemma kt_get_user_by_email (email : string) :
  keeps_tables I (Database.get_user_by_email email).
Proof. apply kt_select_user_by_email_first. Qed.

Lemma kt_create_all : keeps_tables I Backend.create_all.
Proof. apply kt_for_each. intros tb. apply kt_dbapi. Qed.

Lemma kt_init_db : keeps_tables I Database.init_db.
Proof. apply kt_engine_begin. apply kt_create_all. Qed.

(** [clear_data] stops at its first [conn.execute]. *)
Lemma kt_clear_data : keeps_tables I Database.clear_data.
Proof.
  apply kt_engine_begin. apply kt_bind; [apply kt_raise|]. intros _.
  apply kt_bind; [|intros _; apply kt_raise].
  apply kt_for_each. intros tb. apply kt_raise.
Qed.

Lemma kt_app_get_item (item_id : Z) : keeps_tables I (App.get_item item_id).
Proof.
  apply kt_bind; [apply kt_get_item|].
  intros [it|]; [apply kt_ret | apply kt_raise].
Qed.

(** *** The statements that write, each under the one closure it needs *)

Lemma kt_store_item (w : world) (r : ItemModel.t) :
  (forall l u x, I l u ->
     ~ In (ItemModel.id x) (map ItemModel.id l) ->
     I (Backend.insert_row x l) u) ->
  Sqlite.row_fits r = true ->
  ~ In (ItemModel.id r) (map ItemModel.id (items w)) ->
  I (items w) (users w) ->
  match Backend.store_item w r w with
  | (_, w') => I (items w') (users w')
  end.
Proof.
  intros Hins Hr Hfresh Hw. unfold Backend.store_item, bind, put_world, ret.
  rewrite (items_after_insert w r Hr), users_set_items. now apply Hins.
Qed.

Lemma kt_insert_item (kw : ItemSchema.t) :
  (forall l u r, I l u ->
     ~ In (ItemModel.id r) (map ItemModel.id l) ->
     I (Backend.insert_row r l) u) ->
  keeps_tables I (Backend.insert_item kw).
Proof.
  intros Hins. unfold Backend.insert_item.
  assert (Hrest : (forall i, ItemSchema.id kw = Some i -> Sqlite.int64 i = true) ->
    keeps_tables I
      (bind (Backend.sqlite_int (ItemSchema.stock kw))
         (fun _ => bind Backend.dbapi (fun _ => bind get_world (fun w =>
            if Backend.is_nan (ItemSchema.price kw) then
              raise_at (sqlalchemy_pkg, 0%nat)
                (SQLAlchemyError "(sqlite3.IntegrityError) NOT NULL constraint failed: items.price")
            else
              match ItemSchema.id kw with
              | Some i =>
                  if existsb (Backend.item_has_id i) (items w) then
                    raise_at (sqlalchemy_pkg, 0%nat)
                      (SQLAlchemyError "(sqlite3.IntegrityError) UNIQUE constraint failed: items.id")
                  else Backend.store_item w (Backend.new_item i kw)
              | None =>
                  match Backend.assign_rowid (map ItemModel.id (items w)) (rowids w) with
                  | Some (i, rest) =>
                      Backend.store_item (set_rowids w rest) (Backend.new_item i kw)
                  | None =>
                      raise_at (sqlalchemy_pkg, 0%nat)
                        (SQLAlchemyError "(sqlite3.OperationalError) database or disk is full")
                  end
              end))))).
  { intros Hid. apply kt_sqlite_int. intros Hs.
    apply kt_dbapi_then. intros w Hw.
    destruct (Backend.is_nan (ItemSchema.price kw)); [exact Hw|].
    destruct (ItemSchema.id kw) as [i|].
    - destruct (existsb (Backend.item_has_id i) (items w)) eqn:E; [exact Hw|].
      apply kt_store_item; [exact Hins | | | exact Hw].
      + apply new_item_fits; [now apply Hid | exact Hs].
      + now apply existsb_item_absent.
    - destruct (Backend.assign_rowid (map ItemModel.id (items w)) (rowids w))
        as [[i rest]|] eqn:E; [|exact Hw].
      apply (assign_rowid_spec _ _ _ _ (persisted_id_fits w)) in E.
      destruct E as (Hfresh & Hfit & _).
      apply (kt_store_item (set_rowids w rest));
        [exact Hins | | exact Hfresh | exact Hw].
      now apply new_item_fits. }
  destruct (ItemSchema.id kw) as [i|].
  - apply kt_sqlite_int. intros Hi. apply Hrest. intros j [= <-]. exact Hi.
  - apply kt_bind; [apply kt_ret|]. intros _. apply Hrest. discriminate.
Qed.

Lemma kt_update_item_row (loaded item : ItemModel.t) :
  (forall l u, I l u -> I (Backend.update_rows loaded item l) u) ->
  keeps_tables I (Backend.update_item_row loaded item).
Proof.
  intros Hupd. unfold Backend.update_item_row.
  destruct (Backend.modified loaded item); [|apply kt_ret].
  assert (Hrest :
    (Backend.stock_changed loaded item = true ->
     Sqlite.int64 (ItemModel.stock item) = true) ->
    keeps_tables I
      (bind Backend.dbapi (fun _ => bind get_world (fun w =>
         if Backend.is_nan (ItemModel.price item) then
           raise_at (sqlalchemy_pkg, 0%nat)
             (SQLAlchemyError "(sqlite3.IntegrityError) NOT NULL constraint failed: items.price")
         else if existsb (Backend.item_has_id (ItemModel.id loaded)) (items w) then
           put_world (set_items w (Backend.update_rows loaded item (items w)))
         else
           raise_at (sqlalchemy_pkg, 0%nat)
             (SQLAlchemyError "UPDATE statement on table 'items' expected to update 1 row(s); 0 were matched."))))).
  { intros Hs. apply kt_dbapi_then. intros w Hw.
    destruct (Backend.is_nan (ItemModel.price item)); [exact Hw|].
    destruct (existsb (Backend.item_has_id (ItemModel.id loaded)) (items w));
      [|exact Hw].
    simpl. rewrite items_set_items.
    - now apply Hupd.
    - apply rows_fit_after_update; [exact Hs | apply items_fit]. }
  destruct (Backend.stock_changed loaded item).
  - apply kt_sqlite_int. intros Hs. apply Hrest. intros _. exact Hs.
  - apply kt_bind; [apply kt_ret|]. intros _. apply Hrest. discriminate.
Qed.

Lemma kt_delete_item_row (db_item : ItemModel.t) :
  (forall l u, I l u ->
     I (filter (fun r => negb (Backend.item_has_id (ItemModel.id db_item) r)) l) u) ->
  keeps_tables I (Backend.delete_item_row db_item).
Proof.
  intros Hdel. apply kt_dbapi_then. intros w Hw. simpl.
  rewrite items_after_delete. now apply Hdel.
Qed.

Lemma kt_insert_user (email hashed : string) :
  (forall l u, I l u ->
     ~ In email (map UserModel.email u) ->
     I l (u ++ [UserModel.mk (Backend.next_rowid (map UserModel.id u))
                  email hashed])) ->
  keeps_tables I (Backend.insert_user email hashed).
Proof.
  intros Hins. apply kt_dbapi_then. intros w Hw.
  destruct (existsb (Backend.user_has_email email) (users w)) eqn:E.
  - exact Hw.
  - simpl. apply Hins; [exact Hw|]. now apply existsb_user_absent.
Qed.

Lemma kt_create_item (item : ItemSchema.t) :
  (forall l u r, I l u ->
     ~ In (ItemModel.id r) (map ItemModel.id l) ->
     I (Backend.insert_row r l) u) ->
  keeps_tables I (Database.create_item item).
Proof.
  intros Hins. apply kt_try.
  - apply kt_bind; [now apply kt_insert_item|].
    intros db_item. apply kt_refresh_item.
  - intros msg. apply kt_raise.
Qed.

Lemma kt_update_item (item_id : Z) (item_data : ItemSchema.t) :
  (forall loaded item l u, I l u -> I (Backend.update_rows loaded item l) u) ->
  keeps_tables I (Database.update_item item_id item_data).
Proof.
  intros Hupd. apply kt_bind; [apply kt_select_item_first|].
  intros [item0|]; [|apply kt_raise]. cbv zeta.
  apply kt_bind.
  - apply kt_update_item_row. apply Hupd.
  - intros _. apply kt_ret.
Qed.

Lemma kt_delete_item (item_id : Z) :
  (forall k l u, I l u ->
     I (filter (fun r => negb (Backend.item_has_id k r)) l) u) ->
  keeps_tables I (Database.delete_item item_id).
Proof.
  intros Hdel. apply kt_bind; [apply kt_get_item|].
  intros [it|]; [|apply kt_raise].
  apply kt_bind; [|intros _; apply kt_ret].
  apply kt_delete_item_row. apply Hdel.
Qed.

Lemma kt_update_route (item_id : Z) (item : ItemSchema.t) :
  keeps_tables I (Database.update_item item_id item) ->
  keeps_tables I (App.update_item item_id item).
Proof.
  intros H. apply kt_bind; [exact H|].
  intros [it|]; [apply kt_ret | apply kt_raise].
Qed.

Lemma kt_delete_route (item_id : Z) :
  keeps_tables I (Database.delete_item item_id) ->
  keeps_tables I (App.delete_item item_id).
Proof.
  intros H. apply kt_bind; [exact H|].
  intros [it|]; [apply kt_ret | apply kt_raise].
Qed.

Lemma kt_reset_database :
  (forall l u, I l u -> I [] u) -> (forall l u, I l u -> I l []) ->
  keeps_tables I Database.reset_database.
Proof.
  intros Hci Hcu. apply kt_engine_begin.
  apply kt_bind; [|intros _; apply kt_create_all].
  apply kt_for_each. intros tb. apply kt_dbapi_then. intros w Hw.
  destruct tb; simpl; [now apply (Hci (items w)) | now apply (Hcu _ (users w))].
Qed.

Context `{pwd_context : CryptContext}.

Lemma kt_pwd_context_hash (password : string) :
  keeps_tables I (pwd_context_hash password).
Proof. intros w Hw. exact Hw. Qed.

Lemma kt_create_user (user : UserSchema.t) :
  (forall hashed l u, I l u ->
     ~ In (UserSchema.email user) (map UserModel.email u) ->
     I l (u ++ [UserModel.mk (Backend.next_rowid (map UserModel.id u))
                  (UserSchema.email user) hashed])) ->
  keeps_tables I (Database.create_user user).
Proof.
  intros Hins. apply kt_try; [|intros msg; apply kt_raise].
  apply kt_bind; [apply kt_select_user_by_email_first|].
  intros [u|]; [apply kt_raise|].
  apply kt_bind; [apply kt_pwd_context_hash|]. intros hashed.
  apply kt_bind; [apply kt_insert_user; apply Hins|]. intros db_user.
  apply kt_refresh_user.
Qed.

Lemma kt_register (user : UserSchema.t) :
  keeps_tables I (Database.create_user user) ->
  keeps_tables I (App.register user).
Proof.
  intros H. apply kt_bind; [apply kt_get_user_by_email|].
  intros [u|]; [apply kt_raise|].
  apply kt_bind; [exact H | intros db_user; apply kt_ret].
Qed.

Lemma kt_login (form_data : UserSchema.t) : keeps_tables I (App.login form_data).
Proof.
  apply kt_bind; [apply kt_get_user_by_email|].
  intros [u|]; [|apply kt_raise].
  apply kt_bind; [intros w Hw; exact Hw|].
  intros ok. destruct (negb ok); [apply kt_raise | apply kt_ret].
Qed.

(** Every method of [Database] keeps a table invariant. *)
Lemma kt_perform (c : Store.call) :
  table_invariant I -> keeps_tables I (Store.perform c).
Proof.
  intros [Hii Hui Hdi Hiu Hci Hcu].
  destruct c; simpl; try apply kt_discard.
  - apply kt_init_db.
  - apply kt_clear_data.
  - now apply kt_reset_database.
  - apply kt_create_item. intros l u. apply Hii.
  - apply kt_get_item.
  - apply kt_get_all_items.
  - apply kt_update_item. intros loaded it l u. apply Hui.
  - apply kt_delete_item. intros k l u. apply Hdi.
  - apply kt_create_user. intros hashed l u. apply Hiu.
  - apply kt_get_user.
  - apply kt_get_user_by_email.
Qed.

End TableRules.

(** ** What each statement does to the tables, whatever the faults *)

Section StatementOutcomes.

Variable l0 : list ItemModel.t.
Variable u0 : list UserModel.t.

Lemma dbapi_outcome (w : world) :
  match Backend.dbapi w with
  | (Ok _, w1) => items w1 = items w /\ users w1 = users w
  | (Raise l e, w1) => items w1 = items w /\ users w1 = users w /\ raw_fault l e
  end.
Proof.
  unfold Backend.dbapi, raw_fault.
  destruct (faults w) as [|[msg|] fs]; simpl; eauto 6.
Qed.

(** A statement that reads the store after a round trip and decides on
    what it read. *)
Lemma hoare_dbapi_then {A} (k : world -> M A)
  (Q : A -> world -> Prop) (E : loc -> exn -> world -> Prop) :
  (forall w, tables_are l0 u0 w ->
     match k w w with
     | (Ok a, w') => Q a w'
     | (Raise l e, w') => E l e w'
     end) ->
  (forall w l e, tables_are l0 u0 w -> raw_fault l e -> E l e w) ->
  hoare (tables_are l0 u0) (bind Backend.dbapi (fun _ => bind get_world k)) Q E.
Proof.
  intros Hk Hraw w [Hi Hu]. unfold bind at 1.
  pose proof (dbapi_outcome w) as H.
  destruct (Backend.dbapi w) as [[[]|l e] w1].
  - destruct H as [Hi1 Hu1]. unfold bind, get_world.
    apply Hk. split; congruence.
  - destruct H as (Hi1 & Hu1 & Hr). apply Hraw; [split; congruence | exact Hr].
Qed.

Lemma hoare_skip {A} (P : world -> Prop) (k : M A)
  (Q : A -> world -> Prop) (E : loc -> exn -> world -> Prop) :
  hoare P k Q E -> hoare P (bind (ret tt) (fun _ => k)) Q E.
Proof. intros Hk w Hw. unfold bind, ret. apply (Hk w Hw). Qed.

Lemma raw_is_refused (fits : bool) (w : world) l e :
  tables_are l0 u0 w -> raw_fault l e -> statement_refused l0 u0 fits l e w.
Proof. intros Hw Hr. split; [exact Hw | now left]. Qed.

Lemma overflow_is_refused (fits : bool) (w : world) :
  tables_are l0 u0 w -> fits = false ->
  statement_refused l0 u0 fits (sqlite3_pkg, 0%nat)
    (OverflowError "Python int too large to convert to SQLite INTEGER") w.
Proof.
  intros Hw Hbig. split; [exact Hw|]. right.
  split; [split; reflexivity | exact Hbig].
Qed.

Lemma select_item_first_outcome (item_id : Z) :
  hoare (tables_are l0 u0) (Backend.select_item_first item_id)
        (fun r w => tables_are l0 u0 w
                    /\ r = find (Backend.item_has_id item_id) l0
                    /\ Sqlite.int64 item_id = true)
        (statement_refused l0 u0 (Sqlite.int64 item_id)).
Proof.
  apply hoare_sqlite_int.
  - intros Hfit. apply hoare_dbapi_then.
    + intros w [Hi Hu]. simpl. rewrite Hi. repeat split; assumption.
    + intros w l e. apply raw_is_refused.
  - intros w. apply overflow_is_refused.
Qed.

Lemma select_items_all_outcome :
  hoare (tables_are l0 u0) Backend.select_items_all
        (fun r w => tables_are l0 u0 w /\ r = l0) (statement_failed l0 u0).
Proof.
  apply hoare_dbapi_then.
  - intros w [Hi Hu]. simpl. repeat split; assumption.
  - intros w l e Hw Hr. split; assumption.
Qed.

Lemma select_user_first_outcome (user_id : Z) :
  hoare (tables_are l0 u0) (Backend.select_user_first user_id)
        (fun r w => tables_are l0 u0 w
                    /\ r = find (Backend.user_has_id user_id) u0)
        (statement_refused l0 u0 (Backend.user_id_fits user_id u0)).
Proof.
  intros w Hw. pose proof Hw as [Hi Hu].
  destruct (Backend.user_id_fits user_id u0) eqn:Efit.
  - rewrite select_user_first_run by (now rewrite Hu).
    apply (hoare_dbapi_then
             (fun w1 => ret (find (Backend.user_has_id user_id) (users w1)))).
    + intros w1 [Hi1 Hu1]. simpl. rewrite Hu1. repeat split; assumption.
    + intros w1 l e. apply raw_is_refused.
    + exact Hw.
  - assert (Ebig : Sqlite.int64 user_id = false).
    { unfold Backend.user_id_fits in Efit. now apply orb_false_iff in Efit. }
    unfold Backend.select_user_first, bind, get_world, Backend.sqlite_int.
    rewrite Hu, Efit, Ebig.
    now apply overflow_is_refused.
Qed.

Lemma select_user_by_email_first_outcome (email : string) :
  hoare (tables_are l0 u0) (Backend.select_user_by_email_first email)
        (fun r w => tables_are l0 u0 w
                    /\ r = find (Backend.user_has_email email) u0)
        (statement_failed l0 u0).
Proof.
  apply hoare_dbapi_then.
  - intros w [Hi Hu]. simpl. rewrite Hu. repeat split; assumption.
  - intros w l e Hw Hr. split; assumption.
Qed.

(** The row an [INSERT] stores, and the table after it. *)
Lemma store_item_outcome (kw : ItemSchema.t) (w0 w : world) (i : Z) :
  items w0 = l0 -> users w0 = u0 ->
  ~ In i (map ItemModel.id l0) ->
  Sqlite.int64 i = true ->
  Sqlite.int64 (ItemSchema.stock kw) = true ->
  Backend.is_nan (ItemSchema.price kw) = false ->
  (forall j, ItemSchema.id kw = Some j -> i = j) ->
  (ItemSchema.id kw = None -> counts_up l0 ->
   i = Backend.next_rowid (map ItemModel.id l0)) ->
  match Backend.store_item w0 (Backend.new_item i kw) w with
  | (Ok r, w') =>
      inserted_from kw l0 r /\ tables_are (Backend.insert_row r l0) u0 w'
  | (Raise l e, w') => statement_refused l0 u0 (payload_fits kw) l e w'
  end.
Proof.
  intros Hi Hu Hfresh Hkey Hs Hnan Hgiven Hnext.
  unfold Backend.store_item, bind, put_world, ret.
  pose proof (new_item_fits i kw Hkey Hs) as Hfit.
  split.
  - unfold inserted_from. simpl. repeat split; auto.
  - split.
    + rewrite (items_after_insert w0 _ Hfit). now rewrite Hi.
    + exact Hu.
Qed.

Lemma insert_item_outcome (kw : ItemSchema.t) :
  hoare (tables_are l0 u0) (Backend.insert_item kw)
        (fun r w => inserted_from kw l0 r
                    /\ tables_are (Backend.insert_row r l0) u0 w)
        (statement_refused l0 u0 (payload_fits kw)).
Proof.
  unfold Backend.insert_item.
  destruct (ItemSchema.id kw) as [i|] eqn:Eid.
  - apply hoare_sqlite_int.
    + intros Hkey. apply hoare_sqlite_int.
      * intros Hs. apply hoare_dbapi_then.
        -- intros w [Hi Hu].
           destruct (Backend.is_nan (ItemSchema.price kw)) eqn:Enan.
           { apply raw_is_refused; [now split|]. split; [reflexivity|eauto]. }
           rewrite Hi.
           destruct (existsb (Backend.item_has_id i) l0) eqn:E.
           { apply raw_is_refused; [now split|]. split; [reflexivity|eauto]. }
           apply store_item_outcome; auto.
           ++ now apply existsb_item_absent.
           ++ intros j Hj. congruence.
           ++ rewrite Eid. discriminate.
        -- intros w l e. apply raw_is_refused.
      * intros w Hw Hbig. apply overflow_is_refused; [exact Hw|].
        unfold payload_fits. rewrite Hbig. apply andb_false_r.
    + intros w Hw Hbig. apply overflow_is_refused; [exact Hw|].
      unfold payload_fits. now rewrite Eid, Hbig.
  - apply hoare_skip. apply hoare_sqlite_int.
    + intros Hs. apply hoare_dbapi_then.
      * intros w [Hi Hu].
        destruct (Backend.is_nan (ItemSchema.price kw)) eqn:Enan.
        { apply raw_is_refused; [now split|]. split; [reflexivity|eauto]. }
        destruct (Backend.assign_rowid (map ItemModel.id (items w)) (rowids w))
          as [[i rest]|] eqn:E.
        2:{ apply raw_is_refused; [now split|]. split; [reflexivity|eauto]. }
        apply (assign_rowid_spec _ _ _ _ (persisted_id_fits w)) in E.
        rewrite Hi in E. destruct E as (Hfresh & Hfit & Hnext).
        apply store_item_outcome; auto.
        rewrite Eid. discriminate.
      * intros w l e. apply raw_is_refused.
    + intros w Hw Hbig. apply overflow_is_refused; [exact Hw|].
      unfold payload_fits. rewrite Hbig. apply andb_false_r.
Qed.

Lemma update_item_row_outcome (loaded item : ItemModel.t) :
  hoare (tables_are l0 u0) (Backend.update_item_row loaded item)
        (fun _ w =>
           tables_are (if Backend.modified loaded item
                       then Backend.update_rows loaded item l0 else l0) u0 w
           /\ (Backend.modified loaded item = true ->
               Backend.is_nan (ItemModel.price item) = false
               /\ In (ItemModel.id loaded) (map ItemModel.id l0)))
        (statement_refused l0 u0
           (negb (Backend.stock_changed loaded item)
            || Sqlite.int64 (ItemModel.stock item))).
Proof.
  unfold Backend.update_item_row.
  destruct (Backend.modified loaded item).
  2:{ intros w Hw. simpl. split; [exact Hw | discriminate]. }
  assert (Hrest :
    (Backend.stock_changed loaded item = true ->
     Sqlite.int64 (ItemModel.stock item) = true) ->
    hoare (tables_are l0 u0)
      (bind Backend.dbapi (fun _ => bind get_world (fun w =>
         if Backend.is_nan (ItemModel.price item) then
           raise_at (sqlalchemy_pkg, 0%nat)
             (SQLAlchemyError "(sqlite3.IntegrityError) NOT NULL constraint failed: items.price")
         else if existsb (Backend.item_has_id (ItemModel.id loaded)) (items w) then
           put_world (set_items w (Backend.update_rows loaded item (items w)))
         else
           raise_at (sqlalchemy_pkg, 0%nat)
             (SQLAlchemyError "UPDATE statement on table 'items' expected to update 1 row(s); 0 were matched."))))
      (fun _ w =>
         tables_are (Backend.update_rows loaded item l0) u0 w
         /\ (true = true ->
             Backend.is_nan (ItemModel.price item) = false
             /\ In (ItemModel.id loaded) (map ItemModel.id l0)))
      (statement_refused l0 u0
         (negb (Backend.stock_changed loaded item)
          || Sqlite.int64 (ItemModel.stock item)))).
  { intros Hs. apply hoare_dbapi_then.
    - intros w [Hi Hu].
      destruct (Backend.is_nan (ItemModel.price item)) eqn:Enan.
      { apply raw_is_refused; [now split|]. split; [reflexivity|eauto]. }
      rewrite Hi.
      destruct (existsb (Backend.item_has_id (ItemModel.id loaded)) l0) eqn:E.
      2:{ apply raw_is_refused; [now split|]. split; [reflexivity|eauto]. }
      simpl. split.
      + split; [|exact Hu]. apply items_set_items.
        apply rows_fit_after_update; [exact Hs|]. rewrite <- Hi. apply items_fit.
      + intros _. split; [reflexivity | now apply existsb_item_present].
    - intros w l e. apply raw_is_refused. }
  destruct (Backend.stock_changed loaded item).
  - apply hoare_sqlite_int.
    + intros Hs. apply Hrest. intros _. exact Hs.
    + intros w Hw Hbig. apply overflow_is_refused; [exact Hw|]. now rewrite Hbig.
  - apply hoare_skip. apply Hrest. discriminate.
Qed.

Lemma delete_item_row_outcome (db_item : ItemModel.t) :
  hoare (tables_are l0 u0) (Backend.delete_item_row db_item)
        (fun _ w =>
           tables_are
             (filter (fun r => negb (Backend.item_has_id (ItemModel.id db_item) r)) l0)
             u0 w)
        (statement_failed l0 u0).
Proof.
  apply hoare_dbapi_then.
  - intros w [Hi Hu]. simpl. split; [|exact Hu].
    rewrite items_after_delete. now rewrite Hi.
  - intros w l e Hw Hr. split; assumption.
Qed.

Lemma insert_user_outcome (email hashed : string) :
  hoare (tables_are l0 u0) (Backend.insert_user email hashed)
        (fun r w =>
           r = UserModel.mk (Backend.next_rowid (map UserModel.id u0)) email hashed
           /\ ~ In email (map UserModel.email u0)
           /\ tables_are l0 (u0 ++ [r]) w)
        (statement_failed l0 u0).
Proof.
  apply hoare_dbapi_then.
  - intros w [Hi Hu]. rewrite Hu.
    destruct (existsb (Backend.user_has_email email) u0) eqn:E.
    + simpl. split; [split; assumption|]. split; [reflexivity|]. eauto.
    + simpl. split; [reflexivity|]. split.
      * now apply existsb_user_absent.
      * split; [exact Hi | reflexivity].
  - intros w l e Hw Hr. split; assumption.
Qed.

End StatementOutcomes.

(** ** What each item method does, whatever the faults *)

Section ItemOutcomes.

Variable l0 : list ItemModel.t.
Variable u0 : list UserModel.t.

(** The row just inserted is the one [refresh] loads. *)
Lemma refresh_item_inserted (l : list ItemModel.t) (x : ItemModel.t) :
  ~ In (ItemModel.id x) (map ItemModel.id l) ->
  Sqlite.row_fits x = true ->
  hoare (tables_are (Backend.insert_row x l) u0) (Backend.refresh_item x)
        (fun r w => r = x /\ tables_are (Backend.insert_row x l) u0 w)
        (statement_failed (Backend.insert_row x l) u0).
Proof.
  intros Hfresh Hfit. unfold Backend.refresh_item.
  eapply hoare_bind.
  - eapply hoare_consequence;
      [apply (select_item_first_outcome (Backend.insert_row x l) u0 (ItemModel.id x))
      | | | ].
    + auto.
    + intros a w H. exact H.
    + intros l1 e w [Ht [Hr|[_ Hbig]]]; [split; assumption|].
      rewrite (row_fits_id x Hfit) in Hbig. discriminate Hbig.
  - intros r w (Ht & -> & _). rewrite (find_item_inserted l x Hfresh).
    simpl. split; [reflexivity | exact Ht].
Qed.

Lemma create_item_hoare (item : ItemSchema.t) :
  hoare (tables_are l0 u0) (Database.create_item item)
        (fun r w =>
           inserted_from item l0 r
           /\ tables_are (Backend.insert_row r l0) u0 w)
        (fun l e w =>
           users w = u0
           /\ ((l = (database_py, 73%nat)
                /\ (exists msg,
                      e = HTTPException 500 ("Error creating item: " ++ msg)%string)
                /\ (items w = l0
                    \/ exists r, inserted_from item l0 r
                                 /\ items w = Backend.insert_row r l0))
               \/ (overflow_error l e
                   /\ payload_fits item = false
                   /\ items w = l0))).
Proof.
  unfold Database.create_item.
  eapply hoare_try with
    (E' := fun l e w =>
             users w = u0
             /\ (((exists msg, e = SQLAlchemyError msg)
                  /\ (items w = l0
                      \/ exists r, inserted_from item l0 r
                                   /\ items w = Backend.insert_row r l0))
                 \/ (overflow_error l e
                     /\ payload_fits item = false
                     /\ items w = l0))).
  - eapply hoare_bind.
    + eapply hoare_consequence; [apply (insert_item_outcome l0 u0 item) | | | ].
      * auto.
      * intros a w H. exact H.
      * intros l e w [[Hi Hu] [[_ Hmsg]|[Ho Hbig]]]; (split; [exact Hu|]).
        -- left. auto.
        -- right. auto.
    + intros db_item w (Hfrom & Ht).
      pose proof Hfrom as (_ & Hfresh & Hfit & _).
      pose proof (refresh_item_inserted l0 db_item Hfresh Hfit w Ht) as H.
      destruct (Backend.refresh_item db_item w) as [[r|l e] w1].
      * destruct H as [-> Ht1]. auto.
      * destruct H as [[Hi Hu] [_ Hmsg]]. split; [exact Hu|]. left.
        split; [exact Hmsg|]. right. exists db_item. auto.
  - intros l c d w [_ [[[msg Hmsg] _]|[[_ Ho] _]]]; discriminate.
  - intros l msg w [Hu [[[m Hm] _]|H]]; [discriminate Hm|].
    split; [exact Hu | now right].
  - intros l msg w [Hu [[_ Hi]|[[_ Ho] _]]]; [|discriminate Ho]. simpl.
    split; [exact Hu|]. left.
    split; [reflexivity|]. split; [now exists msg | exact Hi].
Qed.

Lemma get_item_hoare (item_id : Z) :
  hoare (tables_are l0 u0) (Database.get_item item_id)
        (fun r w =>
           tables_are l0 u0 w
           /\ exists it, r = Some it
                /\ find (Backend.item_has_id item_id) l0 = Some it)
        (fun l e w =>
           tables_are l0 u0 w
           /\ ((l = (database_py, 83%nat)
                /\ e = HTTPException 404 "Item not found"
                /\ find (Backend.item_has_id item_id) l0 = None
                /\ Sqlite.int64 item_id = true)
               \/ raw_fault l e
               \/ (overflow_error l e /\ Sqlite.int64 item_id = false))).
Proof.
  unfold Database.get_item.
  eapply hoare_bind.
  - eapply hoare_consequence;
      [apply (select_item_first_outcome l0 u0 item_id) | | | ].
    + auto.
    + intros a w H. exact H.
    + intros l e w [Ht Hr]. split; [exact Ht | now right].
  - intros r w (Ht & -> & Hfit).
    destruct (find (Backend.item_has_id item_id) l0) as [it|] eqn:E; simpl.
    + split; [exact Ht|]. exists it. auto.
    + split; [exact Ht|]. left. auto.
Qed.

Lemma get_all_items_hoare :
  hoare (tables_are l0 u0) Database.get_all_items
        (fun r w => tables_are l0 u0 w /\ r = l0)
        (fun l e w =>
           tables_are l0 u0 w
           /\ l = (database_py, 93%nat)
           /\ exists msg, e = HTTPException 500 ("Database error: " ++ msg)%string).
Proof.
  unfold Database.get_all_items.
  eapply hoare_try with (E' := statement_failed l0 u0).
  - apply select_items_all_outcome.
  - intros l c d w [_ [_ [msg Hmsg]]]. discriminate Hmsg.
  - intros l msg w [_ [_ [m Hm]]]. discriminate Hm.
  - intros l msg w [Ht _]. simpl. split; [exact Ht|].
    split; [reflexivity | now exists msg].
Qed.

Lemma update_item_hoare (item_id : Z) (item_data : ItemSchema.t) :
  hoare (tables_are l0 u0) (Database.update_item item_id item_data)
        (fun r w =>
           exists item0,
             find (Backend.item_has_id item_id) l0 = Some item0
             /\ r = Some (Database.assign_fields item0 item_data)
             /\ tables_are (updated_table item0 item_data l0) u0 w
             /\ (Backend.modified item0 (Database.assign_fields item0 item_data)
                 = true ->
                 Backend.is_nan (ItemSchema.price item_data) = false))
        (fun l e w =>
           tables_are l0 u0 w
           /\ ((l = (database_py, 101%nat)
                /\ e = HTTPException 404 "Item not found"
                /\ find (Backend.item_has_id item_id) l0 = None
                /\ Sqlite.int64 item_id = true)
               \/ raw_fault l e
               \/ (overflow_error l e
                   /\ (Sqlite.int64 item_id = false
                       \/ Sqlite.int64 (ItemSchema.stock item_data) = false)))).
Proof.
  unfold Database.update_item, Database.get_item_by_id.
  eapply hoare_bind.
  - eapply hoare_consequence;
      [apply (select_item_first_outcome l0 u0 item_id) | | | ].
    + auto.
    + intros a w H. exact H.
    + intros l e w [Ht [Hr|[Ho Hbig]]]; (split; [exact Ht|]).
      * right. now left.
      * right. right. auto.
  - intros r w (Ht & -> & Hfit).
    destruct (find (Backend.item_has_id item_id) l0) as [item0|] eqn:E.
    + cbv zeta.
      pose proof (update_item_row_outcome l0 u0 item0
                    (Database.assign_fields item0 item_data) w Ht) as H.
      unfold bind.
      destruct (Backend.update_item_row item0
                  (Database.assign_fields item0 item_data) w) as [[[]|l e] w1].
      * destruct H as [Ht1 Hm]. simpl. exists item0.
        split; [reflexivity|]. split; [reflexivity|]. split; [exact Ht1|].
        intros Hmod. now apply Hm.
      * destruct H as [Ht1 [Hr|[Ho Hbig]]]; (split; [exact Ht1|]).
        -- right. now left.
        -- right. right. split; [exact Ho|]. right.
           apply orb_false_iff in Hbig. now destruct Hbig.
    + simpl. split; [exact Ht|]. left. auto.
Qed.

Lemma delete_item_hoare (item_id : Z) :
  hoare (tables_are l0 u0) (Database.delete_item item_id)
        (fun r w =>
           exists it,
             find (Backend.item_has_id item_id) l0 = Some it
             /\ r = Some it
             /\ tables_are
                  (filter (fun x => negb (Backend.item_has_id item_id x)) l0)
                  u0 w)
        (fun l e w =>
           tables_are l0 u0 w
           /\ ((l = (database_py, 83%nat)
                /\ e = HTTPException 404 "Item not found"
                /\ find (Backend.item_has_id item_id) l0 = None
                /\ Sqlite.int64 item_id = true)
               \/ raw_fault l e
               \/ (overflow_error l e /\ Sqlite.int64 item_id = false))).
Proof.
  unfold Database.delete_item.
  eapply hoare_bind; [apply get_item_hoare|].
  intros r w [Ht (it & -> & Hfind)].
  apply find_item_id in Hfind as Hid. destruct Hid as [Hid _].
  pose proof (delete_item_row_outcome l0 u0 it w Ht) as H.
  unfold bind.
  destruct (Backend.delete_item_row it w) as [[[]|l e] w1].
  - simpl. exists it. split; [exact Hfind|]. split; [reflexivity|].
    now rewrite Hid in H.
  - destruct H as [Ht1 Hr]. split; [exact Ht1 | right; now left].
Qed.

End ItemOutcomes.

(** ** Items: which id a created record gets *)




(** ** Items: what the methods do to the table *)

Lemma inserted_from_same_fields (item : ItemSchema.t) (l : list ItemModel.t)
  (r : ItemModel.t) :
  inserted_from item l r -> same_fields item r.
Proof. intros [-> _]. repeat split. Qed.


Lemma dbapi_passes (w : world) (fs : list (option string)) :
  faults w = None :: fs -> Backend.dbapi w = (Ok tt, set_faults w fs).
Proof. unfold Backend.dbapi. now intros ->. Qed.

Lemma dbapi_fails (w : world) (msg : string) (fs : list (option string)) :
  faults w = Some msg :: fs ->
  Backend.dbapi w
  = (Raise (sqlalchemy_pkg, 0%nat) (SQLAlchemyError msg), set_faults w fs).
Proof. unfold Backend.dbapi. now intros ->. Qed.



Lemma find_other_filter (j k : Z) (l : list ItemModel.t) :
  j <> k ->
  find (Backend.item_has_id j)
    (filter (fun x => negb (Backend.item_has_id k x)) l)
  = find (Backend.item_has_id j) l.
Proof.
  intros Hjk. induction l as [|x l IH]; simpl; [reflexivity|].
  destruct (Backend.item_has_id k x) eqn:E; simpl.
  - apply item_has_id_true in E.
    assert (Hx : Backend.item_has_id j x = false)
      by (apply item_has_id_false; congruence).
    now rewrite Hx.
  - now rewrite IH.
Qed.

(** What a lookup finds after an [update_item] that loaded [item0]: a row
    with the payload's fields, its price equal to the payload's by Python's
    [==]. *)
Lemma find_in_updated_table (item0 : ItemModel.t) (p : ItemSchema.t)
  (l : list ItemModel.t) :
  find (Backend.item_has_id (ItemModel.id item0)) l = Some item0 ->
  (Backend.modified item0 (Database.assign_fields item0 p) = true ->
   Backend.is_nan (ItemSchema.price p) = false) ->
  exists row,
    find (Backend.item_has_id (ItemModel.id item0)) (updated_table item0 p l)
    = Some row
    /\ ItemModel.id row = ItemModel.id item0
    /\ ItemModel.name row = ItemSchema.name p
    /\ PrimFloat.eqb (ItemModel.price row) (ItemSchema.price p) = true
    /\ ItemModel.description row = ItemSchema.description p
    /\ ItemModel.stock row = ItemSchema.stock p
    /\ ItemModel.category row = ItemSchema.category p
    /\ (PrimFloat.ltb 0%float (ItemSchema.price p) = true ->
        row = Database.assign_fields item0 p).
Proof.
  intros Hfind Hnan. unfold updated_table.
  set (item1 := Database.assign_fields item0 p) in *.
  assert (Hid1 : ItemModel.id item1 = ItemModel.id item0) by reflexivity.
  assert (Hpos : PrimFloat.ltb 0%float (ItemSchema.price p) = true ->
                 Backend.price_changed item0 item1 = false ->
                 ItemModel.price item0 = ItemModel.price item1).
  { intros Hp H. unfold Backend.price_changed in H. apply negb_false_iff in H.
    now apply (float_eqb_positive _ _ H). }
  destruct (Backend.modified item0 item1) eqn:Em.
  - specialize (Hnan eq_refl).
    exists (Backend.write_changes item0 item1 item0).
    pose proof (write_changes_settles item0 item1 Hnan) as Hset.
    unfold Backend.modified in Hset.
    repeat (apply orb_false_iff in Hset; destruct Hset as [Hset ?]).
    split; [now rewrite find_item_updated, Hfind|].
    split; [reflexivity|].
    repeat match goal with
           | H : Backend.name_changed _ _ = false |- _ =>
               unfold Backend.name_changed in H; apply negb_false_iff in H;
               apply String.eqb_eq in H
           | H : Backend.price_changed _ _ = false |- _ =>
               unfold Backend.price_changed in H; apply negb_false_iff in H
           | H : Backend.description_changed _ _ = false |- _ =>
               unfold Backend.description_changed in H; apply negb_false_iff in H;
               apply option_string_eqb_eq in H
           | H : Backend.stock_changed _ _ = false |- _ =>
               unfold Backend.stock_changed in H; apply negb_false_iff in H;
               apply Z.eqb_eq in H
           | H : Backend.category_changed _ _ = false |- _ =>
               unfold Backend.category_changed in H; apply negb_false_iff in H;
               apply option_string_eqb_eq in H
           end.
    repeat split; try assumption.
    intros Hp. apply write_changes_loaded; [exact Hid1 | now apply Hpos].
  - exists item0. split; [exact Hfind|]. split; [reflexivity|].
    pose proof Em as Hset. unfold Backend.modified in Hset.
    repeat (apply orb_false_iff in Hset; destruct Hset as [Hset ?]).
    repeat match goal with
           | H : Backend.name_changed _ _ = false |- _ =>
               unfold Backend.name_changed in H; apply negb_false_iff in H;
               apply String.eqb_eq in H
           | H : Backend.price_changed _ _ = false |- _ =>
               unfold Backend.price_changed in H; apply negb_false_iff in H
           | H : Backend.description_changed _ _ = false |- _ =>
               unfold Backend.description_changed in H; apply negb_false_iff in H;
               apply option_string_eqb_eq in H
           | H : Backend.stock_changed _ _ = false |- _ =>
               unfold Backend.stock_changed in H; apply negb_false_iff in H;
               apply Z.eqb_eq in H
           | H : Backend.category_changed _ _ = false |- _ =>
               unfold Backend.category_changed in H; apply negb_false_iff in H;
               apply option_string_eqb_eq in H
           end.
    repeat split; try assumption.
    intros Hp. apply unmodified_same; [exact Hid1 | now apply Hpos | exact Em].
Qed.

Lemma ids_updated_table (item0 : ItemModel.t) (p : ItemSchema.t)
  (l : list ItemModel.t) :
  map ItemModel.id (updated_table item0 p l) = map ItemModel.id l.
Proof.
  unfold updated_table.
  destruct (Backend.modified item0 (Database.assign_fields item0 p));
    [apply ids_update_rows | reflexivity].
Qed.

Lemma find_other_updated_table (j : Z) (item0 : ItemModel.t) (p : ItemSchema.t)
  (l : list ItemModel.t) :
  j <> ItemModel.id item0 ->
  find (Backend.item_has_id j) (updated_table item0 p l)
  = find (Backend.item_has_id j) l.
Proof.
  intros Hj. unfold updated_table.
  destruct (Backend.modified item0 (Database.assign_fields item0 p));
    [now apply find_other_updated | reflexivity].
Qed.


(** X6.  [delete_item], whatever the faults: a returned record is the row a
    lookup of the id found, and no row has the id afterwards; an exception
    is the 404 of line 83, only when the id fits 64 bits and no row has it,
    or the backend's own, or the driver's [OverflowError], only when the id
    is beyond 64 bits, and then the items are as before.  In every case the
    user table and the row found under any other id are as before. *)
Theorem delete_item_outcomes (w : world) (item_id : Z) :
  match Database.delete_item item_id w with
  | (r, w') =>
      users w' = users w
      /\ (forall j, j <> item_id ->
            find (Backend.item_has_id j) (items w')
            = find (Backend.item_has_id j) (items w))
      /\ match r with
         | Ok deleted =>
             (exists it, deleted = Some it /\ In it (items w)
                         /\ ItemModel.id it = item_id
                         /\ find (Backend.item_has_id item_id) (items w) = Some it)
             /\ ~ In item_id (map ItemModel.id (items w'))
         | Raise l e =>
             items w' = items w
             /\ ((l = (database_py, 83%nat)
                  /\ e = HTTPException 404 "Item not found"
                  /\ ~ In item_id (map ItemModel.id (items w))
                  /\ Sqlite.int64 item_id = true)
                 \/ raw_fault l e
                 \/ (overflow_error l e /\ Sqlite.int64 item_id = false))
         end
  end.
Proof.
  pose proof (delete_item_hoare (items w) (users w) item_id w
                (conj eq_refl eq_refl)) as H.
  destruct (Database.delete_item item_id w) as [[r|l e] w'].
  - destruct H as (it & Hfind & -> & Hi & Hu). rewrite Hi.
    split; [exact Hu|].
    split; [intros j Hj; now apply find_other_filter|].
    split.
    + exists it. apply find_item_id in Hfind as Hid. destruct Hid as [Hid Hin].
      auto.
    + apply deleted_item_absent.
  - destruct H as [[Hi Hu] Hcase]. rewrite Hi.
    split; [exact Hu|]. split; [reflexivity|]. split; [reflexivity|].
    destruct Hcase as [(Hl & He & Hnone & Hfit)|[Hraw|Hover]];
      [left | right; now left | right; now right].
    split; [exact Hl|]. split; [exact He|].
    split; [now apply find_item_none | exact Hfit].
Qed.

(** X9.  The three readers of the item table, whatever the faults: none
    changes a table; [get_item] returns the first row of the id or raises
    the 404 of line 83, only when the id fits 64 bits and no row has it, or
    the backend's exception, or the driver's [OverflowError], only when the
    id is beyond 64 bits; [get_item_by_id] returns that row or [None] and
    raises only the backend's exception or, for such an id, the
    [OverflowError]; [get_all_items] returns the whole table and raises
    only the 500 of line 93. *)
Theorem item_readers_outcomes (w : world) (item_id : Z) :
  match Database.get_item item_id w with
  | (Ok r, w') =>
      tables_are (items w) (users w) w'
      /\ exists it, r = Some it
           /\ find (Backend.item_has_id item_id) (items w) = Some it
  | (Raise l e, w') =>
      tables_are (items w) (users w) w'
      /\ ((l = (database_py, 83%nat)
           /\ e = HTTPException 404 "Item not found"
           /\ ~ In item_id (map ItemModel.id (items w))
           /\ Sqlite.int64 item_id = true)
          \/ raw_fault l e
          \/ (overflow_error l e /\ Sqlite.int64 item_id = false))
  end
  /\ match Database.get_item_by_id item_id w with
     | (Ok r, w') =>
         tables_are (items w) (users w) w'
         /\ r = find (Backend.item_has_id item_id) (items w)
     | (Raise l e, w') =>
         tables_are (items w) (users w) w'
         /\ (raw_fault l e
             \/ (overflow_error l e /\ Sqlite.int64 item_id = false))
     end
  /\ match Database.get_all_items w with
     | (Ok r, w') => tables_are (items w) (users w) w' /\ r = items w
     | (Raise l e, w') =>
         tables_are (items w) (users w) w'
         /\ l = (database_py, 93%nat)
         /\ exists detail, e = HTTPException 500 detail
     end.
Proof.
  split; [|split].
  - pose proof (get_item_hoare (items w) (users w) item_id w
                  (conj eq_refl eq_refl)) as H.
    destruct (Database.get_item item_id w) as [[r|l e] w']; [exact H|].
    destruct H as [Ht Hcase]. split; [exact Ht|].
    destruct Hcase as [(Hl & He & Hnone & Hfit)|[Hraw|Hover]];
      [left | right; now left | right; now right].
    split; [exact Hl|]. split; [exact He|].
    split; [now apply find_item_none | exact Hfit].
  - pose proof (select_item_first_outcome (items w) (users w) item_id w
                  (conj eq_refl eq_refl)) as H.
    unfold Database.get_item_by_id.
    destruct (Backend.select_item_first item_id w) as [[r|l e] w'].
    + destruct H as (Ht & Hr & _). auto.
    + exact H.
  - pose proof (get_all_items_hoare (items w) (users w) w
                  (conj eq_refl eq_refl)) as H.
    destruct (Database.get_all_items w) as [[r|l e] w']; [exact H|].
    destruct H as (Ht & Hl & [msg Hmsg]). eauto.
Qed.

(** ** Unique keys *)

Lemma NoDup_snoc {A} (l : list A) (a : A) :
  NoDup l -> ~ In a l -> NoDup (l ++ [a]).
Proof.
  induction l as [|x l IH]; simpl; intros Hnd Hn.
  - constructor; [intros [] | constructor].
  - inversion Hnd as [|? ? Hx Hl]; subst. constructor.
    + intros Hin. apply in_app_or in Hin. destruct Hin as [Hin|[->|[]]]; tauto.
    + apply IH; tauto.
Qed.

(** A [DELETE] keeps the ids of the item table distinct. *)
Lemma ids_distinct_after_filter (keep : ItemModel.t -> bool) (rows : list ItemModel.t) :
  NoDup (map ItemModel.id rows) ->
  NoDup (map ItemModel.id (filter keep rows)).
Proof.
  intros Hnd. induction rows as [|x rows IH]; simpl in *; [constructor|].
  apply NoDup_cons_iff in Hnd. destruct Hnd as [Hx Hrest].
  destruct (keep x); simpl; [|now apply IH].
  apply NoDup_cons_iff. split; [|now apply IH].
  intros Hin. apply Hx. apply in_map_iff in Hin.
  destruct Hin as (y & Hy & Hin). apply filter_In in Hin.
  rewrite <- Hy. apply in_map. tauto.
Qed.

Lemma keys_unique_invariant : table_invariant keys_unique.
Proof.
  constructor; unfold keys_unique.
  - intros l u r (Hi & Hu & He) Hfresh. split; [|auto].
    now apply ids_distinct_after_insert.
  - intros l u loaded item (Hi & Hu & He). split; [|auto].
    now rewrite ids_update_rows.
  - intros l u k (Hi & Hu & He). split; [|auto].
    now apply ids_distinct_after_filter.
  - intros l u email hashed (Hi & Hu & He) Hfresh.
    split; [exact Hi|]. rewrite !map_app. simpl. split.
    + apply NoDup_snoc; [exact Hu | apply next_rowid_fresh].
    + now apply NoDup_snoc.
  - intros l u (Hi & Hu & He). split; [constructor | auto].
  - intros l u (Hi & Hu & He). split; [exact Hi|]. split; constructor.
Qed.

Lemma kt_at {A} (I : list ItemModel.t -> list UserModel.t -> Prop)
  (m : M A) (w : world) :
  keeps_tables I m -> I (items w) (users w) ->
  I (items (snd (m w))) (users (snd (m w))).
Proof.
  intros Hm Hw. specialize (Hm w Hw).
  destruct (m w) as [[a|l e] w1]; exact Hm.
Qed.

(** X11.  Primary keys and emails stay unique: from a store where no two items
    share an id and no two users share an id or an email, every sequence of
    calls of the Store, with any payloads and under any faults, leads to
    such a store; so it is of every store reached from the empty one. *)
Theorem keys_stay_unique
  `{pwd_context : CryptContext} (cs : list Store.call) (w : world) :
  keys_unique (items w) (users w) ->
  keys_unique (items (Store.run cs w)) (users (Store.run cs w)).
Proof.
  revert w. induction cs as [|c cs IH]; intros w Hw; [exact Hw|].
  simpl. apply IH.
  apply (kt_at keys_unique (Store.perform c) w); [|exact Hw].
  apply kt_perform. apply keys_unique_invariant.
Qed.

Lemma keys_stay_unique_witness :
  keys_unique
    (items (@Store.run Runs.toy_context
              [ Store.create_item Runs.laptop;
                Store.create_item (ItemSchema.mk (Some 1) "Mouse" 1%float None 3 None);
                Store.create_user (UserSchema.mk "a@b.com" "x");
                Store.create_user (UserSchema.mk "a@b.com" "y");
                Store.delete_item 1;
                Store.create_item Runs.laptop ]
              (mkWorld [] [] [None; None; Some "database is locked"] [])))
    (users (@Store.run Runs.toy_context
              [ Store.create_item Runs.laptop;
                Store.create_item (ItemSchema.mk (Some 1) "Mouse" 1%float None 3 None);
                Store.create_user (UserSchema.mk "a@b.com" "x");
                Store.create_user (UserSchema.mk "a@b.com" "y");
                Store.delete_item 1;
                Store.create_item Runs.laptop ]
              (mkWorld [] [] [None; None; Some "database is locked"] []))).
Proof.
  apply (@keys_stay_unique Runs.toy_context).
  simpl. repeat split; constructor.
Defined.

(** ** Listing after creations *)

Lemma room_counts_up (n : nat) (l : list ItemModel.t) :
  room_for n l -> counts_up l.
Proof. intros [_ H] i Hi. specialize (H i Hi). lia. Qed.

Lemma plain_payload_fits (p : ItemSchema.t) :
  plain_payload p -> payload_fits p = true.
Proof. intros (Hid & _ & Hs). unfold payload_fits. now rewrite Hid, Hs. Qed.

(** The creation of a plain payload, on a healthy backend and a table
    with room, appends the row. *)
Lemma perform_create_item_healthy
  `{pwd_context : CryptContext} (w : world) (item : ItemSchema.t) (n : nat) :
  faults w = [] ->
  plain_payload item ->
  room_for (S n) (items w) ->
  let w1 := snd (Store.perform (Store.create_item item) w) in
  faults w1 = []
  /\ items w1 = items w ++ [Backend.inserted_item item (items w)]
  /\ room_for n (items w1).
Proof.
  intros Hf Hplain Hroom. pose proof Hplain as (Hnone & Hv & Hs).
  pose proof (plain_payload_fits item Hplain) as Hfit.
  pose proof (room_counts_up _ _ Hroom) as Hup.
  assert (Hfresh : ~ In (Backend.requested_id item (items w))
                        (map ItemModel.id (items w))).
  { apply requested_id_fresh. intros i Hi. congruence. }
  assert (Hnext : Backend.requested_id item (items w)
                  = Backend.next_rowid (map ItemModel.id (items w))).
  { unfold Backend.requested_id. now rewrite Hnone. }
  cbv zeta. simpl. unfold Store.discard.
  rewrite (bind_ok _ (create_item_healthy w item Hf Hfit
                        (validate_not_nan item Hv) (fun _ => Hup) Hfresh)).
  cbn [snd ret].
  assert (Hlast :
    Backend.insert_row (Backend.inserted_item item (items w)) (items w)
    = items w ++ [Backend.inserted_item item (items w)]).
  { apply insert_row_last. intros i Hi.
    change (ItemModel.id (Backend.inserted_item item (items w)))
      with (Backend.requested_id item (items w)).
    rewrite Hnext. now apply next_rowid_above. }
  assert (Hitems :
    items (set_items w
             (Backend.insert_row (Backend.inserted_item item (items w)) (items w)))
    = items w ++ [Backend.inserted_item item (items w)]).
  { rewrite items_after_insert; [exact Hlast|].
    apply new_item_fits; [|exact Hs].
    apply requested_id_fits; [exact Hfit | intros _; exact Hup]. }
  split; [exact Hf|]. split; [exact Hitems|].
  rewrite Hitems. destruct Hroom as [Hn Hall]. split; [lia|].
  intros i Hi. rewrite map_app in Hi. apply in_app_or in Hi.
  destruct Hi as [Hi|[<-|[]]].
  - specialize (Hall i Hi). lia.
  - change (ItemModel.id (Backend.inserted_item item (items w)))
      with (Backend.requested_id item (items w)).
    rewrite Hnext.
    destruct (next_rowid_is_successor (map ItemModel.id (items w)))
      as [->|(k & Hk & ->)]; [lia|].
    specialize (Hall k Hk). lia.
Qed.



(** ** The lifecycle operations *)

(** X12.  [clear_data] never clears anything: whatever the store and the
    faults, its first [conn.execute] is given a string and raises
    SQLAlchemy's [ObjectNotExecutableError] before a statement is sent, so
    that the store is left as it was; and so for the shutdown hook, which
    is [clear_data]. *)
Theorem clear_data_always_raises (w : world) :
  Database.clear_data w
  = (Raise (sqlalchemy_pkg, 0%nat)
       (SQLAlchemyError "Not an executable object: 'PRAGMA foreign_keys = OFF;'"),
     w)
  /\ App.shutdown w
     = (Raise (sqlalchemy_pkg, 0%nat)
          (SQLAlchemyError "Not an executable object: 'PRAGMA foreign_keys = OFF;'"),
        w)
  /\ raw_fault (sqlalchemy_pkg, 0%nat)
       (SQLAlchemyError "Not an executable object: 'PRAGMA foreign_keys = OFF;'").
Proof.
  split; [reflexivity|]. split; [reflexivity|].
  split; [reflexivity | eauto].
Qed.

Lemma drop_table_healthy (w : world) (tb : Backend.table) :
  faults w = [] ->
  Backend.drop_table tb w
  = (Ok tt, match tb with
            | Backend.items_table => set_items w []
            | Backend.users_table => set_users w []
            end).
Proof.
  intros Hf. unfold Backend.drop_table.
  rewrite (bind_ok _ (dbapi_healthy w Hf)).
  unfold bind, get_world. now destruct tb.
Qed.

Lemma create_all_healthy (w : world) :
  faults w = [] -> Backend.create_all w = (Ok tt, w).
Proof.
  intros Hf. unfold Backend.create_all, Backend.sorted_tables, Backend.for_each,
    Backend.create_table.
  rewrite (bind_ok _ (dbapi_healthy w Hf)).
  rewrite (bind_ok _ (dbapi_healthy w Hf)). reflexivity.
Qed.

Lemma reset_database_healthy (w : world) :
  faults w = [] ->
  Database.reset_database w = (Ok tt, set_users (set_items w []) []).
Proof.
  intros Hf.
  assert (Hdrop : Backend.drop_all w = (Ok tt, set_users (set_items w []) [])).
  { unfold Backend.drop_all, Backend.sorted_tables. simpl rev.
    cbn [Backend.for_each].
    rewrite (bind_ok _ (drop_table_healthy w Backend.users_table Hf)).
    rewrite (bind_ok _ (drop_table_healthy (set_users w []) Backend.items_table Hf)).
    reflexivity. }
  unfold Database.reset_database, Backend.engine_begin.
  rewrite (bind_ok _ Hdrop).
  now apply create_all_healthy.
Qed.

(** X13.  On a healthy backend the reset route answers with its
    confirmation and leaves both tables empty: the listing is then empty,
    every [get_item] of an id within the 64-bit range raises the 404 and
    every login raises "User not found", whatever the store held before. *)
Theorem reset_database_empties
  `{pwd_context : CryptContext} (w : world) :
  faults w = [] ->
  let w0 := set_users (set_items w []) [] in
  App.reset_database w = (Ok [("detail", "Database reset successfully")], w0)
  /\ Database.get_all_items w0 = (Ok [], w0)
  /\ (forall item_id,
        Sqlite.int64 item_id = true ->
        Database.get_item item_id w0
        = (Raise (database_py, 83%nat) (HTTPException 404 "Item not found"), w0))
  /\ (forall form_data,
        App.login form_data w0
        = (Raise (app_py, 66%nat) (HTTPException 404 "User not found"), w0)).
Proof.
  intros Hf w0.
  assert (Hf0 : faults w0 = []) by exact Hf.
  split; [|split; [|split]].
  - unfold App.reset_database.
    now rewrite (bind_ok _ (reset_database_healthy w Hf)).
  - unfold Database.get_all_items.
    now rewrite (try_except_ok _ (select_items_all_healthy w0 Hf0)).
  - intros item_id Hfit. now rewrite (get_item_healthy w0 Hf0 item_id Hfit).
  - intros form_data. unfold App.login.
    now rewrite (bind_ok _ (get_user_by_email_healthy w0 Hf0 _)).
Qed.

Lemma reset_database_empties_witness :
  let w := mkWorld [Runs.laptop_row 1] [UserModel.mk 1 "a@b.com" "$2b$$x"] [] [] in
  App.reset_database w
  = (Ok [("detail", "Database reset successfully")], Runs.empty_world)
  /\ Database.get_all_items Runs.empty_world = (Ok [], Runs.empty_world).
Proof.
  cbv zeta.
  destruct (@reset_database_empties Runs.toy_context
              (mkWorld [Runs.laptop_row 1] [UserModel.mk 1 "a@b.com" "$2b$$x"] [] [])
              eq_refl) as (Hr & Hl & _).
  split; [exact Hr | exact Hl].
Defined.

(** ** Users: what registration and login do, whatever the faults *)

Lemma find_user_none (e : string) (l : list UserModel.t) :
  find (Backend.user_has_email e) l = None -> ~ In e (map UserModel.email l).
Proof.
  intros Hf Hin. apply find_user_present in Hin.
  destruct Hin as (u & Hu & _). congruence.
Qed.

Lemma find_user_some (e : string) (l : list UserModel.t) (u : UserModel.t) :
  find (Backend.user_has_email e) l = Some u ->
  In u l /\ UserModel.email u = e.
Proof.
  intros Hf. apply find_some in Hf. destruct Hf as [Hin He].
  apply user_has_email_true in He. auto.
Qed.

(** The row a registration appends is the one a lookup of its email
    finds, when no row had the email. *)
Lemma find_user_email_appended (l : list UserModel.t) (u : UserModel.t) :
  ~ In (UserModel.email u) (map UserModel.email l) ->
  find (Backend.user_has_email (UserModel.email u)) (l ++ [u]) = Some u.
Proof.
  induction l as [|x l IH]; simpl; intros Hn.
  - unfold Backend.user_has_email. now rewrite String.eqb_refl.
  - destruct (Backend.user_has_email (UserModel.email u) x) eqn:E.
    + apply user_has_email_true in E. tauto.
    + apply IH. tauto.
Qed.

Section UserOutcomes.

Context `{pwd_context : CryptContext}.

Variable l0 : list ItemModel.t.
Variable u0 : list UserModel.t.
Variable user : UserSchema.t.

Lemma get_user_by_email_hoare (email : string) :
  hoare (tables_are l0 u0) (Database.get_user_by_email email)
        (fun r w => tables_are l0 u0 w
                    /\ r = find (Backend.user_has_email email) u0)
        (statement_failed l0 u0).
Proof. apply select_user_by_email_first_outcome. Qed.

Lemma refresh_user_appended (u : UserModel.t) :
  ~ In (UserModel.id u) (map UserModel.id u0) ->
  hoare (tables_are l0 (u0 ++ [u])) (Backend.refresh_user u)
        (fun r w => r = u /\ tables_are l0 (u0 ++ [u]) w)
        (statement_failed l0 (u0 ++ [u])).
Proof.
  intros Hfresh. unfold Backend.refresh_user.
  pose proof (find_user_appended u0 u Hfresh) as Hfind.
  eapply hoare_bind.
  - eapply hoare_consequence;
      [apply (select_user_first_outcome l0 (u0 ++ [u]) (UserModel.id u)) | | | ].
    + auto.
    + intros a w H. exact H.
    + intros l e w [Ht [Hr|[_ Hbig]]]; [split; assumption|].
      rewrite (user_id_fits_found _ _ u Hfind) in Hbig. discriminate Hbig.
  - intros r w [Ht ->]. rewrite Hfind.
    simpl. split; [reflexivity | exact Ht].
Qed.

Lemma create_user_hoare :
  hoare (tables_are l0 u0) (Database.create_user user)
        (fun r w =>
           UserModel.email r = UserSchema.email user
           /\ UserModel.id r = Backend.next_rowid (map UserModel.id u0)
           /\ ~ In (UserSchema.email user) (map UserModel.email u0)
           /\ tables_are l0 (u0 ++ [r]) w)
        (fun l e w =>
           items w = l0
           /\ ((l = (database_py, 136%nat)
                /\ e = HTTPException 400 "Email already registered"
                /\ In (UserSchema.email user) (map UserModel.email u0)
                /\ users w = u0)
               \/ (l = (database_py, 146%nat)
                   /\ e = HTTPException 500 "Could not create user"
                   /\ maybe_stored u0 (UserSchema.email user) (users w)))).
Proof.
  unfold Database.create_user.
  eapply hoare_try with
    (E' := fun l e w =>
             items w = l0
             /\ ((l = (database_py, 136%nat)
                  /\ e = HTTPException 400 "Email already registered"
                  /\ In (UserSchema.email user) (map UserModel.email u0)
                  /\ users w = u0)
                 \/ ((exists msg, e = SQLAlchemyError msg)
                     /\ maybe_stored u0 (UserSchema.email user) (users w)))).
  - eapply hoare_bind.
    + eapply hoare_consequence;
        [apply (get_user_by_email_hoare (UserSchema.email user)) | | | ].
      * auto.
      * intros a w H. exact H.
      * intros l e w [[Hi Hu] [_ Hmsg]]. split; [exact Hi|]. right.
        split; [exact Hmsg | now left].
    + intros r w [[Hi Hu] ->].
      destruct (find (Backend.user_has_email (UserSchema.email user)) u0)
        as [u|] eqn:E.
      * simpl. split; [exact Hi|]. left.
        apply find_user_some in E. destruct E as [Hin He].
        repeat split; try assumption.
        rewrite <- He. now apply in_map.
      * apply find_user_none in E.
        unfold bind at 1, pwd_context_hash.
        set (hashed := hash (hd EmptyString (salts w)) (UserSchema.password user)).
        assert (Ht : tables_are l0 u0 (set_salts w (tl (salts w))))
          by (split; assumption).
        pose proof (insert_user_outcome l0 u0 (UserSchema.email user) hashed _ Ht)
          as Hins.
        unfold bind.
        destruct (Backend.insert_user (UserSchema.email user) hashed
                    (set_salts w (tl (salts w)))) as [[db_user|l e] w1].
        -- destruct Hins as (Hr & _ & Ht1).
           assert (Hfresh : ~ In (UserModel.id db_user) (map UserModel.id u0)).
           { rewrite Hr. simpl. apply next_rowid_fresh. }
           pose proof (refresh_user_appended db_user Hfresh w1 Ht1) as Href.
           destruct (Backend.refresh_user db_user w1) as [[row|l e] w2].
           ++ destruct Href as [-> Ht2]. rewrite Hr at 1 2. simpl.
              repeat split; try assumption; apply Ht2.
           ++ destruct Href as [[Hi2 Hu2] [_ Hmsg]]. split; [exact Hi2|]. right.
              split; [exact Hmsg|]. right. split; [exact E|].
              exists db_user. split; [now rewrite Hr | exact Hu2].
        -- destruct Hins as [[Hi1 Hu1] [_ Hmsg]]. split; [exact Hi1|]. right.
           split; [exact Hmsg | now left].
  - intros l c d w [Hi [H|[[msg Hmsg] _]]]; [|discriminate Hmsg].
    split; [exact Hi | now left].
  - intros l msg w [_ [(_ & He & _)|[[m Hm] _]]]; discriminate.
  - intros l msg w [Hi [(_ & He & _)|(_ & Hst)]]; [discriminate He|].
    simpl. split; [exact Hi|]. right. repeat split. exact Hst.
Qed.

(** [register], whatever the faults. *)
Lemma register_hoare :
  hoare (tables_are l0 u0) (App.register user)
        (fun r w =>
           UserModel.email r = UserSchema.email user
           /\ UserModel.id r = Backend.next_rowid (map UserModel.id u0)
           /\ ~ In (UserSchema.email user) (map UserModel.email u0)
           /\ tables_are l0 (u0 ++ [r]) w)
        (fun l e w =>
           items w = l0
           /\ ((l = (app_py, 52%nat)
                /\ e = HTTPException 400 "Email already registered"
                /\ In (UserSchema.email user) (map UserModel.email u0)
                /\ users w = u0)
               \/ (l = (database_py, 146%nat)
                   /\ e = HTTPException 500 "Could not create user"
                   /\ ~ In (UserSchema.email user) (map UserModel.email u0)
                   /\ maybe_stored u0 (UserSchema.email user) (users w))
               \/ (raw_fault l e /\ users w = u0))).
Proof.
  unfold App.register.
  eapply hoare_bind.
  - eapply hoare_consequence;
      [apply (get_user_by_email_hoare (UserSchema.email user)) | | | ].
    + auto.
    + intros a w H. exact H.
    + intros l e w [[Hi Hu] Hr]. split; [exact Hi|]. right. right. auto.
  - intros r w [Ht ->].
    destruct (find (Backend.user_has_email (UserSchema.email user)) u0)
      as [u|] eqn:E.
    + simpl. destruct Ht as [Hi Hu]. split; [exact Hi|]. left.
      apply find_user_some in E. destruct E as [Hin He].
      repeat split; try assumption. rewrite <- He. now apply in_map.
    + apply find_user_none in E.
      pose proof (create_user_hoare w Ht) as H. unfold bind.
      destruct (Database.create_user user w) as [[db_user|l e] w1].
      * exact H.
      * destruct H as [Hi [(_ & _ & Hin & _)|(Hl & He & Hst)]]; [contradiction|].
        split; [exact Hi|]. right. left. auto.
Qed.

(** [login], whatever the faults. *)
Lemma login_hoare (form_data : UserSchema.t) :
  hoare (tables_are l0 u0) (App.login form_data)
        (fun r w =>
           tables_are l0 u0 w
           /\ exists u,
                find (Backend.user_has_email (UserSchema.email form_data)) u0 = Some u
                /\ verify (UserSchema.password form_data)
                     (UserModel.hashed_password u) = true
                /\ r = [("access_token", UserModel.email u);
                        ("token_type", "bearer")])
        (fun l e w =>
           tables_are l0 u0 w
           /\ ((l = (app_py, 66%nat)
                /\ e = HTTPException 404 "User not found"
                /\ ~ In (UserSchema.email form_data) (map UserModel.email u0))
               \/ (l = (app_py, 69%nat)
                   /\ e = HTTPException 401 "Incorrect password"
                   /\ exists u,
                        find (Backend.user_has_email (UserSchema.email form_data)) u0
                        = Some u
                        /\ verify (UserSchema.password form_data)
                             (UserModel.hashed_password u) = false)
               \/ raw_fault l e)).
Proof.
  unfold App.login.
  eapply hoare_bind.
  - eapply hoare_consequence;
      [apply (get_user_by_email_hoare (UserSchema.email form_data)) | | | ].
    + auto.
    + intros a w H. exact H.
    + intros l e w [Ht Hr]. split; [exact Ht|]. right. right. exact Hr.
  - intros r w [Ht ->].
    destruct (find (Backend.user_has_email (UserSchema.email form_data)) u0)
      as [u|] eqn:E.
    + unfold Database.verify_password, bind, ret.
      destruct (verify (UserSchema.password form_data)
                  (UserModel.hashed_password u)) eqn:V; simpl.
      * split; [exact Ht|]. exists u. auto.
      * split; [exact Ht|]. right. left. split; [reflexivity|].
        split; [reflexivity|]. exists u. auto.
    + simpl. split; [exact Ht|]. left. split; [reflexivity|].
      split; [reflexivity|]. now apply find_user_none.
Qed.

End UserOutcomes.

(** X14.  [register], whatever the faults, for a request that runs
    alone.  A user returned carries the request's email under the next
    rowid of the user table, no user had the email, and the row is appended
    to the table.  An exception is the 400 of app.py line 52, only when a
    user has the email; or the 400 of [create_user]'s own check
    (database.py line 136), which leaves the user table as it was; or the
    500 of database.py line 146, which may leave the new row stored; or,
    from the route's own lookup only, the backend's exception.  The item
    table is never changed. *)
Theorem register_outcomes
  `{pwd_context : CryptContext} (w : world) (user : UserSchema.t) :
  match App.register user w with
  | (Ok db_user, w') =>
      UserModel.email db_user = UserSchema.email user
      /\ UserModel.id db_user = Backend.next_rowid (map UserModel.id (users w))
      /\ ~ In (UserSchema.email user) (map UserModel.email (users w))
      /\ users w' = users w ++ [db_user]
      /\ items w' = items w
  | (Raise l e, w') =>
      items w' = items w
      /\ ((l = (app_py, 52%nat)
           /\ e = HTTPException 400 "Email already registered"
           /\ In (UserSchema.email user) (map UserModel.email (users w))
           /\ users w' = users w)
          \/ (l = (database_py, 136%nat)
              /\ e = HTTPException 400 "Email already registered"
              /\ users w' = users w)
          \/ (l = (database_py, 146%nat)
              /\ e = HTTPException 500 "Could not create user"
              /\ maybe_stored (users w) (UserSchema.email user) (users w'))
          \/ (raw_fault l e /\ users w' = users w))
  end.
Proof.
  pose proof (register_hoare (items w) (users w) user w (conj eq_refl eq_refl))
    as H.
  destruct (App.register user w) as [[db_user|l e] w'].
  - destruct H as (He & Hid & Habs & Hi & Hu). auto.
  - destruct H as [Hi Hcase]. split; [exact Hi|].
    destruct Hcase as [H52|[(Hl & He & _ & Hst)|Hraw]].
    + now left.
    + right. right. left. auto.
    + right. right. now right.
Qed.

(** X15.  [create_user] called on its own, whatever the faults: it raises only
    [HTTPException]s, the 400 of line 136, only when a user has the email,
    or the 500 of line 146; it never changes the item table and never
    stores a second row for an email. *)
Theorem create_user_outcomes
  `{pwd_context : CryptContext} (w : world) (user : UserSchema.t) :
  match Database.create_user user w with
  | (Ok db_user, w') =>
      UserModel.email db_user = UserSchema.email user
      /\ UserModel.id db_user = Backend.next_rowid (map UserModel.id (users w))
      /\ ~ In (UserSchema.email user) (map UserModel.email (users w))
      /\ users w' = users w ++ [db_user]
      /\ items w' = items w
  | (Raise l e, w') =>
      items w' = items w
      /\ ((l = (database_py, 136%nat)
           /\ e = HTTPException 400 "Email already registered"
           /\ In (UserSchema.email user) (map UserModel.email (users w))
           /\ users w' = users w)
          \/ (l = (database_py, 146%nat)
              /\ e = HTTPException 500 "Could not create user"
              /\ maybe_stored (users w) (UserSchema.email user) (users w')))
  end.
Proof.
  pose proof (create_user_hoare (items w) (users w) user w (conj eq_refl eq_refl))
    as H.
  destruct (Database.create_user user w) as [[db_user|l e] w'].
  - destruct H as (He & Hid & Habs & Hi & Hu). auto.
  - exact H.
Qed.

(** X16.  [login] under any faults: a token is returned only when a user has the
    email and the password verifies against that user's stored hash, and
    the token is then that user's email; the 404 is raised only when no
    user has the email, the 401 only when the found user's hash does not
    verify; and no outcome changes a table. *)
Theorem login_sound
  `{pwd_context : CryptContext} (w : world) (form_data : UserSchema.t) :
  match App.login form_data w with
  | (Ok token, w') =>
      tables_are (items w) (users w) w'
      /\ exists u,
           In u (users w)
           /\ UserModel.email u = UserSchema.email form_data
           /\ verify (UserSchema.password form_data)
                (UserModel.hashed_password u) = true
           /\ token = [("access_token", UserSchema.email form_data);
                       ("token_type", "bearer")]
  | (Raise l e, w') =>
      tables_are (items w) (users w) w'
      /\ ((l = (app_py, 66%nat)
           /\ e = HTTPException 404 "User not found"
           /\ ~ In (UserSchema.email form_data) (map UserModel.email (users w)))
          \/ (l = (app_py, 69%nat)
              /\ e = HTTPException 401 "Incorrect password"
              /\ exists u,
                   In u (users w)
                   /\ UserModel.email u = UserSchema.email form_data
                   /\ verify (UserSchema.password form_data)
                        (UserModel.hashed_password u) = false)
          \/ raw_fault l e)
  end.
Proof.
  pose proof (login_hoare (items w) (users w) form_data w (conj eq_refl eq_refl))
    as H.
  destruct (App.login form_data w) as [[token|l e] w'].
  - destruct H as [Ht (u & Hfind & Hv & ->)]. split; [exact Ht|].
    apply find_user_some in Hfind. destruct Hfind as [Hin He].
    exists u. rewrite He. auto.
  - destruct H as [Ht Hcase]. split; [exact Ht|].
    destruct Hcase as [H|[(Hl & He & u & Hfind & Hv)|H]]; [now left | | now right; right].
    right. left. apply find_user_some in Hfind. destruct Hfind as [Hin Hu].
    split; [exact Hl|]. split; [exact He|]. exists u. auto.
Qed.

(** ** Registration, then lookups and login *)

(** X17.  On a healthy backend, after the registration of an email no user had:
    [get_user_by_email] of the email and [get_user] of the assigned id both
    return the created user; a login with the same email and a password
    that verifies against the stored hash returns the email as token, and
    one with a password that does not verify raises the 401. *)
Theorem register_then_login
  `{pwd_context : CryptContext} (w : world) (user : UserSchema.t) :
  faults w = [] ->
  ~ In (UserSchema.email user) (map UserModel.email (users w)) ->
  exists (db_user : UserModel.t) (w1 : world),
    App.register user w = (Ok db_user, w1)
    /\ Database.get_user_by_email (UserSchema.email user) w1
       = (Ok (Some db_user), w1)
    /\ Database.get_user (UserModel.id db_user) w1 = (Ok (Some db_user), w1)
    /\ (forall password,
          verify password (UserModel.hashed_password db_user) = true ->
          App.login (UserSchema.mk (UserSchema.email user) password) w1
          = (Ok [("access_token", UserSchema.email user);
                 ("token_type", "bearer")], w1))
    /\ (forall password,
          verify password (UserModel.hashed_password db_user) = false ->
          App.login (UserSchema.mk (UserSchema.email user) password) w1
          = (Raise (app_py, 69%nat) (HTTPException 401 "Incorrect password"), w1)).
Proof.
  intros Hf Habs.
  set (db_user :=
         UserModel.mk (Backend.next_rowid (map UserModel.id (users w)))
           (UserSchema.email user)
           (hash (hd EmptyString (salts w)) (UserSchema.password user))).
  set (w1 := set_users (set_salts w (tl (salts w))) (users w ++ [db_user])).
  assert (Hf1 : faults w1 = []) by exact Hf.
  assert (Hfind : find (Backend.user_has_email (UserSchema.email user)) (users w1)
                  = Some db_user).
  { unfold w1. rewrite users_set_users.
    apply (find_user_email_appended (users w) db_user). exact Habs. }
  assert (Hfind_id : find (Backend.user_has_id (UserModel.id db_user)) (users w1)
                     = Some db_user).
  { unfold w1. rewrite users_set_users.
    apply (find_user_appended (users w) db_user). apply next_rowid_fresh. }
  exists db_user, w1.
  split; [apply (register_healthy w user Hf Habs)|].
  split; [rewrite (get_user_by_email_healthy w1 Hf1); now rewrite Hfind|].
  split.
  - unfold Database.get_user.
    rewrite (bind_ok _ (select_user_first_healthy w1 Hf1 _
                          (user_id_fits_found _ _ _ Hfind_id))).
    now rewrite Hfind_id.
  - split; intros password Hv; unfold App.login;
      rewrite (bind_ok _ (get_user_by_email_healthy w1 Hf1 _));
      cbn [UserSchema.email UserSchema.password]; rewrite Hfind;
      unfold Database.verify_password, bind, ret; rewrite Hv; reflexivity.
Qed.

Lemma register_then_login_witness :
  exists (db_user : UserModel.t) (w1 : world),
    @App.register Runs.toy_context (UserSchema.mk "a@b.com" "x") Runs.empty_world
    = (Ok db_user, w1)
    /\ @App.login Runs.toy_context (UserSchema.mk "a@b.com" "x") w1
       = (Ok [("access_token", "a@b.com"); ("token_type", "bearer")], w1)
    /\ @App.login Runs.toy_context (UserSchema.mk "a@b.com" "y") w1
       = (Raise (app_py, 69%nat) (HTTPException 401 "Incorrect password"), w1).
Proof.
  destruct (@register_then_login Runs.toy_context Runs.empty_world
              (UserSchema.mk "a@b.com" "x") eq_refl)
    as (db_user & w1 & Hr & _ & _ & Hgood & Hbad).
  - simpl. intros [].
  - exists db_user, w1. split; [exact Hr|].
    assert (Hu : db_user = UserModel.mk 1 "a@b.com" "$2b$$x").
    { vm_compute in Hr. now injection Hr as <- _. }
    split; [apply (Hgood "x") | apply (Hbad "y")]; rewrite Hu; reflexivity.
Defined.

(** ** The [None] checks of the PUT and DELETE routes *)

(** X8.  [update_item] and [delete_item] never return [None], whatever the
    faults: the raise under [if not updated_item] in the PUT route (app.py
    line 95) and the one under [if not deleted_item] in the DELETE route
    (app.py line 103) are never executed; a 404 of these routes is always
    the Store's. *)
Theorem route_none_checks_dead (w : world) (item_id : Z) (item : ItemSchema.t) :
  fst (Database.update_item item_id item w) <> Ok None
  /\ fst (Database.delete_item item_id w) <> Ok None
  /\ raised_at (fst (App.update_item item_id item w)) <> Some (app_py, 95%nat)
  /\ raised_at (fst (App.delete_item item_id w)) <> Some (app_py, 103%nat).
Proof.
  pose proof (update_item_hoare (items w) (users w) item_id item w
                (conj eq_refl eq_refl)) as Hu.
  pose proof (delete_item_hoare (items w) (users w) item_id w
                (conj eq_refl eq_refl)) as Hd.
  unfold App.update_item, App.delete_item, bind.
  destruct (Database.update_item item_id item w) as [[r|l e] w1];
    destruct (Database.delete_item item_id w) as [[r'|l' e'] w2]; simpl.
  all: repeat match goal with
         | H : exists _, _ |- _ => destruct H
         | H : _ /\ _ |- _ => destruct H
         end; subst; simpl.
  all: repeat split; try discriminate.
  all: match goal with
       | H : _ \/ raw_fault _ _ \/ _ |- _ =>
           destruct H as [(-> & _)|[[-> _]|[[-> _] _]]]; discriminate
       end.
Qed.

(** ** The DELETE route on a persisted item *)

(** X7.  On a healthy backend, the DELETE route on a persisted id answers with
    the 204 response, no row has the id afterwards, so that a GET of it
    raises the 404, and the row found under any other id is as before. *)
Theorem delete_route_removes (w : world) (item_id : Z) :
  faults w = [] ->
  In item_id (map ItemModel.id (items w)) ->
  let w' :=
    set_items w (filter (fun r => negb (Backend.item_has_id item_id r)) (items w)) in
  App.delete_item item_id w = (Ok (Fastapi.mkResponse 204), w')
  /\ App.get_item item_id w'
     = (Raise (database_py, 83%nat) (HTTPException 404 "Item not found"), w')
  /\ (forall j, j <> item_id ->
        Database.get_item j w' = (fst (Database.get_item j w), w')).
Proof.
  intros Hf Hin w'.
  assert (Hf' : faults w' = []) by exact Hf.
  pose proof (persisted_id_fits w item_id Hin) as Hfit.
  destruct (find_item_present _ _ Hin) as (it & Hfind & _ & _).
  split; [|split].
  - unfold App.delete_item.
    assert (Hd : Database.delete_item item_id w = (Ok (Some it), w')).
    { rewrite (delete_item_healthy w item_id Hf Hfit). now rewrite Hfind. }
    now rewrite (bind_ok _ Hd).
  - unfold App.get_item.
    assert (Hg : Database.get_item item_id w'
                 = (Raise (database_py, 83%nat)
                      (HTTPException 404 "Item not found"), w')).
    { rewrite (get_item_healthy w' Hf' item_id Hfit).
      unfold w'. rewrite items_after_delete.
      now rewrite (find_item_absent _ _ (deleted_item_absent item_id (items w))). }
    now rewrite (bind_raise _ Hg).
  - intros j Hj. destruct (Sqlite.int64 j) eqn:Ej.
    + rewrite (get_item_healthy w' Hf' j Ej), (get_item_healthy w Hf j Ej).
      unfold w'. rewrite items_after_delete, (find_other_filter j item_id _ Hj).
      now destruct (find (Backend.item_has_id j) (items w)).
    + now rewrite (get_item_overflow w' j Ej), (get_item_overflow w j Ej).
Qed.

Lemma delete_route_removes_witness :
  let w := mkWorld [Runs.laptop_row 1; Runs.laptop_row 2] [] [] [] in
  let w' := mkWorld [Runs.laptop_row 2] [] [] [] in
  App.delete_item 1 w = (Ok (Fastapi.mkResponse 204), w')
  /\ App.get_item 1 w'
     = (Raise (database_py, 83%nat) (HTTPException 404 "Item not found"), w').
Proof.
  cbv zeta.
  destruct (delete_route_removes
              (mkWorld [Runs.laptop_row 1; Runs.laptop_row 2] [] [] []) 1 eq_refl)
    as (Hd & Hg & _).
  - simpl. now left.
  - split; [exact Hd | exact Hg].
Defined.

(** ** Updating twice *)

(** X5.  On a healthy backend [update_item] is idempotent: sending the same PUT
    a second time returns what the first returned, the updated record or
    the 404, and leaves the store as the first left it. *)
Theorem update_item_idempotent (w : world) (item_id : Z) (item_data : ItemSchema.t) :
  faults w = [] ->
  let first := Database.update_item item_id item_data w in
  Database.update_item item_id item_data (snd first) = first.
Proof.
  intros Hf first. unfold first.
  destruct (Sqlite.int64 item_id) eqn:Efit.
  2:{ now rewrite !(update_item_overflow _ item_id item_data Efit). }
  rewrite (update_item_healthy w item_id item_data Hf Efit).
  destruct (find (Backend.item_has_id item_id) (items w)) as [item0|] eqn:E.
  2:{ cbn [snd]. rewrite update_item_healthy by assumption. now rewrite E. }
  cbv zeta. apply find_item_id in E as Hid. destruct Hid as [Hid Hin].
  set (item1 := Database.assign_fields item0 item_data).
  destruct (Backend.modified item0 item1) eqn:Em.
  2:{ cbn [snd]. rewrite update_item_healthy by assumption. rewrite E.
      cbv zeta. fold item1. now rewrite Em. }
  destruct (Backend.stock_changed item0 item1
            && negb (Sqlite.int64 (ItemModel.stock item1))) eqn:Es.
  { cbn [snd]. rewrite update_item_healthy by assumption. rewrite E.
    cbv zeta. fold item1. now rewrite Em, Es. }
  destruct (Backend.is_nan (ItemModel.price item1)) eqn:En.
  { cbn [snd]. rewrite update_item_healthy by assumption. rewrite E.
    cbv zeta. fold item1. now rewrite Em, Es, En. }
  cbn [snd].
  set (w1 := set_items w (Backend.update_rows item0 item1 (items w))).
  assert (Hitems : items w1 = Backend.update_rows item0 item1 (items w)).
  { apply items_set_items, rows_fit_after_update; [|apply items_fit].
    intros Hs. rewrite Hs in Es. simpl in Es.
    now apply negb_false_iff in Es. }
  rewrite (update_item_healthy w1 item_id item_data Hf Efit).
  rewrite Hitems, <- Hid, find_item_updated, Hid, E. simpl.
  change (Database.assign_fields (Backend.write_changes item0 item1 item0) item_data)
    with item1.
  now rewrite (write_changes_settles item0 item1 En).
Qed.

Lemma update_item_idempotent_witness :
  let w := mkWorld [Runs.laptop_row 1] [] [] [] in
  let item_data := ItemSchema.mk None "Desktop" 2.5%float None 3 None in
  Database.update_item 1 item_data (snd (Database.update_item 1 item_data w))
  = Database.update_item 1 item_data w.
Proof.
  cbv zeta.
  apply (update_item_idempotent (mkWorld [Runs.laptop_row 1] [] [] []) 1
           (ItemSchema.mk None "Desktop" 2.5%float None 3 None) eq_refl).
Defined.

(** ** Round trip under faults *)

(** X3.  Whatever the faults and whatever id the payload carries: when
    [create_item] returns a record and a following [get_item] of its id
    returns, it returns that very record; and it cannot raise the 404. *)
Theorem create_then_get_under_faults (w : world) (item : ItemSchema.t)
  (db_item : ItemModel.t) (w' : world) :
  Database.create_item item w = (Ok db_item, w') ->
  match Database.get_item (ItemModel.id db_item) w' with
  | (Ok r, _) => r = Some db_item
  | (Raise l e, _) => raw_fault l e
  end.
Proof.
  intros Hc.
  pose proof (create_item_hoare (items w) (users w) item w (conj eq_refl eq_refl))
    as H.
  rewrite Hc in H. destruct H as ((_ & Hfresh & Hfit & _) & Ht).
  pose proof (get_item_hoare (Backend.insert_row db_item (items w)) (users w)
                (ItemModel.id db_item) w' Ht) as Hg.
  rewrite (find_item_inserted (items w) db_item Hfresh) in Hg.
  destruct (Database.get_item (ItemModel.id db_item) w') as [[r|l e] w''].
  - destruct Hg as [_ (it & -> & Hit)]. congruence.
  - destruct Hg as [_ [(_ & _ & Hnone & _)|[Hraw|[_ Hbig]]]];
      [discriminate Hnone | exact Hraw |].
    rewrite (row_fits_id db_item Hfit) in Hbig. discriminate Hbig.
Qed.

Lemma create_then_get_under_faults_witness :
  match Database.get_item (ItemModel.id (Runs.laptop_row 7))
          (mkWorld [Runs.laptop_row 1; Runs.laptop_row 7] [] [None] [])
  with
  | (Ok r, _) => r = Some (Runs.laptop_row 7)
  | (Raise l e, _) => raw_fault l e
  end.
Proof.
  exact (create_then_get_under_faults
           (mkWorld [Runs.laptop_row 1] [] [None; None; None] [])
           (ItemSchema.mk (Some 7) "Laptop" Runs.price_999_99 None 10
              (Some "Electronics"))
           (Runs.laptop_row 7)
           (mkWorld [Runs.laptop_row 1; Runs.laptop_row 7] [] [None] [])
           eq_refl).
Defined.

(** ** The readers of the user table and [init_db] *)

Lemma get_user_hoare (l0 : list ItemModel.t) (u0 : list UserModel.t) (user_id : Z) :
  hoare (tables_are l0 u0) (Database.get_user user_id)
        (fun r w =>
           tables_are l0 u0 w
           /\ exists u, r = Some u
                /\ find (Backend.user_has_id user_id) u0 = Some u)
        (fun l e w =>
           tables_are l0 u0 w
           /\ ((l = (database_py, 154%nat)
                /\ e = HTTPException 404 "User not found"
                /\ find (Backend.user_has_id user_id) u0 = None)
               \/ raw_fault l e
               \/ (overflow_error l e
                   /\ Backend.user_id_fits user_id u0 = false))).
Proof.
  unfold Database.get_user.
  eapply hoare_bind.
  - eapply hoare_consequence;
      [apply (select_user_first_outcome l0 u0 user_id) | | | ].
    + auto.
    + intros a w H. exact H.
    + intros l e w [Ht Hr]. split; [exact Ht | now right].
  - intros r w [Ht ->].
    destruct (find (Backend.user_has_id user_id) u0) as [u|] eqn:E; simpl.
    + split; [exact Ht|]. exists u. auto.
    + split; [exact Ht|]. left. auto.
Qed.

Lemma create_all_outcome (w : world) :
  match Backend.create_all w with
  | (Ok _, w') => tables_are (items w) (users w) w'
  | (Raise l e, w') => tables_are (items w) (users w) w' /\ raw_fault l e
  end.
Proof.
  unfold Backend.create_all, Backend.sorted_tables, Backend.for_each,
    Backend.create_table, bind.
  pose proof (dbapi_outcome w) as H.
  destruct (Backend.dbapi w) as [[[]|l e] w1].
  - destruct H as [Hi Hu].
    pose proof (dbapi_outcome w1) as H1.
    destruct (Backend.dbapi w1) as [[[]|l e] w2].
    + destruct H1 as [Hi1 Hu1]. simpl. split; congruence.
    + destruct H1 as (Hi1 & Hu1 & Hr). split; [split; congruence | exact Hr].
  - destruct H as (Hi & Hu & Hr). split; [split; assumption | exact Hr].
Qed.

